(** * Log preprocessing pipeline: configuration, parsing, windowing, normalization

    A shallow embedding of [src/config/preprocessing_config.py] and
    [src/preprocessing/log_preprocessor.py].

    Conventions of the embedding:
    - Python [str] values are [string]s of ASCII characters.
    - Python exceptions are values of [exn]; a computation that may raise
      has type [result A].
    - Library calls whose behaviour is not fixed by the repository
      ([re.search], [re.findall], [re.compile], [datetime.strptime],
      [pd.to_datetime], pandas' frequency aliases) are Section variables, so
      that every theorem holds for whatever those calls return or raise.
    - The cells of a table to normalize are binary64 floats; the cell
      arithmetic of the normalizer is a parameter of its theorems.
    - The feature values that windowing aggregates are rationals; a missing
      aggregate ([None]) stands for NaN.
    - Timestamps of the feature table are seconds since the epoch. *)

From Stdlib Require Import Floats.
From Stdlib Require Import ZArith QArith Qminmax Reals Qreals Psatz String Ascii.
From stdpp Require Import gmap strings list sorting.

Local Open Scope Z_scope.

(** ** Exceptions *)

Inductive exn :=
  | ValueError
  | IndexError
  | KeyError
  | TypeError
  | OverflowError
  | ZeroDivisionError
  | OutOfBoundsTimedelta    (* pandas; a subclass of ValueError *)
  | OtherException.

Inductive result (A : Type) :=
  | Ok (a : A)
  | Raise (e : exn).
Arguments Ok {A} a.
Arguments Raise {A} e.

#[global] Instance result_ret : MRet result := fun _ a => Ok a.
#[global] Instance result_bind : MBind result := fun _ _ f m =>
  match m with Ok a => f a | Raise e => Raise e end.

Definition raises {A} (m : result A) : Prop :=
  match m with Ok _ => False | Raise _ => True end.

Definition returns {A} (m : result A) : Prop :=
  match m with Ok _ => True | Raise _ => False end.

(** [except ValueError] also catches the subclasses of ValueError. *)
Definition is_ValueError (e : exn) : bool :=
  match e with ValueError | OutOfBoundsTimedelta => true | _ => false end.

Definition is_IndexError (e : exn) : bool :=
  match e with IndexError => true | _ => false end.

(** [try: body except <handled>: handler]. *)
Definition try_except {A} (body : result A) (handled : exn -> bool)
    (handler : exn -> result A) : result A :=
  match body with
  | Ok a => Ok a
  | Raise e => if handled e then handler e else Raise e
  end.

(** ** Python string operations *)

Definition is_digit (c : ascii) : bool :=
  let n := nat_of_ascii c in ((48 <=? n) && (n <=? 57))%nat.

Definition is_upper (c : ascii) : bool :=
  let n := nat_of_ascii c in ((65 <=? n) && (n <=? 90))%nat.

Definition is_lower (c : ascii) : bool :=
  let n := nat_of_ascii c in ((97 <=? n) && (n <=? 122))%nat.

(** The character class [[a-zA-Z]]. *)
Definition is_alpha (c : ascii) : bool := is_upper c || is_lower c.

(** Whitespace as [str.isspace] sees it on ASCII. *)
Definition is_space (c : ascii) : bool :=
  let n := nat_of_ascii c in
  (((9 <=? n) && (n <=? 13)) || ((28 <=? n) && (n <=? 32)))%nat.

Definition to_lower (c : ascii) : ascii :=
  if is_upper c then ascii_of_nat (nat_of_ascii c + 32) else c.

Fixpoint str_lower (s : string) : string :=
  match s with
  | EmptyString => EmptyString
  | String c s' => String (to_lower c) (str_lower s')
  end.

Fixpoint str_forall (p : ascii -> bool) (s : string) : bool :=
  match s with
  | EmptyString => true
  | String c s' => p c && str_forall p s'
  end.

(** Longest prefix whose characters satisfy [p], and the rest. *)
Fixpoint span (p : ascii -> bool) (s : string) : string * string :=
  match s with
  | EmptyString => (EmptyString, EmptyString)
  | String c s' =>
      if p c then let '(a, b) := span p s' in (String c a, b)
      else (EmptyString, s)
  end.

Definition digit_value (c : ascii) : Z := Z.of_nat (nat_of_ascii c) - 48.

(** Value of a run of decimal digits, most significant first. *)
Fixpoint digits_value (acc : Z) (s : string) : Z :=
  match s with
  | EmptyString => acc
  | String c s' => digits_value (10 * acc + digit_value c) s'
  end.

(** [s[:n]] *)
Fixpoint slice_to (n : nat) (s : string) : string :=
  match n, s with
  | S k, String c s' => String c (slice_to k s')
  | _, _ => EmptyString
  end.

(** [s[n:]] *)
Fixpoint slice_from (n : nat) (s : string) : string :=
  match n, s with
  | S k, String _ s' => slice_from k s'
  | _, _ => s
  end.

(** [s[a:b]] for [0 <= a <= b] *)
Definition slice (a b : nat) (s : string) : string :=
  slice_to (b - a) (slice_from a s).

(** Cut [s] at the first occurrence of the character [sep]. *)
Fixpoint cut (sep : ascii) (s : string) : option (string * string) :=
  match s with
  | EmptyString => None
  | String c s' =>
      if Ascii.eqb c sep then Some (EmptyString, s')
      else match cut sep s' with
           | Some (a, b) => Some (String c a, b)
           | None => None
           end
  end.

(** [s.split(sep, maxsplit)] for a one-character separator. *)
Fixpoint split_max (sep : ascii) (maxsplit : nat) (s : string) : list string :=
  match maxsplit with
  | O => [s]
  | S k =>
      match cut sep s with
      | None => [s]
      | Some (a, b) => a :: split_max sep k b
      end
  end.

(** [s.split(sep)]: no more than [len(s)] cuts are possible. *)
Definition split_all (sep : ascii) (s : string) : list string :=
  split_max sep (String.length s) s.

(** [s.lstrip()], [s.rstrip()], [s.strip()] *)
Fixpoint lstrip (s : string) : string :=
  match s with
  | String c s' => if is_space c then lstrip s' else s
  | EmptyString => EmptyString
  end.

Fixpoint rstrip (s : string) : string :=
  match s with
  | EmptyString => EmptyString
  | String c s' =>
      match rstrip s' with
      | EmptyString => if is_space c then EmptyString else String c EmptyString
      | r => String c r
      end
  end.

Definition strip (s : string) : string := rstrip (lstrip s).

(** [s.find(ch, start)]: index of the first [ch] at or after [start], or -1. *)
Fixpoint find_from (ch : ascii) (start : nat) (pos : nat) (s : string) : Z :=
  match s with
  | EmptyString => -1
  | String c s' =>
      if (start <=? pos)%nat && Ascii.eqb c ch then Z.of_nat pos
      else find_from ch start (S pos) s'
  end.

Definition find (ch : ascii) (start : Z) (s : string) : Z :=
  find_from ch (Z.to_nat start) 0 s.

(** [int(s)] on text: surrounding whitespace, one optional sign, then
    decimal digits in which single underscores may separate digits. *)
Fixpoint int_digits (acc : Z) (prev_digit : bool) (s : string) : result Z :=
  match s with
  | EmptyString => if prev_digit then Ok acc else Raise ValueError
  | String c s' =>
      if is_digit c then int_digits (10 * acc + digit_value c) true s'
      else if Ascii.eqb c "_" && prev_digit then int_digits acc false s'
      else Raise ValueError
  end.

Definition int (s : string) : result Z :=
  match strip s with
  | String "+" r => int_digits 0 false r
  | String "-" r => v ← int_digits 0 false r; mret (- v)
  | r => int_digits 0 false r
  end.

(** ** Configuration: [src/config/preprocessing_config.py] *)

Record PreprocessingConfig := {
  timestamp_format : string;
  apache_timestamp_format : string;
  window_size : string;
  basic_features : list string;
  pattern_features : bool;
  custom_patterns : list (string * string);
  normalization_method : string;
  min_logs_per_window : Z;
  max_logs_per_window : option Z;
  window_stride : option string
}.

(** The field defaults of the dataclass. *)
Definition default_config : PreprocessingConfig := {|
  timestamp_format := "%Y-%m-%d %H:%M:%S";
  apache_timestamp_format := "%a %b %d %H:%M:%S %Y";
  window_size := "5min";
  basic_features :=
    ["log_length"; "word_count"; "numeric_count"; "special_char_count";
     "uppercase_count"; "lowercase_count"];
  pattern_features := true;
  custom_patterns :=
    [("error", "error|exception|fail|failed|failure");
     ("warning", "warn|warning|high|critical");
     ("ip_address", "\b\d{1,3}\.\d{1,3}\.\d{1,3}\.\d{1,3}\b");
     ("metrics", "\d+%|\d+(?:\.\d+)?(?:GB|MB|KB|ms|sec)");
     ("user", "user\s*\w+|username|userid")];
  normalization_method := "minmax";
  min_logs_per_window := 1;
  max_logs_per_window := None;
  window_stride := None
|}.

(** The keyword arguments of [pd.Timedelta] that [unit_map] names. *)
Inductive timedelta_kw := seconds | minutes | hours | days.

Definition kw_seconds (k : timedelta_kw) : Z :=
  match k with
  | seconds => 1
  | minutes => 60
  | hours => 3600
  | days => 86400
  end.

(** [pd.Timedelta] called with one keyword, as a number of seconds.  It
    returns the duration whenever the duration fits a signed 64-bit count
    of nanoseconds.  What pandas does beyond that range depends on its
    version; the model raises there, and no theorem depends on it: a
    theorem that needs [pd.Timedelta] to return takes the nanosecond range
    as a hypothesis. *)
Definition Timedelta (kw : timedelta_kw) (value : Z) : result Z :=
  if Z.abs (value * kw_seconds kw) * 1000000000 <=? 9223372036854775807
  then Ok (value * kw_seconds kw)
  else Raise OutOfBoundsTimedelta.

Definition unit_map : list (string * timedelta_kw) :=
  [("s", seconds); ("sec", seconds);
   ("m", minutes); ("min", minutes);
   ("h", hours); ("hr", hours);
   ("d", days); ("day", days)].

(** [d[k]] lookup in a dict written as an association list. *)
Fixpoint dict_get {V} (d : list (string * V)) (k : string) : option V :=
  match d with
  | [] => None
  | (k', v) :: d' => if String.eqb k' k then Some v else dict_get d' k
  end.

(** [re.match(r'(\d+)([a-zA-Z]+)', time_str)]: the match is anchored at the
    start only; both groups are greedy, and the first cannot give a digit
    back to the second, so the groups are the longest digit run and the
    longest letter run that follows it. *)
Definition match_number_unit (time_str : string) : option (string * string) :=
  let '(value, rest) := span is_digit time_str in
  let '(unit, _) := span is_alpha rest in
  match value, unit with
  | EmptyString, _ => None
  | _, EmptyString => None
  | _, _ => Some (value, unit)
  end.

Definition _parse_time_str (time_str : string) : result Z :=
  match match_number_unit time_str with
  | None => Raise ValueError
  | Some (value, unit) =>
      let value := digits_value 0 value in
      match dict_get unit_map (str_lower unit) with
      | None => Raise ValueError
      | Some kw => Timedelta kw value
      end
  end.

Definition get_window_timedelta (self : PreprocessingConfig) : result Z :=
  _parse_time_str (window_size self).

Definition get_stride_timedelta (self : PreprocessingConfig) : result Z :=
  match window_stride self with
  | None => get_window_timedelta self
  | Some stride => _parse_time_str stride
  end.

Definition _validate_window_size (self : PreprocessingConfig) : result unit :=
  try_except (_ ← _parse_time_str (window_size self); mret tt)
    is_ValueError (fun _ => Raise ValueError).

Definition _validate_normalization_method (self : PreprocessingConfig)
    : result unit :=
  if bool_decide (normalization_method self ∈ ["minmax"; "zscore"])
  then Ok tt else Raise ValueError.

Definition valid_features : list string :=
  ["log_length"; "word_count"; "numeric_count"; "special_char_count";
   "uppercase_count"; "lowercase_count"].

Definition _validate_features (self : PreprocessingConfig) : result unit :=
  if bool_decide (Forall (fun f => f ∈ valid_features) (basic_features self))
  then Ok tt else Raise ValueError.

Definition _validate_window_params (self : PreprocessingConfig) : result unit :=
  _ ← (if min_logs_per_window self <? 1 then Raise ValueError else Ok tt);
  _ ← match max_logs_per_window self with
      | Some mx =>
          if mx <? min_logs_per_window self then Raise ValueError else Ok tt
      | None => Ok tt
      end;
  match window_stride self with
  | Some stride =>
      try_except (_ ← _parse_time_str stride; mret tt)
        is_ValueError (fun _ => Raise ValueError)
  | None => Ok tt
  end.

Section Construction.
(** [re.compile(pattern)] succeeds. *)
Variable re_compiles : string -> bool.

Fixpoint validate_each_pattern (ps : list (string * string)) : result unit :=
  match ps with
  | [] => Ok tt
  | (_, pattern) :: ps' =>
      if re_compiles pattern then validate_each_pattern ps'
      else Raise ValueError
  end.

Definition _validate_patterns (self : PreprocessingConfig) : result unit :=
  validate_each_pattern (custom_patterns self).

Definition __post_init__ (self : PreprocessingConfig) : result unit :=
  _ ← _validate_window_size self;
  _ ← _validate_normalization_method self;
  _ ← _validate_patterns self;
  _ ← _validate_features self;
  _validate_window_params self.

(** Calling the dataclass constructor: the fields are stored, then
    [__post_init__] runs; the object exists only if it returns. *)
Definition new_PreprocessingConfig (fields : PreprocessingConfig)
    : result PreprocessingConfig :=
  _ ← __post_init__ fields; mret fields.
End Construction.

(** ** Parsing: [LogPreprocessor.parse_logs] *)

Record datetime := {
  year : Z; month : Z; day : Z; hour : Z; minute : Z; second : Z
}.

Definition is_leap (y : Z) : bool :=
  (y mod 4 =? 0) && (negb (y mod 100 =? 0) || (y mod 400 =? 0)).

Definition days_in_month (y m : Z) : Z :=
  if bool_decide (m ∈ [1; 3; 5; 7; 8; 10; 12]) then 31
  else if bool_decide (m ∈ [4; 6; 9; 11]) then 30
  else if is_leap y then 29 else 28.

Definition fits_c_int (z : Z) : bool :=
  (-2147483648 <=? z) && (z <=? 2147483647).

(** [datetime(year, month, day, hour, minute, second)]: the arguments are
    converted to C ints (OverflowError), then range-checked (ValueError). *)
Definition new_datetime (y mo d h mi s : Z) : result datetime :=
  if negb (forallb fits_c_int [y; mo; d; h; mi; s]) then Raise OverflowError
  else if (1 <=? y) && (y <=? 9999) && (1 <=? mo) && (mo <=? 12)
          && (1 <=? d) && (d <=? days_in_month y mo)
          && (0 <=? h) && (h <=? 23) && (0 <=? mi) && (mi <=? 59)
          && (0 <=? s) && (s <=? 59)
  then Ok {| year := y; month := mo; day := d;
             hour := h; minute := mi; second := s |}
  else Raise ValueError.

(** One element of [parsed_logs]: the dict with keys 'timestamp', 'message'. *)
Record parsed_log := { timestamp : datetime; message : string }.

(** [l[i]] on a Python list. *)
Definition index {A} (l : list A) (i : nat) : result A :=
  match l !! i with
  | Some a => Ok a
  | None => Raise IndexError
  end.

(** [if timestamp and message: parsed_logs.append(...)]: a datetime is
    always true, a string is true unless empty. *)
Definition append_if_truthy (ts : datetime) (msg : string) : option parsed_log :=
  match msg with
  | EmptyString => None
  | _ => Some {| timestamp := ts; message := msg |}
  end.

(** A table column as pandas types it. *)
Inductive column :=
  | ObjectColumn (values : list string)
  | DatetimeColumn (values : list datetime)
  | NumericColumn (values : list Q).

(** A [pd.DataFrame]: its labelled columns, in order. *)
Definition DataFrame := list (string * column).

(** ['name' in df.columns] *)
Definition has_column (name : string) (df : DataFrame) : bool :=
  bool_decide (name ∈ df.*1).

(** [df[name]] *)
Definition get_column (name : string) (df : DataFrame) : option column :=
  dict_get df name.

(** [df[name] = col]: an existing column is replaced where it stands, a new
    one is added last. *)
Fixpoint set_column (name : string) (col : column) (df : DataFrame) : DataFrame :=
  match df with
  | [] => [(name, col)]
  | (n, c) :: df' =>
      if String.eqb n name then (n, col) :: df'
      else (n, c) :: set_column name col df'
  end.

(** [pd.api.types.is_datetime64_any_dtype] *)
Definition is_datetime64_any_dtype (c : column) : bool :=
  match c with DatetimeColumn _ => true | _ => false end.

(** [pd.DataFrame(parsed_logs)] for a list of dicts. *)
Definition DataFrame_of_records (rs : list parsed_log) : DataFrame :=
  match rs with
  | [] => []
  | _ => [("timestamp", DatetimeColumn (timestamp <$> rs));
          ("message", ObjectColumn (message <$> rs))]
  end.

(** Python objects live in a store; a variable holds a reference. *)
Abbreviation ref := positive.
Abbreviation store := (gmap ref DataFrame).

(** A new object gets an identity no live object has. *)
Definition alloc (df : DataFrame) (h : store) : store * ref :=
  let r := fresh (dom h) in (<[r := df]> h, r).

(** What a caller may pass as [logs]. *)
Inductive logs_arg :=
  | LogList (logs : list string)
  | LogFrame (logs : ref)
  | LogOther.

(** A successful [re.search]: [group(1)] and [end()]. *)
Record re_match := { group1 : string; match_end : nat }.

Section Parsing.
(** [re.search(pattern, text)] *)
Variable re_search : string -> string -> option re_match.
(** [datetime.strptime(text, format)] *)
Variable strptime : string -> string -> result datetime.
(** [pd.to_datetime(column, format=format)] *)
Variable to_datetime : column -> string -> result column.

Variable config : PreprocessingConfig.

Definition parse_apache (log : string) : result (option parsed_log) :=
  match re_search "\[([\w\s:]+)\]" log with
  | Some m =>
      try_except
        (let timestamp_str := group1 m in
         ts ← strptime timestamp_str "%a %b %d %H:%M:%S %Y";
         let start := find "]" (find "]" 0 log + 1) log + 1 in
         let msg := strip (slice_from (Z.to_nat start) log) in
         mret (append_if_truthy ts msg))
        is_ValueError (fun _ => Ok None)
  | None => Ok None
  end.

Definition parse_hdfs (log : string) : result (option parsed_log) :=
  match split_max " " 3 log with
  | date_str :: time_str :: _ :: rest :: _ =>
      try_except
        (y ← int ("20" +:+ slice_to 2 date_str);
         mo ← int (slice 2 4 date_str);
         d ← int (slice_from 4 date_str);
         h ← int (slice_to 2 time_str);
         mi ← int (slice 2 4 time_str);
         s ← int (slice_from 4 time_str);
         ts ← new_datetime y mo d h mi s;
         mret (append_if_truthy ts rest))
        (fun e => is_ValueError e || is_IndexError e) (fun _ => Ok None)
  | _ => Ok None
  end.

Definition parse_healthapp (log : string) : result (option parsed_log) :=
  match split_all "|" log with
  | timestamp_str :: p1 :: p2 :: p3 :: _ =>
      try_except
        (a ← index (split_all ":" timestamp_str) 0;
         b ← index (split_all ":" timestamp_str) 1;
         c ← index (split_all ":" timestamp_str) 2;
         ts ← strptime (a +:+ ":" +:+ b +:+ ":" +:+ c) "%Y%m%d-%H:%M:%S";
         mret (append_if_truthy ts (p1 +:+ "|" +:+ p2 +:+ "|" +:+ p3)))
        (fun e => is_ValueError e || is_IndexError e) (fun _ => Ok None)
  | _ => Ok None
  end.

Definition parse_default (log : string) : result (option parsed_log) :=
  match re_search "(\d{4}-\d{2}-\d{2}\s+\d{2}:\d{2}:\d{2})" log with
  | Some m =>
      ts ← strptime (group1 m) (timestamp_format config);
      mret (append_if_truthy ts (strip (slice_from (match_end m) log)))
  | None => Ok None
  end.

(** The body of the [try] inside the loop, for one line. *)
Definition parse_line (log_type log : string) : result (option parsed_log) :=
  if String.eqb log_type "apache" then parse_apache log
  else if String.eqb log_type "hdfs" then parse_hdfs log
  else if String.eqb log_type "healthapp" then parse_healthapp log
  else parse_default log.

(** The loop over [logs]; [except Exception: continue] around the body. *)
Fixpoint parse_lines (log_type : string) (logs : list string)
    : list parsed_log :=
  match logs with
  | [] => []
  | log :: logs' =>
      match parse_line log_type log with
      | Ok (Some r) => r :: parse_lines log_type logs'
      | Ok None => parse_lines log_type logs'
      | Raise _ => parse_lines log_type logs'
      end
  end.

(** The DataFrame branch. *)
Definition parse_frame (logs : ref) (log_type : string) (h : store)
    : store * result ref :=
  match h !! logs with
  | None => (h, Raise OtherException)
  | Some df =>
      if negb (has_column "timestamp" df) || negb (has_column "message" df)
      then (h, Raise ValueError)
      else
        match get_column "timestamp" df with
        | None => (h, Raise KeyError)
        | Some col =>
            if negb (is_datetime64_any_dtype col) then
              let format :=
                if String.eqb log_type "apache"
                then apache_timestamp_format config
                else timestamp_format config in
              match to_datetime col format with
              | Raise e => (h, Raise e)
              | Ok col' =>
                  let df' := set_column "timestamp" col' df in
                  let h' := <[logs := df']> h in
                  let '(h'', r) := alloc df' h' in (h'', Ok r)
              end
            else
              let '(h', r) := alloc df h in (h', Ok r)
        end
  end.

Definition parse_logs (logs : logs_arg) (log_type : string) (h : store)
    : store * result ref :=
  match logs with
  | LogList logs =>
      let '(h', r) := alloc (DataFrame_of_records (parse_lines log_type logs)) h in
      (h', Ok r)
  | LogFrame logs => parse_frame logs log_type h
  | LogOther => (h, Raise ValueError)
  end.
End Parsing.

(** ** Windowing: [LogPreprocessor.create_time_windows] *)

(** One row of the feature table, once 'timestamp' is the index: the
    timestamp and one number per numeric column. *)
Record feature_row := { ts : Z; values : list Q }.

(** The feature table: the labels of its numeric columns and its rows. *)
Record feature_table := {
  numeric_cols : list string;
  table_rows : list feature_row
}.

(** Grouping by time sorts the index first when it is not increasing; the
    sort is stable. *)
Fixpoint insert_row (r : feature_row) (l : list feature_row) : list feature_row :=
  match l with
  | [] => [r]
  | x :: l' => if ts r <=? ts x then r :: l else x :: insert_row r l'
  end.

Definition sort_rows (l : list feature_row) : list feature_row :=
  foldr insert_row [] l.

Definition seconds_per_day : Z := 86400.

(** The left edges of the bins that [resample(freq)] and
    [groupby(pd.Grouper(freq=freq))] lay over a sorted index, for a fixed
    duration [w]: bins are anchored at midnight of the first timestamp's
    day, the first bin holds the first timestamp, the last bin holds the
    last one, and every bin in between is present, empty or not. *)
Definition bin_labels (w : Z) (sorted : list feature_row) : list Z :=
  match sorted with
  | [] => []
  | r0 :: _ =>
      let first := ts r0 in
      let last := ts (List.last sorted r0) in
      let origin := first - first mod seconds_per_day in
      let first_edge := first - (first - origin) mod w in
      let last_edge := last + (w - (last - origin) mod w) in
      (fun k => first_edge + Z.of_nat k * w)
        <$> seq 0 (Z.to_nat ((last_edge - first_edge) / w))
  end.

(** The bin labelled [e] is the half-open interval from [e] to [e + w]. *)
Definition in_bin (w e : Z) (r : feature_row) : Prop := e <= ts r < e + w.

#[global] Instance in_bin_dec w e r : Decision (in_bin w e r).
Proof. unfold in_bin. apply _. Defined.

(** [df.resample(freq)], iterated: every bin with its rows. *)
Definition resample (w : Z) (rows : list feature_row)
    : list (Z * list feature_row) :=
  let sorted := sort_rows rows in
  (fun e => (e, filter (in_bin w e) sorted)) <$> bin_labels w sorted.

(** [window.head(n)] *)
Definition head {A} (n : Z) (l : list A) : list A :=
  if 0 <=? n then take (Z.to_nat n) l
  else take (length l - Z.to_nat (- n)) l.

Definition Qsum (l : list Q) : Q := foldr Qplus (0 # 1) l.

Definition Qlen (l : list Q) : Q := inject_Z (Z.of_nat (length l)).

(** The aggregations 'mean', 'min' and 'max'; NaN on an empty group. *)
Definition series_mean (l : list Q) : option Q :=
  match l with
  | [] => None
  | _ => Some (Qsum l / Qlen l)%Q
  end.

Definition series_min (l : list Q) : option Q :=
  match l with
  | [] => None
  | x :: l' => Some (foldr Qmin x l')
  end.

Definition series_max (l : list Q) : option Q :=
  match l with
  | [] => None
  | x :: l' => Some (foldr Qmax x l')
  end.

(** Sum of squared deviations from the mean. *)
Definition sum_sq_dev (l : list Q) : Q :=
  let m := (Qsum l / Qlen l)%Q in
  Qsum ((fun x => (x - m) * (x - m))%Q <$> l).

(** [var(ddof)]: NaN unless the group has more than [ddof] values. *)
Definition series_var (ddof : nat) (l : list Q) : option Q :=
  if (length l <=? ddof)%nat then None
  else Some (sum_sq_dev l / inject_Z (Z.of_nat (length l - ddof)))%Q.

(** The aggregation 'std': pandas takes [ddof = 1]. *)
Definition series_std (l : list Q) : option R :=
  (fun v => sqrt (Q2R v)) <$> series_var 1 l.

(** The four aggregates of one feature in one group. *)
Record agg_cell := {
  agg_mean : option Q;
  agg_std : option R;
  agg_min : option Q;
  agg_max : option Q
}.

Definition aggregate_series (l : list Q) : agg_cell := {|
  agg_mean := series_mean l;
  agg_std := series_std l;
  agg_min := series_min l;
  agg_max := series_max l
|}.

(** The values of the [j]-th numeric column in a group of rows. *)
Definition column_values (j : nat) (rows : list feature_row) : list Q :=
  omap (fun r => values r !! j) rows.

(** [.agg({col: ['mean', 'std', 'min', 'max'] for col in numeric_cols})]
    on one group. *)
Definition aggregate (ncols : nat) (rows : list feature_row) : list agg_cell :=
  (fun j => aggregate_series (column_values j rows)) <$> seq 0 ncols.

(** The aggregated table: one row per bin, keyed by the bin's left edge. *)
Definition window_table := list (Z * list agg_cell).

Section Windowing.
(** The duration, in seconds, that pandas reads a frequency alias as. *)
Variable to_offset : string -> result Z.

Variable config : PreprocessingConfig.

(** The body of the loop that fills [valid_windows], for one window:
    [len(window) >= min_logs_per_window], then [head] when
    [max_logs_per_window] is true, that is neither None nor 0. *)
Definition keep_window (window : list feature_row)
    : option (list feature_row) :=
  if min_logs_per_window config <=? Z.of_nat (length window) then
    match max_logs_per_window config with
    | Some n => if n =? 0 then Some window else Some (head n window)
    | None => Some window
    end
  else None.

Definition valid_windows (w : Z) (rows : list feature_row)
    : list (list feature_row) :=
  omap (fun bin => keep_window bin.2) (resample w rows).

(** [create_time_windows], from the point where 'timestamp' is the index,
    for a table with at least one numeric column.  It raises when pandas
    rejects the frequency, when it cannot lay bins because the duration is
    zero (a division by zero) or negative, and when [valid_windows] is empty
    (the ValueError of the source).  Otherwise the kept rows are
    concatenated and grouped again by the same frequency.  What [agg] makes
    of the empty dict of a table without numeric columns depends on the
    pandas version; the model raises there, and the theorems are about
    tables that have a numeric column or about calls that return. *)
Definition create_time_windows (df : feature_table) : result window_table :=
  w ← to_offset (window_size config);
  if w =? 0 then Raise ZeroDivisionError else
  if w <? 0 then Raise ValueError else
  match valid_windows w (table_rows df) with
  | [] => Raise ValueError
  | valid =>
      let df_windows := concat valid in
      match numeric_cols df with
      | [] => Raise ValueError
      | cols =>
          Ok ((fun bin => (bin.1, aggregate (length cols) bin.2))
                <$> resample w df_windows)
      end
  end.
End Windowing.

(** ** Normalization: [_minmax_normalize], [_zscore_normalize] *)

Section Normalizer.
(** Column labels and cell values.  The arithmetic on cells and the
    column reductions [Series.min], [.max], [.mean], [.std] are those of
    the cell type. *)
Context {K : Type} `{Countable K}.
Context {A : Type}.
Variable zero : A.
Variables sub div : A -> A -> A.
Variable gt : A -> A -> bool.
Variables col_min col_max col_mean col_std : list A -> A.

(** [self.feature_stats]: a dict of dicts. *)
Abbreviation feature_stats := (gmap K (gmap string A)).
(** The table to normalize: its labelled columns, in order. *)
Abbreviation frame := (list (K * list A)).

(** [d[k]] on a dict. *)
Definition getitem (d : gmap string A) (k : string) : result A :=
  match d !! k with
  | Some v => Ok v
  | None => Raise KeyError
  end.

(** The body of the loop of [_minmax_normalize] for one column: the
    updated cache and the normalized column. *)
Definition minmax_column (column : K) (xs : list A) (stats : feature_stats)
    : feature_stats * result (list A) :=
  let stats :=
    match stats !! column with
    | None => <[column := {["min" := col_min xs; "max" := col_max xs]}]> stats
    | Some _ => stats
    end in
  (stats,
   d ← match stats !! column with Some d => Ok d | None => Raise KeyError end;
   min_val ← getitem d "min";
   max_val ← getitem d "max";
   mret (if gt max_val min_val
         then (fun v => div (sub v min_val) (sub max_val min_val)) <$> xs
         else (fun _ => zero) <$> xs)).

(** The same for [_zscore_normalize]. *)
Definition zscore_column (column : K) (xs : list A) (stats : feature_stats)
    : feature_stats * result (list A) :=
  let stats :=
    match stats !! column with
    | None => <[column := {["mean" := col_mean xs; "std" := col_std xs]}]> stats
    | Some _ => stats
    end in
  (stats,
   d ← match stats !! column with Some d => Ok d | None => Raise KeyError end;
   mean_val ← getitem d "mean";
   std_val ← getitem d "std";
   mret (if gt std_val zero
         then (fun v => div (sub v mean_val) std_val) <$> xs
         else (fun _ => zero) <$> xs)).

(** [for column in df.columns: ...] on a table whose column labels are
    distinct, so that [df[column]] is one column: the cache is threaded
    through the columns; an exception leaves the cache as it was when
    raised.  (With a repeated label [df[column]] is a table, and the
    comparison of its statistics raises: a theorem that says what a call
    returns or raises takes the labels distinct.) *)
Fixpoint for_each_column
    (body : K -> list A -> feature_stats -> feature_stats * result (list A))
    (df : frame) (stats : feature_stats) : feature_stats * result frame :=
  match df with
  | [] => (stats, Ok [])
  | (column, xs) :: df' =>
      match body column xs stats with
      | (stats', Raise e) => (stats', Raise e)
      | (stats', Ok ys) =>
          match for_each_column body df' stats' with
          | (stats'', Raise e) => (stats'', Raise e)
          | (stats'', Ok out) => (stats'', Ok ((column, ys) :: out))
          end
      end
  end.

Definition _minmax_normalize (df : frame) (stats : feature_stats)
    : feature_stats * result frame :=
  for_each_column minmax_column df stats.

Definition _zscore_normalize (df : frame) (stats : feature_stats)
    : feature_stats * result frame :=
  for_each_column zscore_column df stats.

Definition normalize_features (config : PreprocessingConfig) (df : frame)
    (stats : feature_stats) : feature_stats * result frame :=
  if String.eqb (normalization_method config) "minmax"
  then _minmax_normalize df stats
  else if String.eqb (normalization_method config) "zscore"
  then _zscore_normalize df stats
  else (stats, Raise ValueError).

End Normalizer.

(** *** Cells as binary64 floats

    The cells of a numeric column are IEEE 754 binary64 numbers, NaN for a
    missing value; [-], [/] and [>] are the float operations that numpy
    applies cell by cell, with their overflow to infinity. *)

Definition fzero : float := 0%float.

Definition fsub (a b : float) : float := (a - b)%float.

Definition fdiv (a b : float) : float := (a / b)%float.

(** [a > b]; false when either side is NaN. *)
Definition fgt (a b : float) : bool := (b <? a)%float.

(** The non-NaN cells of a column: the reductions skip NaN. *)
Definition dropna (l : list float) : list float :=
  List.filter (fun x => negb (is_nan x)) l.

(** [Series.min()] and [Series.max()]: NaN when no cell is left. *)
Definition fmin (l : list float) : float :=
  match dropna l with
  | [] => nan
  | x :: l' => foldl (fun m y => if (y <? m)%float then y else m) x l'
  end.

Definition fmax (l : list float) : float :=
  match dropna l with
  | [] => nan
  | x :: l' => foldl (fun m y => if (m <? y)%float then y else m) x l'
  end.

(** Min-max normalization of a table of floats with string labels. *)
Definition minmax_normalize_floats
    (df : list (string * list float)) (stats : gmap string (gmap string float))
    : gmap string (gmap string float) * result (list (string * list float)) :=
  _minmax_normalize fzero fsub fdiv fgt fmin fmax df stats.

(** *** Values used in the examples *)

(** The same configuration with another [window_stride]. *)
Definition with_window_stride (stride : option string)
    (config : PreprocessingConfig) : PreprocessingConfig := {|
  timestamp_format := timestamp_format config;
  apache_timestamp_format := apache_timestamp_format config;
  window_size := window_size config;
  basic_features := basic_features config;
  pattern_features := pattern_features config;
  custom_patterns := custom_patterns config;
  normalization_method := normalization_method config;
  min_logs_per_window := min_logs_per_window config;
  max_logs_per_window := max_logs_per_window config;
  window_stride := stride
|}.

(** The same configuration with another [window_size]. *)
Definition with_window_size (size : string)
    (config : PreprocessingConfig) : PreprocessingConfig := {|
  timestamp_format := timestamp_format config;
  apache_timestamp_format := apache_timestamp_format config;
  window_size := size;
  basic_features := basic_features config;
  pattern_features := pattern_features config;
  custom_patterns := custom_patterns config;
  normalization_method := normalization_method config;
  min_logs_per_window := min_logs_per_window config;
  max_logs_per_window := max_logs_per_window config;
  window_stride := window_stride config
|}.

(** How pandas reads the frequency aliases of the examples, in seconds. *)
Definition alias_seconds (alias : string) : result Z :=
  match dict_get [("30s", 30); ("1min", 60); ("2min", 120); ("5min", 300);
                  ("1h", 3600); ("7h", 25200); ("1d", 86400)] alias with
  | Some w => Ok w
  | None => Raise ValueError
  end.

(** A feature table with the single column 'log_length'. *)
Definition log_length_table (rows : list (Z * Z)) : feature_table := {|
  numeric_cols := ["log_length"];
  table_rows := (fun row => {| ts := row.1; values := [inject_Z row.2] |}) <$> rows
|}.

(** The standard deviation as the specification words it: the population
    standard deviation, the variance with [ddof = 0] under the root. *)
Definition population_std (l : list Q) : option R :=
  (fun v => sqrt (Q2R v)) <$> series_var 0 l.

(** ** Vocabulary of the properties *)

(** The table a call returned, read through the reference it returned. *)
Definition returned_frame (res : store * result ref) : option DataFrame :=
  match res with
  | (h, Ok r) => h !! r
  | (_, Raise _) => None
  end.

(** The HDFS line of the end-to-end scenario. *)
Definition hdfs_line : string :=
  "081109 203518 148 INFO dfs.DataNode$PacketResponder: PacketResponder 1 for block blk_38865049064139660 terminating".

(** The timestamp the HDFS branch builds from the first two fields. *)
Definition hdfs_timestamp (date_str time_str : string) : result datetime :=
  y ← int ("20" +:+ slice_to 2 date_str);
  mo ← int (slice 2 4 date_str);
  d ← int (slice_from 4 date_str);
  h ← int (slice_to 2 time_str);
  mi ← int (slice 2 4 time_str);
  s ← int (slice_from 4 time_str);
  new_datetime y mo d h mi s.

Section ParsingVocabulary.
Variable re_search : string -> string -> option re_match.
Variable strptime : string -> string -> result datetime.
Variable config : PreprocessingConfig.

(** What one line adds to [parsed_logs]: a record, or nothing when the body
    left [timestamp] or [message] unset, ran [continue], or raised. *)
Definition line_record (log_type log : string) : option parsed_log :=
  match parse_line re_search strptime config log_type log with
  | Ok r => r
  | Raise _ => None
  end.

(** The format's pattern does not match the line: the regular expression
    finds nothing, or the line has fewer than four fields. *)
Definition match_fails (log_type log : string) : Prop :=
  if String.eqb log_type "apache" then
    re_search "\[([\w\s:]+)\]" log = None
  else if String.eqb log_type "hdfs" then
    (length (split_max " " 3 log) < 4)%nat
  else if String.eqb log_type "healthapp" then
    (length (split_all "|" log) < 4)%nat
  else re_search "(\d{4}-\d{2}-\d{2}\s+\d{2}:\d{2}:\d{2})" log = None.

(** The pattern matches, but the timestamp fields do not parse: an HDFS
    number is no integer or the numbers are no date and time, a HealthApp
    timestamp has fewer than three fields between colons, or [strptime]
    raises on the text it is given. *)
Definition fields_fail (log_type log : string) : Prop :=
  if String.eqb log_type "apache" then
    exists m, re_search "\[([\w\s:]+)\]" log = Some m
      /\ raises (strptime (group1 m) "%a %b %d %H:%M:%S %Y")
  else if String.eqb log_type "hdfs" then
    exists date_str time_str thread rest more,
      split_max " " 3 log = date_str :: time_str :: thread :: rest :: more
      /\ raises (hdfs_timestamp date_str time_str)
  else if String.eqb log_type "healthapp" then
    exists timestamp_str p1 p2 p3 more,
      split_all "|" log = timestamp_str :: p1 :: p2 :: p3 :: more
      /\ match split_all ":" timestamp_str with
         | a :: b :: c :: _ =>
             raises (strptime (a +:+ ":" +:+ b +:+ ":" +:+ c) "%Y%m%d-%H:%M:%S")
         | _ => True
         end
  else
    exists m,
      re_search "(\d{4}-\d{2}-\d{2}\s+\d{2}:\d{2}:\d{2})" log = Some m
      /\ raises (strptime (group1 m) (timestamp_format config)).

(** The line is well formed and [r] is its record: the pattern of the
    format matches, the timestamp fields parse to the timestamp of [r], and
    the message of [r] is the text the format takes for it, which is not
    empty. *)
Definition line_parses (log_type log : string) (r : parsed_log) : Prop :=
  message r <> "" /\
  if String.eqb log_type "apache" then
    exists m, re_search "\[([\w\s:]+)\]" log = Some m
      /\ strptime (group1 m) "%a %b %d %H:%M:%S %Y" = Ok (timestamp r)
      /\ message r
         = strip (slice_from
                    (Z.to_nat (find "]" (find "]" 0 log + 1) log + 1)) log)
  else if String.eqb log_type "hdfs" then
    exists date_str time_str thread more,
      split_max " " 3 log = date_str :: time_str :: thread :: message r :: more
      /\ hdfs_timestamp date_str time_str = Ok (timestamp r)
  else if String.eqb log_type "healthapp" then
    exists timestamp_str p1 p2 p3 more a b c rest,
      split_all "|" log = timestamp_str :: p1 :: p2 :: p3 :: more
      /\ split_all ":" timestamp_str = a :: b :: c :: rest
      /\ strptime (a +:+ ":" +:+ b +:+ ":" +:+ c) "%Y%m%d-%H:%M:%S"
         = Ok (timestamp r)
      /\ message r = p1 +:+ "|" +:+ p2 +:+ "|" +:+ p3
  else
    exists m,
      re_search "(\d{4}-\d{2}-\d{2}\s+\d{2}:\d{2}:\d{2})" log = Some m
      /\ strptime (group1 m) (timestamp_format config) = Ok (timestamp r)
      /\ message r = strip (slice_from (match_end m) log).

(** The format the DataFrame branch passes to [pd.to_datetime]. *)
Definition frame_format (log_type : string) : string :=
  if String.eqb log_type "apache" then apache_timestamp_format config
  else timestamp_format config.

End ParsingVocabulary.

Section CacheVocabulary.
Context {K : Type} `{Countable K}.
Context {A : Type}.
Variable zero : A.
Variables sub div : A -> A -> A.
Variable gt : A -> A -> bool.
Variables col_min col_max col_mean col_std : list A -> A.

Abbreviation feature_stats := (gmap K (gmap string A)).

(** The cache entry min-max computes from a column. *)
Definition minmax_fit (xs : list A) : gmap string A :=
  {["min" := col_min xs; "max" := col_max xs]}.

(** Reading 'min' and 'max' from a cache entry and rescaling a column. *)
Definition minmax_apply (d : gmap string A) (xs : list A) : result (list A) :=
  min_val ← getitem d "min";
  max_val ← getitem d "max";
  mret (if gt max_val min_val
        then (fun v => div (sub v min_val) (sub max_val min_val)) <$> xs
        else (fun _ => zero) <$> xs).

(** The same for z-score: the entry of a column, and its use. *)
Definition zscore_fit (xs : list A) : gmap string A :=
  {["mean" := col_mean xs; "std" := col_std xs]}.

Definition zscore_apply (d : gmap string A) (xs : list A) : result (list A) :=
  mean_val ← getitem d "mean";
  std_val ← getitem d "std";
  mret (if gt std_val zero
        then (fun v => div (sub v mean_val) std_val) <$> xs
        else (fun _ => zero) <$> xs).

(** Both loop bodies have one shape: fit if the column is not cached, then
    apply what the cache holds. *)
Definition fit_if_absent (fit : list A -> gmap string A) (column : K)
    (xs : list A) (stats : feature_stats) : feature_stats :=
  match stats !! column with
  | None => <[column := fit xs]> stats
  | Some _ => stats
  end.

Definition column_step (fit : list A -> gmap string A)
    (apply : gmap string A -> list A -> result (list A))
    (column : K) (xs : list A) (stats : feature_stats)
    : feature_stats * result (list A) :=
  let stats := fit_if_absent fit column xs stats in
  (stats,
   d ← match stats !! column with Some d => Ok d | None => Raise KeyError end;
   apply d xs).

(** Statistics that [apply] can read. *)
Definition readable (apply : gmap string A -> list A -> result (list A))
    (s : feature_stats) : Prop :=
  forall c d xs, s !! c = Some d -> returns (apply d xs).

(** Statistics and transformation of the configured method. *)
Definition method_fit (config : PreprocessingConfig) (xs : list A)
    : gmap string A :=
  if String.eqb (normalization_method config) "minmax"
  then minmax_fit xs
  else zscore_fit xs.

Definition method_apply (config : PreprocessingConfig) (d : gmap string A)
    (xs : list A) : result (list A) :=
  if String.eqb (normalization_method config) "minmax"
  then minmax_apply d xs
  else zscore_apply d xs.

(** A run of later calls on the same preprocessor, each with the
    configuration and the table of its moment; a call that raises leaves the
    cache as it was when it raised. *)
Definition normalize_all (calls : list (PreprocessingConfig * list (K * list A)))
    (stats : gmap K (gmap string A)) : gmap K (gmap string A) :=
  foldl (fun s call =>
           (normalize_features zero sub div gt col_min col_max col_mean col_std
              call.1 call.2 s).1) stats calls.

End CacheVocabulary.

(** The order of the rows of a table sorted by timestamp. *)
Definition ts_le (a b : feature_row) : Prop := ts a <= ts b.

Abbreviation sorted := (StronglySorted ts_le).

(** Midnight of the day of [t]. *)
Definition day_start (t : Z) : Z := t - t mod seconds_per_day.

(** Index, counted from [origin] in steps of [w], of the bin that holds [t]. *)
Definition bin_index (origin w t : Z) : Z := (t - origin) / w.

(** What [_validate_window_params] checks of the two limits. *)
Definition limits_ok (config : PreprocessingConfig) : Prop :=
  1 <= min_logs_per_window config
  /\ forall mx, max_logs_per_window config = Some mx ->
                min_logs_per_window config <= mx.

(** ** Feature extraction: [extract_basic_features],
    [extract_pattern_features]

    Messages are read as ASCII text, one character per code point. *)

(** [d[k] = v] on a dict written as an association list: the value of a key
    already present is replaced where the key stands, a new key goes last. *)
Fixpoint dict_set {V} (d : list (string * V)) (k : string) (v : V)
    : list (string * V) :=
  match d with
  | [] => [(k, v)]
  | (k', v') :: d' =>
      if String.eqb k' k then (k', v) :: d'
      else (k', v') :: dict_set d' k v
  end.

(** [d.update(other)] *)
Definition dict_update {V} (d other : list (string * V)) : list (string * V) :=
  foldl (fun d kv => dict_set d kv.1 kv.2) d other.

(** The maximal runs of characters that satisfy [p], from left to right. *)
Fixpoint runs (p : ascii -> bool) (s : string) : list string :=
  match s with
  | EmptyString => []
  | String c s' =>
      if p c then
        match s' with
        | String c' _ =>
            if p c' then
              match runs p s' with
              | r :: rs => String c r :: rs
              | [] => [String c EmptyString]
              end
            else String c EmptyString :: runs p s'
        | EmptyString => [String c EmptyString]
        end
      else runs p s'
  end.

(** The characters of [s] that satisfy [p], from left to right. *)
Fixpoint chars_where (p : ascii -> bool) (s : string) : list ascii :=
  match s with
  | EmptyString => []
  | String c s' => if p c then c :: chars_where p s' else chars_where p s'
  end.

(** [message.split()]: the words between runs of whitespace. *)
Definition split_whitespace (message : string) : list string :=
  runs (fun c => negb (is_space c)) message.

(** [re.findall(r'\d+', message)] *)
Definition findall_digits (message : string) : list string :=
  runs is_digit message.

(** [re.findall(r'[^a-zA-Z0-9\s]', message)] *)
Definition findall_special (message : string) : list ascii :=
  chars_where (fun c => negb (is_alpha c || is_digit c || is_space c)) message.

(** [sum(1 for c in message if p(c))] *)
Fixpoint sum_ones (p : ascii -> bool) (message : string) : Z :=
  match message with
  | EmptyString => 0
  | String c s' => if p c then 1 + sum_ones p s' else sum_ones p s'
  end.

(** [len(x)] as a Python integer. *)
Definition len {A} (l : list A) : Z := Z.of_nat (length l).

Definition extract_basic_features (self : PreprocessingConfig)
    (message : string) : list (string * Z) :=
  let features := [] in
  let features :=
    if bool_decide ("log_length" ∈ basic_features self)
    then dict_set features "log_length" (Z.of_nat (String.length message))
    else features in
  let features :=
    if bool_decide ("word_count" ∈ basic_features self)
    then dict_set features "word_count" (len (split_whitespace message))
    else features in
  let features :=
    if bool_decide ("numeric_count" ∈ basic_features self)
    then dict_set features "numeric_count" (len (findall_digits message))
    else features in
  let features :=
    if bool_decide ("special_char_count" ∈ basic_features self)
    then dict_set features "special_char_count" (len (findall_special message))
    else features in
  let features :=
    if bool_decide ("uppercase_count" ∈ basic_features self)
    then dict_set features "uppercase_count" (sum_ones is_upper message)
    else features in
  let features :=
    if bool_decide ("lowercase_count" ∈ basic_features self)
    then dict_set features "lowercase_count" (sum_ones is_lower message)
    else features in
  features.

Section PatternFeatures.
(** [len(re.findall(pattern, message, re.IGNORECASE))], or the error of a
    pattern that does not compile. *)
Variable findall_count : string -> string -> result Z.

(** The loop over [custom_patterns.items()]. *)
Fixpoint count_patterns (patterns : list (string * string)) (message : string)
    (features : list (string * Z)) : result (list (string * Z)) :=
  match patterns with
  | [] => Ok features
  | (pattern_name, pattern) :: patterns' =>
      matches ← findall_count pattern message;
      count_patterns patterns' message
        (dict_set features ("pattern_" +:+ pattern_name) matches)
  end.

Definition extract_pattern_features (self : PreprocessingConfig)
    (message : string) : result (list (string * Z)) :=
  if negb (pattern_features self) then Ok []
  else count_patterns (custom_patterns self) message [].

(** The features of one row, as the loop of [process] collects them:
    the basic features, then the pattern features. *)
Definition row_features (self : PreprocessingConfig) (message : string)
    : result (list (string * Z)) :=
  let features := [] in
  let features := dict_update features (extract_basic_features self message) in
  pattern ← extract_pattern_features self message;
  mret (dict_update features pattern).
End PatternFeatures.

(** The first character of [s] satisfies [p]. *)
Definition starts_with (p : ascii -> bool) (s : string) : bool :=
  match s with
  | String c _ => p c
  | EmptyString => false
  end.

(** The configuration that asks for every basic feature. *)
Definition all_basic_features : PreprocessingConfig := default_config.

(** ** Configuration dicts: [to_dict], [from_dict] *)

(** The values a configuration dict holds. *)
Inductive value :=
  | VNone
  | VBool (b : bool)
  | VInt (n : Z)
  | VStr (s : string)
  | VList (l : list string)
  | VDict (d : list (string * string)).

Definition optional {A} (inj : A -> value) (o : option A) : value :=
  match o with
  | Some a => inj a
  | None => VNone
  end.

Definition to_dict (self : PreprocessingConfig) : list (string * value) :=
  [("timestamp_format", VStr (timestamp_format self));
   ("apache_timestamp_format", VStr (apache_timestamp_format self));
   ("window_size", VStr (window_size self));
   ("basic_features", VList (basic_features self));
   ("pattern_features", VBool (pattern_features self));
   ("custom_patterns", VDict (custom_patterns self));
   ("normalization_method", VStr (normalization_method self));
   ("min_logs_per_window", VInt (min_logs_per_window self));
   ("max_logs_per_window", optional VInt (max_logs_per_window self));
   ("window_stride", optional VStr (window_stride self))].

(** The keyword parameters of the constructor the dataclass generates. *)
Definition field_names : list string :=
  ["timestamp_format"; "apache_timestamp_format"; "window_size";
   "basic_features"; "pattern_features"; "custom_patterns";
   "normalization_method"; "min_logs_per_window"; "max_logs_per_window";
   "window_stride"].

(** Binding one keyword argument to its field.  The dataclass stores any
    value; the fields of this model hold values of the annotated types
    only, and [None] marks a value of another type, which is outside the
    model. *)
Definition set_field (fields : PreprocessingConfig) (name : string) (v : value)
    : option PreprocessingConfig :=
  let 'Build_PreprocessingConfig tf atf ws bf pf cp nm mn mx st := fields in
  if String.eqb name "timestamp_format" then
    match v with
    | VStr s => Some (Build_PreprocessingConfig s atf ws bf pf cp nm mn mx st)
    | _ => None
    end
  else if String.eqb name "apache_timestamp_format" then
    match v with
    | VStr s => Some (Build_PreprocessingConfig tf s ws bf pf cp nm mn mx st)
    | _ => None
    end
  else if String.eqb name "window_size" then
    match v with
    | VStr s => Some (Build_PreprocessingConfig tf atf s bf pf cp nm mn mx st)
    | _ => None
    end
  else if String.eqb name "basic_features" then
    match v with
    | VList l => Some (Build_PreprocessingConfig tf atf ws l pf cp nm mn mx st)
    | _ => None
    end
  else if String.eqb name "pattern_features" then
    match v with
    | VBool b => Some (Build_PreprocessingConfig tf atf ws bf b cp nm mn mx st)
    | _ => None
    end
  else if String.eqb name "custom_patterns" then
    match v with
    | VDict d => Some (Build_PreprocessingConfig tf atf ws bf pf d nm mn mx st)
    | _ => None
    end
  else if String.eqb name "normalization_method" then
    match v with
    | VStr s => Some (Build_PreprocessingConfig tf atf ws bf pf cp s mn mx st)
    | _ => None
    end
  else if String.eqb name "min_logs_per_window" then
    match v with
    | VInt n => Some (Build_PreprocessingConfig tf atf ws bf pf cp nm n mx st)
    | _ => None
    end
  else if String.eqb name "max_logs_per_window" then
    match v with
    | VInt n =>
        Some (Build_PreprocessingConfig tf atf ws bf pf cp nm mn (Some n) st)
    | VNone => Some (Build_PreprocessingConfig tf atf ws bf pf cp nm mn None st)
    | _ => None
    end
  else if String.eqb name "window_stride" then
    match v with
    | VStr s =>
        Some (Build_PreprocessingConfig tf atf ws bf pf cp nm mn mx (Some s))
    | VNone => Some (Build_PreprocessingConfig tf atf ws bf pf cp nm mn mx None)
    | _ => None
    end
  else None.

(** The keyword arguments, bound over the field defaults. *)
Fixpoint bind_kwargs (kwargs : list (string * value))
    (fields : PreprocessingConfig) : option PreprocessingConfig :=
  match kwargs with
  | [] => Some fields
  | (name, v) :: kwargs' =>
      match set_field fields name v with
      | Some fields' => bind_kwargs kwargs' fields'
      | None => None
      end
  end.

Section FromDict.
Variable re_compiles : string -> bool.

(** The constructor called with the entries of [config_dict] as keyword
    arguments: a key that is no parameter of the constructor is
    a TypeError; otherwise the fields are bound, those the dict does not
    name take their defaults, and [__post_init__] validates. *)
Definition from_dict (config_dict : list (string * value))
    : option (result PreprocessingConfig) :=
  if bool_decide (Forall (fun name => name ∈ field_names) config_dict.*1) then
    match bind_kwargs config_dict default_config with
    | Some fields => Some (new_PreprocessingConfig re_compiles fields)
    | None => None
    end
  else Some (Raise TypeError).
End FromDict.

(** * Properties *)

(** ** Duration strings and configuration construction *)

Ltac ascii_cases c :=
  destruct c as [[] [] [] [] [] [] [] []]; vm_compute; try reflexivity; try discriminate.

Lemma alpha_not_digit c : is_alpha c = true -> is_digit c = false.
Proof. ascii_cases c. Qed.



Lemma append_cons c (s t : string) : String c s +:+ t = String c (s +:+ t).
Proof. reflexivity. Qed.

Lemma append_empty_l (t : string) : "" +:+ t = t.
Proof. reflexivity. Qed.

Lemma span_all p a b :
  str_forall p a = true ->
  (forall c b', b = String c b' -> p c = false) ->
  span p (a +:+ b) = (a, b).
Proof.
  intros Ha Hb. induction a as [|c a IH].
  - rewrite append_empty_l. destruct b as [|c b']; [reflexivity|]. simpl.
    now rewrite (Hb c b' eq_refl).
  - simpl in Ha. apply andb_true_iff in Ha as [Hc Ha].
    rewrite append_cons. simpl. rewrite Hc, (IH Ha). reflexivity.
Qed.

Lemma append_empty_r (s : string) : s +:+ "" = s.
Proof. induction s as [|c s IH]; [reflexivity|]. now rewrite append_cons, IH. Qed.









(** The match is anchored at the start of the string only: text after the
    unit is not looked at. *)
Example parse_time_str_ignores_suffix :
  _parse_time_str "5min!" = Ok 300 /\ _parse_time_str "5m30s" = Ok 300.
Proof. split; reflexivity. Qed.

(** ** Parsing *)

Lemma alloc_fresh df (h : store) :
  h !! (alloc df h).2 = None /\ (alloc df h).1 = <[(alloc df h).2 := df]> h.
Proof.
  unfold alloc. simpl. split; [|reflexivity].
  apply not_elem_of_dom. apply is_fresh.
Qed.

Lemma returned_frame_alloc df (h : store) :
  returned_frame (let '(h', r) := alloc df h in (h', Ok r)) = Some df.
Proof. unfold alloc. simpl. apply lookup_insert_eq. Qed.

Section ParsingProperties.
Variable re_search : string -> string -> option re_match.
Variable strptime : string -> string -> result datetime.
Variable to_datetime : column -> string -> result column.
Variable config : PreprocessingConfig.

Local Abbreviation line_record := (line_record re_search strptime config).
Local Abbreviation match_fails := (match_fails re_search).

Lemma parse_lines_hdfs_line :
  parse_lines re_search strptime config "hdfs" [hdfs_line]
  = [{| timestamp := {| year := 2008; month := 11; day := 9;
                        hour := 20; minute := 35; second := 18 |};
        message := "INFO dfs.DataNode$PacketResponder: PacketResponder 1 for block blk_38865049064139660 terminating" |}].
Proof. reflexivity. Qed.

Lemma parse_lines_omap log_type logs :
  parse_lines re_search strptime config log_type logs
  = omap (line_record log_type) logs.
Proof.
  induction logs as [|log logs IH]; [reflexivity|].
  change (omap (line_record log_type) (log :: logs))
    with (match line_record log_type log with
          | Some r => r :: omap (line_record log_type) logs
          | None => omap (line_record log_type) logs
          end).
  simpl. unfold line_record at 1.
  destruct (parse_line _ _ _ _ _) as [[r|]|e]; now rewrite IH.
Qed.

Lemma omap_length_le {A B} (f : A -> option B) l :
  (length (omap f l) <= length l)%nat.
Proof.
  induction l as [|a l IH]; [reflexivity|].
  change (omap f (a :: l))
    with (match f a with Some b => b :: omap f l | None => omap f l end).
  destruct (f a); simpl; lia.
Qed.

Lemma parse_hdfs_fields log date_str time_str thread rest more :
  split_max " " 3 log = date_str :: time_str :: thread :: rest :: more ->
  parse_hdfs log
  = try_except (ts ← hdfs_timestamp date_str time_str;
                mret (append_if_truthy ts rest))
      (fun e => is_ValueError e || is_IndexError e) (fun _ => Ok None).
Proof.
  intros Hs. unfold parse_hdfs, hdfs_timestamp. rewrite Hs.
  repeat match goal with
         | |- context [int ?x] => destruct (int x); simpl; [|reflexivity]
         end.
  reflexivity.
Qed.

Lemma match_fails_no_record log_type log :
  match_fails log_type log -> line_record log_type log = None.
Proof.
  unfold match_fails, line_record, parse_line.
  destruct (String.eqb log_type "apache").
  { unfold parse_apache. now intros ->. }
  destruct (String.eqb log_type "hdfs").
  { unfold parse_hdfs.
    destruct (split_max " " 3 log) as [|a [|b [|c [|d l]]]]; simpl; try reflexivity.
    lia. }
  destruct (String.eqb log_type "healthapp").
  { unfold parse_healthapp.
    destruct (split_all "|" log) as [|a [|b [|c [|d l]]]]; simpl; try reflexivity.
    lia. }
  unfold parse_default. now intros ->.
Qed.

Lemma append_if_truthy_iff t msg r :
  append_if_truthy t msg = Some r
  <-> msg <> "" /\ timestamp r = t /\ message r = msg.
Proof.
  destruct r as [t' msg']. simpl. split.
  - destruct msg; [discriminate|]. intros [= <- <-]. repeat split. discriminate.
  - intros (Hne & -> & ->). destruct msg; [contradiction | reflexivity].
Qed.

Lemma fields_fail_no_record log_type log :
  fields_fail re_search strptime config log_type log ->
  line_record log_type log = None.
Proof.
  unfold fields_fail, line_record, parse_line.
  destruct (String.eqb log_type "apache").
  { intros (m & Hm & Hr). unfold parse_apache. rewrite Hm.
    destruct (strptime (group1 m) _) as [t|e]; simpl in *; [tauto|].
    now destruct (is_ValueError e). }
  destruct (String.eqb log_type "hdfs").
  { intros (date_str & time_str & thread & rest & more & Hs & Hr).
    rewrite (parse_hdfs_fields _ _ _ _ _ _ Hs).
    destruct (hdfs_timestamp date_str time_str) as [t|e]; simpl in *; [tauto|].
    destruct (is_ValueError e || is_IndexError e); reflexivity. }
  destruct (String.eqb log_type "healthapp").
  { intros (timestamp_str & p1 & p2 & p3 & more & Hs & Hr).
    unfold parse_healthapp. rewrite Hs. unfold index.
    destruct (split_all ":" timestamp_str) as [|a [|b [|c rest]]];
      try reflexivity.
    simpl.
    destruct (strptime _ _) as [t|e]; simpl in *; [tauto|].
    destruct (is_ValueError e || is_IndexError e); reflexivity. }
  intros (m & Hm & Hr). unfold parse_default. rewrite Hm.
  destruct (strptime (group1 m) _) as [t|e]; simpl in *; [tauto | reflexivity].
Qed.

(** A line adds the record [r] exactly when it is well formed with record
    [r]. *)
Lemma line_record_Some log_type log r :
  line_record log_type log = Some r
  <-> line_parses re_search strptime config log_type log r.
Proof.
  unfold line_parses, line_record, parse_line.
  destruct (String.eqb log_type "apache").
  { unfold parse_apache.
    destruct (re_search _ log) as [m|].
    2:{ split; [discriminate | now intros (_ & m & [=] & _)]. }
    destruct (strptime (group1 m) _) as [t|e] eqn:Et; simpl.
    - rewrite append_if_truthy_iff. split.
      + intros (Hne & Ht & Hm). rewrite Hm. split; [exact Hne|].
        exists m. rewrite Et, Ht. repeat split.
      + intros (Hne & m' & [= <-] & Hts & Hm).
        rewrite Et in Hts. injection Hts as <-. rewrite <- Hm. tauto.
    - split.
      + destruct (is_ValueError e); discriminate.
      + intros (_ & m' & [= <-] & Hts & _). rewrite Et in Hts. discriminate. }
  destruct (String.eqb log_type "hdfs").
  { destruct (split_max " " 3 log)
      as [|date_str [|time_str [|thread [|rest more]]]] eqn:Hs;
      try (unfold parse_hdfs; rewrite Hs;
           split; [discriminate | now intros (_ & ? & ? & ? & ? & [=] & _)]).
    rewrite (parse_hdfs_fields _ _ _ _ _ _ Hs).
    destruct (hdfs_timestamp date_str time_str) as [t|e] eqn:Et; simpl.
    - rewrite append_if_truthy_iff. split.
      + intros (Hne & Ht & Hm). rewrite Hm. split; [exact Hne|].
        exists date_str, time_str, thread, more. rewrite Et, Ht. repeat split.
      + intros (Hne & d' & t' & th' & mo' & [= <- <- <- Hm <-] & Hts).
        rewrite Et in Hts. injection Hts as <-. rewrite Hm. tauto.
    - split.
      + destruct (is_ValueError e || is_IndexError e); discriminate.
      + intros (_ & d' & t' & th' & mo' & [= <- <- <- _ <-] & Hts).
        rewrite Et in Hts. discriminate. }
  destruct (String.eqb log_type "healthapp").
  { unfold parse_healthapp.
    destruct (split_all "|" log) as [|ts_str [|p1 [|p2 [|p3 more]]]];
      try (split; [discriminate
                  | now intros (_ & ? & ? & ? & ? & ? & ? & ? & ? & ? & [=] & _)]).
    unfold index.
    destruct (split_all ":" ts_str) as [|a [|b [|c rest]]] eqn:Hc;
      try (split; [discriminate
                  | intros (_ & ? & ? & ? & ? & ? & ? & ? & ? & ?
                              & [= <- <- <- <- <-] & Hc' & _);
                    rewrite Hc in Hc'; discriminate]).
    simpl.
    destruct (strptime _ _) as [t|e] eqn:Et; simpl.
    - rewrite append_if_truthy_iff. split.
      + intros (Hne & Ht & Hm). rewrite Hm. split; [exact Hne|].
        exists ts_str, p1, p2, p3, more, a, b, c, rest.
        rewrite Hc, Et, Ht. repeat split.
      + intros (Hne & ts' & q1 & q2 & q3 & mo' & a' & b' & c' & rest'
                  & [= <- <- <- <- <-] & Hc' & Hts & Hm).
        rewrite Hc in Hc'. injection Hc' as <- <- <- <-.
        rewrite Et in Hts. injection Hts as <-. rewrite <- Hm. tauto.
    - split.
      + destruct (is_ValueError e || is_IndexError e); discriminate.
      + intros (_ & ts' & q1 & q2 & q3 & mo' & a' & b' & c' & rest'
                  & [= <- <- <- <- <-] & Hc' & Hts & _).
        rewrite Hc in Hc'. injection Hc' as <- <- <- <-.
        rewrite Et in Hts. discriminate. }
  unfold parse_default.
  destruct (re_search _ log) as [m|].
  2:{ split; [discriminate | now intros (_ & m & [=] & _)]. }
  destruct (strptime (group1 m) _) as [t|e] eqn:Et; simpl.
  - rewrite append_if_truthy_iff. split.
    + intros (Hne & Ht & Hm). rewrite Hm. split; [exact Hne|].
      exists m. rewrite Et, Ht. repeat split.
    + intros (Hne & m' & [= <-] & Hts & Hm).
      rewrite Et in Hts. injection Hts as <-. rewrite <- Hm. tauto.
  - split; [discriminate|].
    intros (_ & m' & [= <-] & Hts & _). rewrite Et in Hts. discriminate.
Qed.

Lemma omap_length_filter {A B} (f : A -> option B) l :
  length (omap f l) = length (filter (fun a => is_Some (f a)) l).
Proof.
  induction l as [|a l IH]; [reflexivity|].
  change (omap f (a :: l))
    with (match f a with Some b => b :: omap f l | None => omap f l end).
  rewrite filter_cons. destruct (f a) as [b|] eqn:E.
  - rewrite decide_True by eauto. simpl. now rewrite IH.
  - rewrite decide_False by (intros [? [=]]). exact IH.
Qed.

(** C1 (amended).  The HDFS line of the scenario parses to exactly one
    record, with timestamp 2008-11-09 20:35:18; the message is the fourth
    field of the split, the text after the thread id 148. *)
Theorem parse_logs_hdfs_line (h : store) :
  returned_frame
    (parse_logs re_search strptime to_datetime config (LogList [hdfs_line]) "hdfs" h)
  = Some [("timestamp",
           DatetimeColumn [{| year := 2008; month := 11; day := 9;
                              hour := 20; minute := 35; second := 18 |}]);
          ("message",
           ObjectColumn ["INFO dfs.DataNode$PacketResponder: PacketResponder 1 for block blk_38865049064139660 terminating"])].
Proof.
  unfold parse_logs. rewrite parse_lines_hdfs_line.
  apply returned_frame_alloc.
Qed.

(** C9.  On a list of strings [parse_logs] returns a new table and never
    raises, whatever the log type.  The table has one row for each
    well-formed line, in the order of the lines, holding the timestamp and
    the message of that line (and no column at all when no line is well
    formed), and no row for any other line: a line whose pattern does not
    match or whose timestamp fields do not parse is skipped, and the records
    of the lines before and after it are as they would be without it.  The
    caller sees as many records as there are well-formed lines. *)
Theorem parse_logs_never_raises (logs : list string) (log_type : string)
    (h : store) :
  let records := omap (line_record log_type) logs in
  let table : DataFrame :=
    match records with
    | [] => []
    | _ => [("timestamp", DatetimeColumn (timestamp <$> records));
            ("message", ObjectColumn (message <$> records))]
    end in
  (exists r,
      parse_logs re_search strptime to_datetime config (LogList logs) log_type h
      = (<[r := table]> h, Ok r)
      /\ h !! r = None)
  /\ (forall log r,
        line_record log_type log = Some r
        <-> line_parses re_search strptime config log_type log r)
  /\ (forall log,
        match_fails log_type log
          \/ fields_fail re_search strptime config log_type log ->
        line_record log_type log = None)
  /\ length records
     = length (filter (fun log => is_Some (line_record log_type log)) logs)
  /\ (length records <= length logs)%nat
  /\ (forall before log after,
        logs = before ++ log :: after ->
        line_record log_type log = None ->
        records = omap (line_record log_type) (before ++ after)).
Proof.
  intros records table. subst records table.
  split; [|split; [|split; [|split; [|split]]]].
  - exists (alloc (DataFrame_of_records
              (parse_lines re_search strptime config log_type logs)) h).2.
    split; [|apply alloc_fresh].
    unfold parse_logs, alloc. simpl. rewrite parse_lines_omap.
    reflexivity.
  - intros log r. apply line_record_Some.
  - intros log [Hm|Hf].
    + now apply match_fails_no_record.
    + now apply fields_fail_no_record.
  - apply omap_length_filter.
  - apply omap_length_le.
  - intros before log after -> Hnone.
    rewrite !omap_app.
    change (omap (line_record log_type) (log :: after))
      with (match line_record log_type log with
            | Some r => r :: omap (line_record log_type) after
            | None => omap (line_record log_type) after
            end).
    now rewrite Hnone.
Qed.

End ParsingProperties.

(** C1 as stated fails: the thread id is not part of the message. *)
Lemma parse_logs_hdfs_line_drops_thread_id :
  ~ (forall re_search strptime to_datetime config h,
       returned_frame
         (parse_logs re_search strptime to_datetime config
            (LogList [hdfs_line]) "hdfs" h)
       = Some [("timestamp",
                DatetimeColumn [{| year := 2008; month := 11; day := 9;
                                   hour := 20; minute := 35; second := 18 |}]);
               ("message",
                ObjectColumn ["148 INFO dfs.DataNode$PacketResponder: PacketResponder 1 for block blk_38865049064139660 terminating"])]).
Proof.
  intros Hclaim.
  specialize (Hclaim (fun _ _ => None) (fun _ _ => Raise ValueError)
                (fun c _ => Ok c) default_config ∅).
  unfold parse_logs in Hclaim.
  rewrite parse_lines_hdfs_line, returned_frame_alloc in Hclaim. discriminate.
Qed.

(** Three HDFS lines of which the second has a month 13 and the third has
    too few fields: the table has the one row of the first line. *)
Lemma parse_logs_never_raises_witness :
  exists r,
    parse_logs (fun _ _ => None) (fun _ _ => Raise ValueError) (fun c _ => Ok c)
      default_config
      (LogList [hdfs_line; "081309 203518 148 INFO x"; "too short"]) "hdfs" ∅
    = (<[r := [("timestamp",
                DatetimeColumn [{| year := 2008; month := 11; day := 9;
                                   hour := 20; minute := 35; second := 18 |}]);
               ("message",
                ObjectColumn ["INFO dfs.DataNode$PacketResponder: PacketResponder 1 for block blk_38865049064139660 terminating"])]]> ∅,
       Ok r).
Proof.
  destruct (parse_logs_never_raises (fun _ _ => None)
              (fun _ _ => Raise ValueError) (fun c _ => Ok c) default_config
              [hdfs_line; "081309 203518 148 INFO x"; "too short"] "hdfs" ∅)
    as ((r & Hrun & _) & _).
  exists r. exact Hrun.
Defined.

(** ** The DataFrame branch: conversion in place, then a copy *)


Lemma get_set_column_other name other col (df : DataFrame) :
  other <> name ->
  get_column other (set_column name col df) = get_column other df.
Proof.
  intros Hne. unfold get_column. induction df as [|[n c] df IH]; simpl.
  - destruct (String.eqb_spec name other); [congruence|reflexivity].
  - destruct (String.eqb_spec n name) as [->|Hn]; simpl.
    + destruct (String.eqb_spec name other); [congruence|reflexivity].
    + now rewrite IH.
Qed.

Lemma set_column_labels name col (df : DataFrame) :
  name ∈ df.*1 -> (set_column name col df).*1 = df.*1.
Proof.
  induction df as [|[n c] df IH]; simpl.
  - intros Hin. inversion Hin.
  - intros Hin. destruct (String.eqb_spec n name) as [->|Hn]; [reflexivity|].
    simpl. f_equal. apply IH.
    apply elem_of_cons in Hin as [Heq|Hin]; [simpl in Heq; congruence|exact Hin].
Qed.

Section FrameBranch.
Variable re_search : string -> string -> option re_match.
Variable strptime : string -> string -> result datetime.
Variable to_datetime : column -> string -> result column.
Variable config : PreprocessingConfig.

Local Abbreviation frame_format := (frame_format config).


End FrameBranch.


(** ** The statistics cache *)

Section CacheProperties.
Context {K : Type} `{Countable K}.
Context {A : Type}.
Variable zero : A.
Variables sub div : A -> A -> A.
Variable gt : A -> A -> bool.
Variables col_min col_max col_mean col_std : list A -> A.

Abbreviation feature_stats := (gmap K (gmap string A)).
Abbreviation frame := (list (K * list A)).

Local Abbreviation minmax_fit := (minmax_fit col_min col_max).
Local Abbreviation minmax_apply := (minmax_apply zero sub div gt).
Local Abbreviation zscore_fit := (zscore_fit col_mean col_std).
Local Abbreviation zscore_apply := (zscore_apply zero sub div gt).
Local Abbreviation fit_if_absent := (fit_if_absent (K:=K) (A:=A)).
Local Abbreviation column_step := (column_step (K:=K) (A:=A)).

Lemma minmax_column_step :
  minmax_column zero sub div gt col_min col_max
  = column_step minmax_fit minmax_apply.
Proof. reflexivity. Qed.

Lemma zscore_column_step :
  zscore_column zero sub div gt col_mean col_std
  = column_step zscore_fit zscore_apply.
Proof. reflexivity. Qed.

Section Loop.
Variable fit : list A -> gmap string A.
Variable apply : gmap string A -> list A -> result (list A).

Local Abbreviation readable := (readable apply).

Lemma fit_if_absent_subseteq c xs (s : feature_stats) :
  s ⊆ fit_if_absent fit c xs s.
Proof.
  unfold fit_if_absent. destruct (s !! c) eqn:E; [reflexivity|].
  now apply insert_subseteq.
Qed.

Lemma fit_if_absent_lookup c xs (s : feature_stats) :
  fit_if_absent fit c xs s !! c
  = Some (match s !! c with Some d => d | None => fit xs end).
Proof.
  unfold fit_if_absent. destruct (s !! c) eqn:E; [exact E|].
  apply lookup_insert_eq.
Qed.

(** The cache only grows: an entry, once there, stays as it is. *)
Lemma for_each_column_subseteq (df : frame) (s s' : feature_stats) r :
  for_each_column (column_step fit apply) df s = (s', r) -> s ⊆ s'.
Proof.
  revert s s' r. induction df as [|[c xs] df IH]; intros s s' r; simpl.
  - now intros [= <- _].
  - pose proof (fit_if_absent_subseteq c xs s) as Hs.
    destruct (_ ≫= _) as [ys|e].
    + destruct (for_each_column _ df _) as [s2 [out|e]] eqn:E;
        intros [= <- _]; (etrans; [exact Hs|]); exact (IH _ _ _ E).
    + now intros [= <- _].
Qed.

Hypothesis fit_readable : forall xs ys, returns (apply (fit xs) ys).

Lemma fit_if_absent_readable c xs (s : feature_stats) :
  readable s -> readable (fit_if_absent fit c xs s).
Proof.
  intros Hs c' d ys. unfold fit_if_absent.
  destruct (s !! c) eqn:E; [apply Hs|].
  destruct (decide (c = c')) as [<-|Hne].
  - rewrite lookup_insert_eq. intros [= <-]. apply fit_readable.
  - rewrite lookup_insert_ne by exact Hne. apply Hs.
Qed.

(** From readable statistics the loop runs to its end, and each column of
    the result is [apply] of the final cache entry of its label. *)
Lemma for_each_column_returns (df : frame) (s : feature_stats) :
  readable s ->
  exists s' out,
    for_each_column (column_step fit apply) df s = (s', Ok out)
    /\ readable s'
    /\ Forall2 (fun col res =>
         res.1 = col.1 /\
         exists d, s' !! col.1 = Some d /\ apply d col.2 = Ok res.2) df out.
Proof.
  revert s. induction df as [|[c xs] df IH]; intros s Hs; simpl.
  - exists s, []. repeat split; [exact Hs | constructor].
  - pose proof (fit_if_absent_readable c xs s Hs) as Hs1.
    pose proof (fit_if_absent_lookup c xs s) as Hc.
    set (s1 := fit_if_absent fit c xs s) in *.
    rewrite Hc. simpl.
    set (d := match s !! c with Some d => d | None => fit xs end) in *.
    pose proof (Hs1 c d xs Hc) as Hret.
    destruct (apply d xs) as [ys|e] eqn:Ea; [|destruct Hret].
    destruct (IH s1 Hs1) as (s' & out & Hrun & Hs' & Hall).
    rewrite Hrun. exists s', ((c, ys) :: out). repeat split; [exact Hs'|].
    constructor; [|exact Hall]. simpl. split; [reflexivity|].
    exists d. split; [|exact Ea].
    eapply lookup_weaken; [exact Hc|].
    eapply for_each_column_subseteq. exact Hrun.
Qed.

(** A column whose label is not cached yet, and occurs once in the table,
    gets the statistics of that column. *)
Lemma for_each_column_fits (df : frame) (s s' : feature_stats) out c xs :
  for_each_column (column_step fit apply) df s = (s', Ok out) ->
  NoDup df.*1 -> (c, xs) ∈ df -> s !! c = None ->
  s' !! c = Some (fit xs).
Proof.
  revert s s' out. induction df as [|[c0 xs0] df IH]; intros s s' out; simpl.
  - intros _ _ Hin. inversion Hin.
  - intros Hrun Hnd Hin Hnone.
    apply NoDup_cons in Hnd as [Hfresh Hnd].
    destruct (_ ≫= _) as [ys|e]; [|discriminate].
    destruct (for_each_column _ df _) as [s2 [out2|e]] eqn:E; [|discriminate].
    injection Hrun as <- _.
    apply elem_of_cons in Hin as [[= <- <-]|Hin].
    + eapply lookup_weaken; [|eapply for_each_column_subseteq; exact E].
      rewrite fit_if_absent_lookup. now rewrite Hnone.
    + eapply IH; [exact E | exact Hnd | exact Hin |].
      unfold fit_if_absent. destruct (s !! c0); [exact Hnone|].
      rewrite lookup_insert_ne; [exact Hnone|].
      intros ->. apply Hfresh. apply list_elem_of_fmap. now exists (c, xs).
Qed.

End Loop.
End CacheProperties.

Section CacheReuse.
Context {K : Type} `{Countable K}.
Context {A : Type}.
Variable zero : A.
Variables sub div : A -> A -> A.
Variable gt : A -> A -> bool.
Variables col_min col_max col_mean col_std : list A -> A.

Abbreviation normalize :=
  (normalize_features (K:=K) zero sub div gt col_min col_max col_mean col_std).

Local Abbreviation method_fit :=
  (method_fit col_min col_max col_mean col_std).
Local Abbreviation method_apply := (method_apply zero sub div gt).
Local Abbreviation normalize_all :=
  (normalize_all zero sub div gt col_min col_max col_mean col_std).

Lemma minmax_fit_readable xs ys :
  returns (minmax_apply zero sub div gt (minmax_fit col_min col_max xs) ys).
Proof.
  unfold minmax_apply, minmax_fit, getitem.
  rewrite lookup_insert_eq. simpl.
  rewrite lookup_insert_ne by discriminate. rewrite lookup_singleton_eq.
  exact I.
Qed.

Lemma zscore_fit_readable xs ys :
  returns (zscore_apply zero sub div gt (zscore_fit col_mean col_std xs) ys).
Proof.
  unfold zscore_apply, zscore_fit, getitem.
  rewrite lookup_insert_eq. simpl.
  rewrite lookup_insert_ne by discriminate. rewrite lookup_singleton_eq.
  exact I.
Qed.

Lemma method_fit_readable config xs ys :
  returns (method_apply config (method_fit config xs) ys).
Proof.
  unfold method_apply, method_fit.
  destruct (String.eqb _ _);
    [apply minmax_fit_readable | apply zscore_fit_readable].
Qed.

Lemma normalize_loop config df (s : gmap K (gmap string A)) :
  normalization_method config = "minmax"
    \/ normalization_method config = "zscore" ->
  normalize config df s
  = for_each_column
      (column_step (method_fit config) (method_apply config)) df s.
Proof.
  unfold normalize_features, _minmax_normalize, _zscore_normalize,
    method_fit, method_apply.
  rewrite minmax_column_step, zscore_column_step.
  intros [-> | ->]; reflexivity.
Qed.

Lemma normalize_subseteq config df (s : gmap K (gmap string A)) :
  s ⊆ (normalize config df s).1.
Proof.
  unfold normalize_features, _minmax_normalize, _zscore_normalize.
  rewrite minmax_column_step, zscore_column_step.
  destruct (String.eqb _ "minmax").
  { destruct (for_each_column _ df s) as [s' r] eqn:E.
    exact (for_each_column_subseteq _ _ _ _ _ _ E). }
  destruct (String.eqb _ "zscore").
  { destruct (for_each_column _ df s) as [s' r] eqn:E.
    exact (for_each_column_subseteq _ _ _ _ _ _ E). }
  reflexivity.
Qed.

Lemma normalize_all_subseteq calls (s : gmap K (gmap string A)) :
  s ⊆ normalize_all calls s.
Proof.
  revert s. induction calls as [|[config df] calls IH]; intros s; simpl.
  - reflexivity.
  - etrans; [apply (normalize_subseteq config df)|]. apply IH.
Qed.

(** C5.  On a fresh preprocessor, normalizing a table [t1] with distinct
    column labels caches for each of its columns the statistics of that
    column; normalizing a table [t2] with distinct column labels afterwards
    leaves the entry of a shared column [c] as it is and transforms the
    column [c] of [t2] with it, not with statistics of [t2].  No later
    normalize call, whatever its method or table, changes the entry. *)
Theorem cached_statistics_are_reused (config : PreprocessingConfig)
    (t1 t2 : list (K * list A)) (c : K) (xs1 xs2 : list A) :
  normalization_method config = "minmax"
    \/ normalization_method config = "zscore" ->
  NoDup t1.*1 -> NoDup t2.*1 -> (c, xs1) ∈ t1 -> (c, xs2) ∈ t2 ->
  let d := method_fit config xs1 in
  exists s1 out1 s2 out2 ys,
    normalize config t1 ∅ = (s1, Ok out1)
    /\ s1 !! c = Some d
    /\ normalize config t2 s1 = (s2, Ok out2)
    /\ s2 !! c = Some d
    /\ method_apply config d xs2 = Ok ys
    /\ (c, ys) ∈ out2
    /\ (forall calls, normalize_all calls s2 !! c = Some d).
Proof.
  intros Hm Hnd _ Hin1 Hin2 d.
  pose proof (method_fit_readable config) as Hfit.
  destruct (for_each_column_returns (method_fit config) (method_apply config)
              Hfit t1 ∅) as (s1 & out1 & Hrun1 & Hs1 & _).
  { intros c' d' xs Hd'. rewrite lookup_empty in Hd'. discriminate. }
  destruct (for_each_column_returns (method_fit config) (method_apply config)
              Hfit t2 s1 Hs1) as (s2 & out2 & Hrun2 & Hs2 & Hall2).
  assert (Hc1 : s1 !! c = Some d).
  { eapply for_each_column_fits;
      [exact Hrun1 | exact Hnd | exact Hin1 | apply lookup_empty]. }
  assert (Hc2 : s2 !! c = Some d).
  { eapply lookup_weaken; [exact Hc1|].
    eapply for_each_column_subseteq. exact Hrun2. }
  apply list_elem_of_lookup in Hin2 as [i Hi].
  destruct (Forall2_lookup_l _ _ _ _ _ Hall2 Hi)
    as ([c' ys] & Hout & Hlabel & d' & Hd' & Hys).
  simpl in *. subst c'. rewrite Hc2 in Hd'. injection Hd' as <-.
  exists s1, out1, s2, out2, ys. repeat split.
  - rewrite (normalize_loop config t1 ∅ Hm). exact Hrun1.
  - exact Hc1.
  - rewrite (normalize_loop config t2 s1 Hm). exact Hrun2.
  - exact Hc2.
  - exact Hys.
  - apply list_elem_of_lookup. now exists i.
  - intros calls. eapply lookup_weaken; [exact Hc2|].
    apply normalize_all_subseteq.
Qed.

End CacheReuse.

(** ** Min-max normalization of float columns *)


(** Two batches that share the column "load", normalized by min-max: the
    second is rescaled with the minimum 1 and the maximum 3 of the first. *)
Lemma cached_statistics_are_reused_witness :
  let t1 := [("load", [1; 2; 3]%float)] in
  let t2 := [("load", [10; 20]%float); ("errors", [0; 1]%float)] in
  exists s1 out1 s2 out2,
    minmax_normalize_floats t1 ∅ = (s1, Ok out1)
    /\ s1 !! "load" = Some (minmax_fit fmin fmax [1; 2; 3]%float)
    /\ minmax_normalize_floats t2 s1 = (s2, Ok out2)
    /\ s2 !! "load" = s1 !! "load"
    /\ ("load", [4.5; 9.5]%float) ∈ out2.
Proof.
  intros t1 t2.
  destruct (cached_statistics_are_reused fzero fsub fdiv fgt fmin fmax
              (fun _ => nan) (fun _ => nan) default_config t1 t2 "load"
              [1; 2; 3]%float [10; 20]%float)
    as (s1 & out1 & s2 & out2 & ys & Hrun1 & Hc1 & Hrun2 & Hc2 & Hys & Hin & _).
  - left. reflexivity.
  - apply NoDup_singleton.
  - apply NoDup_cons. split; [|apply NoDup_singleton].
    intros Hin. apply list_elem_of_singleton in Hin. discriminate.
  - apply list_elem_of_here.
  - apply list_elem_of_here.
  - exists s1, out1, s2, out2. unfold minmax_normalize_floats.
    repeat split; [exact Hrun1 | exact Hc1 | exact Hrun2 | congruence |].
    injection Hys as <-. exact Hin.
Defined.

(** ** Aggregates of a group *)

Lemma Qmin_cases (a b : Q) : Qmin a b = a \/ Qmin a b = b.
Proof.
  unfold Qmin, GenericMinMax.gmin. destruct (a ?= b)%Q; auto.
Qed.

Lemma Qmax_cases (a b : Q) : Qmax a b = a \/ Qmax a b = b.
Proof.
  unfold Qmax, GenericMinMax.gmax. destruct (a ?= b)%Q; auto.
Qed.

Lemma series_min_spec (xs : list Q) (mn : Q) :
  series_min xs = Some mn ->
  mn ∈ xs /\ forall x, x ∈ xs -> (mn <= x)%Q.
Proof.
  destruct xs as [|x0 xs]; [discriminate|]. simpl. intros [= <-].
  induction xs as [|x xs [IHin IHle]]; simpl.
  - split; [apply list_elem_of_here|].
    intros x Hx. apply list_elem_of_singleton in Hx as ->. apply Qle_refl.
  - split.
    + destruct (Qmin_cases x (foldr Qmin x0 xs)) as [-> | ->].
      * apply list_elem_of_further, list_elem_of_here.
      * apply elem_of_cons in IHin as [-> | Hin];
          [apply list_elem_of_here | now do 2 apply list_elem_of_further].
    + intros y Hy. apply elem_of_cons in Hy as [-> | Hy].
      * eapply Qle_trans; [apply Q.le_min_r|]. apply IHle, list_elem_of_here.
      * apply elem_of_cons in Hy as [-> | Hy]; [apply Q.le_min_l|].
        eapply Qle_trans; [apply Q.le_min_r|].
        apply IHle. now apply list_elem_of_further.
Qed.

Lemma series_max_spec (xs : list Q) (mx : Q) :
  series_max xs = Some mx ->
  mx ∈ xs /\ forall x, x ∈ xs -> (x <= mx)%Q.
Proof.
  destruct xs as [|x0 xs]; [discriminate|]. simpl. intros [= <-].
  induction xs as [|x xs [IHin IHle]]; simpl.
  - split; [apply list_elem_of_here|].
    intros x Hx. apply list_elem_of_singleton in Hx as ->. apply Qle_refl.
  - split.
    + destruct (Qmax_cases x (foldr Qmax x0 xs)) as [-> | ->].
      * apply list_elem_of_further, list_elem_of_here.
      * apply elem_of_cons in IHin as [-> | Hin];
          [apply list_elem_of_here | now do 2 apply list_elem_of_further].
    + intros y Hy. apply elem_of_cons in Hy as [-> | Hy].
      * eapply Qle_trans; [|apply Q.le_max_r]. apply IHle, list_elem_of_here.
      * apply elem_of_cons in Hy as [-> | Hy]; [apply Q.le_max_l|].
        eapply Qle_trans; [|apply Q.le_max_r].
        apply IHle. now apply list_elem_of_further.
Qed.

(** ** Windowing *)

(** *** Sorting by timestamp *)

Lemma insert_row_perm r l : insert_row r l ≡ₚ r :: l.
Proof.
  induction l as [|x l IH]; simpl; [reflexivity|].
  destruct (ts r <=? ts x); [reflexivity|].
  rewrite IH. apply Permutation_swap.
Qed.

Lemma sort_rows_perm l : sort_rows l ≡ₚ l.
Proof.
  induction l as [|r l IH]; simpl; [reflexivity|].
  rewrite insert_row_perm. now rewrite IH.
Qed.

Lemma sort_rows_elem_of r l : r ∈ sort_rows l <-> r ∈ l.
Proof. now rewrite sort_rows_perm. Qed.

Lemma insert_row_sorted r l : sorted l -> sorted (insert_row r l).
Proof.
  induction 1 as [|x l Hl IH Hx]; simpl.
  - repeat constructor.
  - destruct (ts r <=? ts x) eqn:E.
    + apply Z.leb_le in E. constructor; [now constructor|].
      constructor; [exact E|].
      eapply Forall_impl; [exact Hx|]. intros y Hy. unfold ts_le in *. lia.
    + apply Z.leb_gt in E. constructor; [exact IH|].
      rewrite insert_row_perm. constructor; [unfold ts_le; lia | exact Hx].
Qed.

Lemma sort_rows_sorted l : sorted (sort_rows l).
Proof.
  induction l as [|r l IH]; simpl; [constructor|].
  now apply insert_row_sorted.
Qed.

(** Sorting leaves a sorted table as it is. *)
Lemma sort_rows_id l : sorted l -> sort_rows l = l.
Proof.
  induction 1 as [|x l Hl IH Hx]; simpl; [reflexivity|].
  rewrite IH. destruct l as [|y l]; [reflexivity|]. simpl.
  apply Forall_cons in Hx as [Hy _]. unfold ts_le in Hy.
  now apply Z.leb_le in Hy as ->.
Qed.

Lemma sorted_filter (P : feature_row -> Prop) `{!forall r, Decision (P r)} l :
  sorted l -> sorted (filter P l).
Proof.
  induction 1 as [|x l Hl IH Hx]; [constructor|].
  rewrite filter_cons. destruct (decide (P x)); [|exact IH].
  constructor; [exact IH|].
  apply Forall_forall. intros y Hy. apply list_elem_of_filter in Hy as [_ Hy].
  rewrite Forall_forall in Hx. now apply Hx.
Qed.

Lemma sorted_take n l : sorted l -> sorted (take n l).
Proof.
  intros Hl. revert n. induction Hl as [|x l Hl IH Hx]; intros [|n]; simpl;
    try constructor.
  - apply IH.
  - apply Forall_forall. intros y Hy.
    rewrite Forall_forall in Hx. apply Hx.
    apply elem_of_take in Hy as (i & Hi & _).
    now apply list_elem_of_lookup_2 in Hi.
Qed.

Lemma last_nonempty_default {A} (l : list A) x d d' :
  List.last (x :: l) d = List.last (x :: l) d'.
Proof.
  revert x. induction l as [|y l IH]; intros x; [reflexivity|]. exact (IH y).
Qed.

(** In a sorted table every timestamp lies between the first and the last. *)
Lemma sorted_bounds r0 l r :
  sorted (r0 :: l) -> r ∈ r0 :: l ->
  ts r0 <= ts r <= ts (List.last (r0 :: l) r0).
Proof.
  revert r0 r. induction l as [|x l IH]; intros r0 r Hs Hin.
  - apply list_elem_of_singleton in Hin as ->. simpl. lia.
  - apply StronglySorted_inv in Hs as [Hs Hall].
    rewrite Forall_forall in Hall.
    change (List.last (r0 :: x :: l) r0) with (List.last (x :: l) r0).
    rewrite (last_nonempty_default l x r0 x).
    pose proof (IH x x Hs (list_elem_of_here _ _)) as Hx.
    apply elem_of_cons in Hin as [-> | Hin].
    + pose proof (Hall x (list_elem_of_here _ _)) as H0. unfold ts_le in H0. lia.
    + pose proof (IH x r Hs Hin) as Hr.
      pose proof (Hall x (list_elem_of_here _ _)) as H0. unfold ts_le in H0. lia.
Qed.

(** *** The grid of bins *)

Lemma bin_index_bounds origin w t :
  0 < w ->
  origin + w * bin_index origin w t <= t
    < origin + w * bin_index origin w t + w.
Proof.
  intros Hw. unfold bin_index.
  pose proof (Z.div_mod (t - origin) w ltac:(lia)) as Hdm.
  pose proof (Z.mod_pos_bound (t - origin) w Hw) as Hb. lia.
Qed.

Lemma bin_index_unique origin w t q :
  0 < w -> origin + w * q <= t < origin + w * q + w ->
  q = bin_index origin w t.
Proof.
  intros Hw Hq. unfold bin_index.
  apply (Z.div_unique_pos (t - origin) w q (t - origin - w * q)); lia.
Qed.

Lemma bin_index_mono origin w t t' :
  0 < w -> t <= t' -> bin_index origin w t <= bin_index origin w t'.
Proof. intros Hw Ht. unfold bin_index. apply Z.div_le_mono; lia. Qed.

(** The labels of a non-empty sorted table, by bin index. *)
Lemma bin_labels_cons w r0 l :
  0 < w -> sorted (r0 :: l) ->
  let origin := day_start (ts r0) in
  let a := bin_index origin w (ts r0) in
  let b := bin_index origin w (ts (List.last (r0 :: l) r0)) in
  a <= b
  /\ bin_labels w (r0 :: l)
     = (fun k => origin + w * (a + Z.of_nat k))
         <$> seq 0 (Z.to_nat (b - a + 1)).
Proof.
  intros Hw Hs origin a b.
  pose proof (sorted_bounds r0 l r0 Hs (list_elem_of_here _ _)) as [_ Hfl].
  assert (Hab : a <= b) by (now apply bin_index_mono).
  split; [exact Hab|].
  unfold bin_labels. fold (day_start (ts r0)). fold origin.
  set (first := ts r0) in *. set (last := ts (List.last (r0 :: l) r0)) in *.
  assert (Hf : first - (first - origin) mod w = origin + w * a).
  { unfold a, bin_index. clearbody first origin.
    pose proof (Z.div_mod (first - origin) w ltac:(lia)). lia. }
  assert (Hl : last + (w - (last - origin) mod w) = origin + w * b + w).
  { unfold b, bin_index. clearbody last origin.
    pose proof (Z.div_mod (last - origin) w ltac:(lia)). lia. }
  rewrite Hf, Hl.
  replace (origin + w * b + w - (origin + w * a)) with ((b - a + 1) * w) by lia.
  rewrite Z.div_mul by lia.
  apply list_fmap_ext. intros i k _. lia.
Qed.

Lemma elem_of_bin_labels w r0 l e :
  0 < w -> sorted (r0 :: l) ->
  let origin := day_start (ts r0) in
  e ∈ bin_labels w (r0 :: l)
  <-> exists q,
        bin_index origin w (ts r0) <= q
          <= bin_index origin w (ts (List.last (r0 :: l) r0))
        /\ e = origin + w * q.
Proof.
  intros Hw Hs origin.
  destruct (bin_labels_cons w r0 l Hw Hs) as [Hab ->]. fold origin in Hab |- *.
  set (a := bin_index origin w (ts r0)) in *.
  set (b := bin_index origin w (ts (List.last (r0 :: l) r0))) in *.
  rewrite list_elem_of_fmap. split.
  - intros (k & -> & Hk). apply elem_of_seq in Hk.
    exists (a + Z.of_nat k). split; [lia | reflexivity].
  - intros (q & Hq & ->). exists (Z.to_nat (q - a)). split.
    + replace (a + Z.of_nat (Z.to_nat (q - a))) with q by lia. reflexivity.
    + apply elem_of_seq. lia.
Qed.

(** Consecutive labels are one window apart. *)
Lemma bin_labels_step w sorted_rows i e1 e2 :
  0 < w -> sorted sorted_rows ->
  bin_labels w sorted_rows !! i = Some e1 ->
  bin_labels w sorted_rows !! S i = Some e2 ->
  e2 - e1 = w.
Proof.
  intros Hw Hs. destruct sorted_rows as [|r0 l]; [discriminate|].
  destruct (bin_labels_cons w r0 l Hw Hs) as [_ ->].
  rewrite !list_lookup_fmap.
  intros H1 H2.
  apply fmap_Some in H1 as (k1 & Hk1 & ->).
  apply fmap_Some in H2 as (k2 & Hk2 & ->).
  apply lookup_seq in Hk1 as [-> _]. apply lookup_seq in Hk2 as [-> _]. lia.
Qed.

Lemma bin_labels_NoDup w sorted_rows :
  0 < w -> sorted sorted_rows -> NoDup (bin_labels w sorted_rows).
Proof.
  intros Hw Hs. destruct sorted_rows as [|r0 l]; [constructor|].
  destruct (bin_labels_cons w r0 l Hw Hs) as [_ ->].
  apply NoDup_fmap_2; [|apply NoDup_seq].
  intros k1 k2 Hk. nia.
Qed.

(** When the window divides the day, the grid does not depend on the day it
    is anchored at: the labels are the multiples of the window. *)
Lemma day_start_aligned w t :
  0 < w -> seconds_per_day mod w = 0 -> exists c, day_start t = w * c.
Proof.
  intros Hw Hdiv. unfold day_start.
  pose proof (Z.div_mod t seconds_per_day ltac:(unfold seconds_per_day; lia)).
  pose proof (Z.div_mod seconds_per_day w ltac:(lia)) as Hd.
  rewrite Hdiv in Hd.
  exists (seconds_per_day / w * (t / seconds_per_day)). nia.
Qed.

Lemma bin_index_aligned w c t :
  0 < w -> bin_index (w * c) w t = t / w - c.
Proof.
  intros Hw. unfold bin_index.
  replace (t - w * c) with (t + (- c) * w) by lia.
  rewrite Z.div_add by lia. lia.
Qed.

Lemma elem_of_bin_labels_aligned w r0 l e :
  0 < w -> seconds_per_day mod w = 0 -> sorted (r0 :: l) ->
  e ∈ bin_labels w (r0 :: l)
  <-> exists m,
        ts r0 / w <= m <= ts (List.last (r0 :: l) r0) / w /\ e = w * m.
Proof.
  intros Hw Hdiv Hs. rewrite (elem_of_bin_labels w r0 l e Hw Hs).
  destruct (day_start_aligned w (ts r0) Hw Hdiv) as [c ->].
  rewrite !bin_index_aligned by exact Hw. split.
  - intros (q & Hq & ->). exists (c + q). split; lia.
  - intros (m & Hm & ->). exists (m - c). split; lia.
Qed.

(** *** Candidate windows *)

Lemma elem_of_resample w rows e win :
  (e, win) ∈ resample w rows
  <-> e ∈ bin_labels w (sort_rows rows)
      /\ win = filter (in_bin w e) (sort_rows rows).
Proof.
  unfold resample. rewrite list_elem_of_fmap. split.
  - intros (e' & [= -> ->] & He). auto.
  - intros [He ->]. exists e. auto.
Qed.

Lemma resample_labels w rows : (resample w rows).*1 = bin_labels w (sort_rows rows).
Proof.
  unfold resample. rewrite <- list_fmap_compose.
  rewrite <- (list_fmap_id (bin_labels _ _)) at 2.
  apply list_fmap_ext. reflexivity.
Qed.

(** Every row lies in the bin of exactly one label. *)
Lemma row_bin w rows r :
  0 < w -> r ∈ rows ->
  exists e, e ∈ bin_labels w (sort_rows rows) /\ in_bin w e r
            /\ forall e', e' ∈ bin_labels w (sort_rows rows) ->
                          in_bin w e' r -> e' = e.
Proof.
  intros Hw Hin. apply sort_rows_elem_of in Hin.
  pose proof (sort_rows_sorted rows) as Hs.
  destruct (sort_rows rows) as [|r0 l] eqn:E; [inversion Hin|].
  pose proof (sorted_bounds r0 l r Hs Hin) as [Hlo Hhi].
  set (origin := day_start (ts r0)).
  exists (origin + w * bin_index origin w (ts r)). split; [|split].
  - apply (elem_of_bin_labels w r0 l _ Hw Hs).
    exists (bin_index origin w (ts r)). split; [|reflexivity].
    split; apply bin_index_mono; assumption.
  - unfold in_bin. apply bin_index_bounds. exact Hw.
  - intros e' He' Hb.
    apply (elem_of_bin_labels w r0 l _ Hw Hs) in He' as (q & _ & ->).
    fold origin in Hb |- *. unfold in_bin in Hb.
    now rewrite (bin_index_unique origin w (ts r) q Hw Hb).
Qed.

(** The candidate windows are the bins of [resample] for the window size:
    their start times advance by the window size, every row is in exactly
    one of them, and a window holds the rows of its half-open interval. *)
Lemma candidate_windows_are_bins (rows : list feature_row) (w : Z) :
  0 < w ->
  let windows := resample w rows in
  (forall i e1 e2,
      windows.*1 !! i = Some e1 -> windows.*1 !! S i = Some e2 -> e2 - e1 = w)
  /\ (forall r, r ∈ rows ->
        exists e win, (e, win) ∈ windows /\ r ∈ win
          /\ forall e' win', (e', win') ∈ windows -> r ∈ win' -> e' = e)
  /\ (forall e win r, (e, win) ∈ windows ->
        (r ∈ win <-> r ∈ rows /\ e <= ts r < e + w)).
Proof.
  intros Hw windows. subst windows.
  split; [|split].
  - intros i e1 e2. rewrite resample_labels.
    apply bin_labels_step; [exact Hw | apply sort_rows_sorted].
  - intros r Hr. destruct (row_bin w rows r Hw Hr) as (e & He & Hb & Hu).
    exists e, (filter (in_bin w e) (sort_rows rows)).
    split; [now apply elem_of_resample|]. split.
    + apply list_elem_of_filter. split; [exact Hb | now apply sort_rows_elem_of].
    + intros e' win' Hw' Hin'. apply elem_of_resample in Hw' as [He' ->].
      apply list_elem_of_filter in Hin' as [Hb' _]. now apply Hu.
  - intros e win r Hwin. apply elem_of_resample in Hwin as [_ ->].
    rewrite list_elem_of_filter, sort_rows_elem_of. unfold in_bin. tauto.
Qed.

(** C2.  The configuration documents [window_stride] as the stride for
    sliding windows, validates it and returns it from
    [get_stride_timedelta], but [create_time_windows] never reads it.  With
    windows of one hour and a stride of 30 minutes, the candidate windows of
    rows at 00:00:00 and 01:10:00 start one hour apart, not one stride
    apart, so do the rows of the result, and the result is the one the same
    configuration without a stride gives. *)
Lemma candidate_windows_ignore_stride :
  let config :=
    with_window_stride (Some "30min") (with_window_size "1h" default_config) in
  let df := log_length_table [(0, 40); (4200, 52)] in
  alias_seconds (window_size config) = Ok 3600
  /\ get_stride_timedelta config = Ok 1800
  /\ (resample 3600 (table_rows df)).*1 = [0; 3600]
  /\ (exists out,
        create_time_windows alias_seconds config df = Ok out
        /\ out.*1 = [0; 3600])
  /\ create_time_windows alias_seconds config df
     = create_time_windows alias_seconds (with_window_stride None config) df
  /\ ~ (forall i e1 e2,
          (resample 3600 (table_rows df)).*1 !! i = Some e1 ->
          (resample 3600 (table_rows df)).*1 !! S i = Some e2 ->
          get_stride_timedelta config = Ok (e2 - e1)).
Proof.
  split; [reflexivity|]. split; [reflexivity|]. split; [reflexivity|].
  split; [|split].
  - eexists. split; reflexivity.
  - reflexivity.
  - intros Hclaim. specialize (Hclaim 0%nat 0 3600 eq_refl eq_refl).
    discriminate Hclaim.
Qed.

(** *** Windows that pass the count limits *)

Lemma validated_limits_ok config :
  _validate_window_params config = Ok tt -> limits_ok config.
Proof.
  unfold _validate_window_params, limits_ok.
  destruct (min_logs_per_window config <? 1) eqn:Emin; simpl; [discriminate|].
  apply Z.ltb_ge in Emin. intros Hrest. split; [exact Emin|].
  intros mx Hmx. rewrite Hmx in Hrest.
  destruct (mx <? min_logs_per_window config) eqn:Emax; simpl in Hrest;
    [discriminate|].
  now apply Z.ltb_ge in Emax.
Qed.

Lemma bin_labels_disjoint w sorted_rows e e' t :
  0 < w -> sorted sorted_rows ->
  e ∈ bin_labels w sorted_rows -> e' ∈ bin_labels w sorted_rows ->
  e <= t < e + w -> e' <= t < e' + w -> e = e'.
Proof.
  intros Hw Hs He He' Ht Ht'. destruct sorted_rows as [|r0 l]; [inversion He|].
  apply (elem_of_bin_labels w r0 l _ Hw Hs) in He as (q & _ & ->).
  apply (elem_of_bin_labels w r0 l _ Hw Hs) in He' as (q' & _ & ->).
  rewrite (bin_index_unique _ w t q Hw Ht).
  now rewrite (bin_index_unique _ w t q' Hw Ht').
Qed.

Lemma elem_of_concat {A} (x : A) (ls : list (list A)) :
  x ∈ concat ls <-> exists l, x ∈ l /\ l ∈ ls.
Proof.
  induction ls as [|l0 ls IH]; simpl.
  - split; [intros Hx; inversion Hx | intros (l & _ & Hl); inversion Hl].
  - rewrite elem_of_app, IH. split.
    + intros [Hx | (l & Hx & Hl)].
      * exists l0. split; [exact Hx | apply list_elem_of_here].
      * exists l. split; [exact Hx | now apply list_elem_of_further].
    + intros (l & Hx & Hl). apply elem_of_cons in Hl as [-> | Hl]; [now left|].
      right. now exists l.
Qed.

Lemma filter_all {A} (P : A -> Prop) `{!forall x, Decision (P x)} (l : list A) :
  (forall x, x ∈ l -> P x) -> filter P l = l.
Proof.
  induction l as [|x l IH]; intros Hall; [reflexivity|].
  rewrite filter_cons_True by (apply Hall, list_elem_of_here).
  f_equal. apply IH. intros y Hy. now apply Hall, list_elem_of_further.
Qed.

Lemma filter_none {A} (P : A -> Prop) `{!forall x, Decision (P x)} (l : list A) :
  (forall x, x ∈ l -> ~ P x) -> filter P l = [].
Proof.
  induction l as [|x l IH]; intros Hall; [reflexivity|].
  rewrite filter_cons_False by (apply Hall, list_elem_of_here).
  apply IH. intros y Hy. now apply Hall, list_elem_of_further.
Qed.

Lemma insert_row_front r l :
  Forall (fun x => ts r <= ts x) l -> insert_row r l = r :: l.
Proof.
  destruct l as [|x l]; [reflexivity|]. intros Hall.
  apply Forall_cons in Hall as [Hx _]. simpl.
  now apply Z.leb_le in Hx as ->.
Qed.

Lemma filter_insert_row (P : feature_row -> Prop)
    `{!forall r, Decision (P r)} r l :
  sorted l ->
  filter P (insert_row r l)
  = if decide (P r) then insert_row r (filter P l) else filter P l.
Proof.
  induction 1 as [|x l Hl IH Hx].
  - simpl. rewrite filter_cons, filter_nil. now destruct (decide (P r)).
  - simpl. destruct (ts r <=? ts x) eqn:E.
    + apply Z.leb_le in E. rewrite filter_cons.
      destruct (decide (P r)); [|reflexivity].
      symmetry. apply insert_row_front.
      apply Forall_forall. intros y Hy.
      apply list_elem_of_filter in Hy as [_ Hy].
      apply elem_of_cons in Hy as [-> | Hy]; [exact E|].
      rewrite Forall_forall in Hx. specialize (Hx y Hy).
      unfold ts_le in Hx. lia.
    + rewrite !filter_cons, IH.
      destruct (decide (P x)), (decide (P r)); try reflexivity.
      simpl. now rewrite E.
Qed.

(** Filtering commutes with the stable sort. *)
Lemma filter_sort_rows (P : feature_row -> Prop)
    `{!forall r, Decision (P r)} l :
  filter P (sort_rows l) = sort_rows (filter P l).
Proof.
  induction l as [|r l IH]; [reflexivity|].
  simpl. rewrite filter_insert_row by apply sort_rows_sorted.
  rewrite filter_cons, IH. now destruct (decide (P r)).
Qed.

Section ValidWindows.
Variable config : PreprocessingConfig.
Hypothesis Hlimits : limits_ok config.

Lemma keep_window_None window :
  keep_window config window = None
  <-> Z.of_nat (length window) < min_logs_per_window config.
Proof.
  unfold keep_window.
  destruct (min_logs_per_window config <=? Z.of_nat (length window)) eqn:E.
  - apply Z.leb_le in E. split; [|lia].
    destruct (max_logs_per_window config) as [n|]; [|discriminate].
    destruct (n =? 0); discriminate.
  - apply Z.leb_gt in E. tauto.
Qed.

(** A window that is kept has enough rows; what is kept of it is its first
    rows, at least one and at least the minimum, all of them when there is
    no maximum. *)
Lemma keep_window_Some window kept :
  keep_window config window = Some kept ->
  min_logs_per_window config <= Z.of_nat (length window)
  /\ kept <> []
  /\ exists n, kept = take n window
       /\ (min_logs_per_window config <= Z.of_nat n)
       /\ (max_logs_per_window config = None -> kept = window).
Proof.
  destruct Hlimits as [Hmin Hmax]. unfold keep_window.
  destruct (min_logs_per_window config <=? Z.of_nat (length window)) eqn:E;
    [|discriminate].
  apply Z.leb_le in E. intros Hk. split; [exact E|].
  assert (Hne : window <> []) by (intros ->; simpl in E; lia).
  destruct (max_logs_per_window config) as [n|] eqn:En.
  - specialize (Hmax n eq_refl).
    destruct (n =? 0) eqn:E0; [apply Z.eqb_eq in E0; lia|].
    injection Hk as <-. unfold head.
    destruct (0 <=? n) eqn:Epos; [|apply Z.leb_gt in Epos; lia].
    split.
    + destruct window; [congruence|].
      destruct (Z.to_nat n) eqn:Enat; [lia|]. discriminate.
    + exists (Z.to_nat n). repeat split; [lia | discriminate].
  - injection Hk as <-. split; [exact Hne|].
    exists (length window). repeat split; [|exact E].
    symmetry. apply firstn_all.
Qed.

Lemma keep_window_elem_of window kept r :
  keep_window config window = Some kept -> r ∈ kept -> r ∈ window.
Proof.
  intros Hk Hr. apply keep_window_Some in Hk as (_ & _ & n & -> & _).
  apply elem_of_take in Hr as (i & Hi & _).
  now apply list_elem_of_lookup_2 in Hi.
Qed.

Lemma keep_window_sorted window kept :
  sorted window -> keep_window config window = Some kept -> sorted kept.
Proof.
  intros Hs Hk. apply keep_window_Some in Hk as (_ & _ & n & -> & _).
  now apply sorted_take.
Qed.

Lemma elem_of_valid_windows w rows kept :
  kept ∈ valid_windows config w rows
  <-> exists e win, (e, win) ∈ resample w rows
                    /\ keep_window config win = Some kept.
Proof.
  unfold valid_windows. rewrite list_elem_of_omap. split.
  - intros ([e win] & Hin & Hk). now exists e, win.
  - intros (e & win & Hin & Hk). now exists (e, win).
Qed.

(** No window is kept exactly when every candidate window is too small. *)
Lemma valid_windows_nil w rows :
  valid_windows config w rows = []
  <-> forall e win, (e, win) ∈ resample w rows ->
        Z.of_nat (length win) < min_logs_per_window config.
Proof.
  split.
  - intros Hnil e win Hin. apply keep_window_None.
    destruct (keep_window config win) as [kept|] eqn:Hk; [|reflexivity].
    assert (Hkept : kept ∈ valid_windows config w rows)
      by (apply elem_of_valid_windows; now exists e, win).
    rewrite Hnil in Hkept. inversion Hkept.
  - intros Hall. destruct (valid_windows config w rows) as [|kept l] eqn:E;
      [reflexivity|].
    assert (Hkept : kept ∈ valid_windows config w rows)
      by (rewrite E; apply list_elem_of_here).
    apply elem_of_valid_windows in Hkept as (e & win & Hin & Hk).
    apply keep_window_Some in Hk as [Hlen _].
    specialize (Hall e win Hin). lia.
Qed.

(** The rows of [df_windows] are rows that some kept window retained. *)
Lemma elem_of_df_windows w rows r :
  r ∈ concat (valid_windows config w rows)
  <-> exists e win kept, (e, win) ∈ resample w rows
        /\ keep_window config win = Some kept /\ r ∈ kept.
Proof.
  rewrite elem_of_concat. split.
  - intros (kept & Hr & Hkept).
    apply elem_of_valid_windows in Hkept as (e & win & Hin & Hk).
    now exists e, win, kept.
  - intros (e & win & kept & Hin & Hk & Hr). exists kept. split; [exact Hr|].
    apply elem_of_valid_windows. now exists e, win.
Qed.

(** Within the kept windows of a set of labels, the rows of one label's bin
    are the rows kept of that label's window. *)
Lemma regroup_labels w S e kept (L : list Z) :
  0 < w -> sorted S ->
  NoDup L -> (forall e', e' ∈ L -> e' ∈ bin_labels w S) -> e ∈ L ->
  keep_window config (filter (in_bin w e) S) = Some kept ->
  filter (in_bin w e)
    (concat (omap (fun bin => keep_window config bin.2)
               ((fun e' => (e', filter (in_bin w e') S)) <$> L)))
  = kept.
Proof.
  intros Hw Hs Hnd Hsub He Hk.
  assert (Hother : forall e1 kept1,
            e1 ∈ bin_labels w S -> e ∈ bin_labels w S -> e1 <> e ->
            keep_window config (filter (in_bin w e1) S) = Some kept1 ->
            filter (in_bin w e) kept1 = []).
  { intros e1 kept1 He1 He' Hne Hk1. apply filter_none.
    intros r Hr Hb. apply Hne.
    apply (keep_window_elem_of _ _ _ Hk1) in Hr.
    apply list_elem_of_filter in Hr as [Hb1 _].
    exact (bin_labels_disjoint w S e1 e (ts r) Hw Hs He1 He' Hb1 Hb). }
  assert (Hrest : forall L' : list Z,
            (forall e', e' ∈ L' -> e' ∈ bin_labels w S) ->
            e ∈ bin_labels w S -> e ∉ L' ->
            filter (in_bin w e)
              (concat (omap (fun bin => keep_window config bin.2)
                         ((fun e' => (e', filter (in_bin w e') S)) <$> L')))
            = []).
  { intros L' Hsub' He' HnL. apply filter_none. intros r Hr Hb.
    apply elem_of_concat in Hr as (kept1 & Hr & Hkept1).
    apply list_elem_of_omap in Hkept1 as ([e1 win1] & Hin1 & Hk1).
    apply list_elem_of_fmap in Hin1 as (e1' & [= -> ->] & He1).
    cbn [snd] in Hk1.
    assert (Hne : e1' <> e) by (intros ->; contradiction).
    pose proof (Hother e1' kept1 (Hsub' _ He1) He' Hne Hk1) as Hnil.
    assert (Hrin : r ∈ filter (in_bin w e) kept1)
      by (apply list_elem_of_filter; auto).
    rewrite Hnil in Hrin. inversion Hrin. }
  induction L as [|e0 L IH]; [inversion He|].
  apply NoDup_cons in Hnd as [Hfresh Hnd].
  rewrite fmap_cons.
  change (omap ?f (?x :: ?l))
    with (match f x with Some y => y :: omap f l | None => omap f l end).
  cbn [snd].
  assert (Hsub' : forall e', e' ∈ L -> e' ∈ bin_labels w S)
    by (intros e' He'; now apply Hsub, list_elem_of_further).
  apply elem_of_cons in He as [-> | He].
  - rewrite Hk. rewrite concat_cons, filter_app.
    rewrite (Hrest L Hsub' (Hsub e0 (list_elem_of_here _ _)) Hfresh), app_nil_r.
    apply filter_all. intros r Hr.
    apply (keep_window_elem_of _ _ _ Hk) in Hr.
    now apply list_elem_of_filter in Hr as [Hb _].
  - assert (Hne : e0 <> e) by (intros ->; contradiction).
    specialize (IH Hnd Hsub' He).
    destruct (keep_window config (filter (in_bin w e0) S)) as [kept0|] eqn:Hk0;
      [|exact IH].
    rewrite concat_cons, filter_app.
    rewrite (Hother e0 kept0 (Hsub e0 (list_elem_of_here _ _))
               (Hsub' e He) Hne Hk0).
    exact IH.
Qed.

(** Regrouping [df_windows] by the same frequency gives back, for the bin
    of a kept window, the rows that were retained of it. *)
Lemma regroup_kept w rows e win kept :
  0 < w ->
  (e, win) ∈ resample w rows -> keep_window config win = Some kept ->
  filter (in_bin w e) (sort_rows (concat (valid_windows config w rows))) = kept.
Proof.
  intros Hw Hin Hk.
  pose proof (sort_rows_sorted rows) as Hs.
  apply elem_of_resample in Hin as [He ->].
  rewrite filter_sort_rows.
  assert (Hsorted : sorted kept).
  { eapply keep_window_sorted; [|exact Hk]. now apply sorted_filter. }
  transitivity (sort_rows kept); [f_equal | now apply sort_rows_id].
  unfold valid_windows, resample.
  apply regroup_labels; auto.
  apply bin_labels_NoDup; assumption.
Qed.

End ValidWindows.

Lemma bin_labels_nonempty w sorted_rows :
  0 < w -> sorted sorted_rows -> sorted_rows <> [] ->
  bin_labels w sorted_rows <> [].
Proof.
  intros Hw Hs Hne. destruct sorted_rows as [|r0 l]; [congruence|].
  destruct (bin_labels_cons w r0 l Hw Hs) as [Hab ->].
  destruct (Z.to_nat _) eqn:E; [lia|]. discriminate.
Qed.

Lemma sort_rows_nonempty l : l <> [] -> sort_rows l <> [].
Proof.
  intros Hne Hnil. apply Hne. apply Permutation_nil_r.
  rewrite <- Hnil. symmetry. apply sort_rows_perm.
Qed.

Section Regrouping.
Variable config : PreprocessingConfig.
Hypothesis Hlimits : limits_ok config.

Lemma df_windows_nonempty w rows kept :
  kept ∈ valid_windows config w rows ->
  concat (valid_windows config w rows) <> [].
Proof.
  intros Hkept Hnil.
  pose proof Hkept as Hk.
  apply elem_of_valid_windows in Hk as (e & win & _ & Hk).
  apply (keep_window_Some config Hlimits) in Hk as (_ & Hne & _).
  destruct kept as [|r kept]; [congruence|].
  assert (Hr : r ∈ concat (valid_windows config w rows)).
  { apply elem_of_concat. exists (r :: kept).
    split; [apply list_elem_of_here | exact Hkept]. }
  rewrite Hnil in Hr. inversion Hr.
Qed.

(** When the window divides the day, the bin of every kept window is a bin
    of the regrouped table. *)
Lemma kept_label_regrouped w rows e win kept :
  0 < w -> seconds_per_day mod w = 0 ->
  (e, win) ∈ resample w rows -> keep_window config win = Some kept ->
  e ∈ bin_labels w (sort_rows (concat (valid_windows config w rows))).
Proof.
  intros Hw Hdiv Hin Hk.
  pose proof (keep_window_Some config Hlimits win kept Hk) as (_ & Hne & _).
  destruct kept as [|r kept']; [congruence|]. clear Hne.
  set (kept := r :: kept') in *.
  assert (Hrk : r ∈ kept) by apply list_elem_of_here.
  assert (Hrdf : r ∈ concat (valid_windows config w rows)).
  { apply elem_of_df_windows. now exists e, win, kept. }
  pose proof (keep_window_elem_of config Hlimits win kept r Hk Hrk) as Hrw.
  apply elem_of_resample in Hin as [He ->].
  apply list_elem_of_filter in Hrw as [Hb _]. unfold in_bin in Hb.
  pose proof (sort_rows_sorted rows) as Hs.
  destruct (sort_rows rows) as [|r0 l] eqn:ES; [inversion He|].
  apply (elem_of_bin_labels_aligned w r0 l e Hw Hdiv Hs) in He as (m & _ & ->).
  assert (Hm : m = ts r / w).
  { apply (Z.div_unique_pos (ts r) w m (ts r - w * m)); lia. }
  pose proof (sort_rows_sorted (concat (valid_windows config w rows))) as Hs'.
  apply sort_rows_elem_of in Hrdf.
  destruct (sort_rows (concat (valid_windows config w rows))) as [|r0' l'] eqn:ES';
    [inversion Hrdf|].
  pose proof (sorted_bounds r0' l' r Hs' Hrdf) as [Hlo Hhi].
  apply (elem_of_bin_labels_aligned w r0' l' _ Hw Hdiv Hs').
  exists m. split; [|reflexivity]. subst m.
  split; apply Z.div_le_mono; lia.
Qed.

(** A kept window is a row group of the regrouped table, with exactly the
    rows retained of it. *)
Lemma kept_window_regrouped w rows e win kept :
  0 < w -> seconds_per_day mod w = 0 ->
  (e, win) ∈ resample w rows -> keep_window config win = Some kept ->
  (e, kept) ∈ resample w (concat (valid_windows config w rows)).
Proof.
  intros Hw Hdiv Hin Hk. apply elem_of_resample. split.
  - eapply kept_label_regrouped; eassumption.
  - symmetry. eapply (regroup_kept config Hlimits); eassumption.
Qed.

End Regrouping.

Section CreateTimeWindows.
Variable to_offset : string -> result Z.
Variable config : PreprocessingConfig.
Hypothesis Hlimits : limits_ok config.

(** The result of [create_time_windows], when some window is kept. *)
Lemma create_time_windows_Ok df w kept :
  to_offset (window_size config) = Ok w -> 0 < w ->
  numeric_cols df <> [] ->
  kept ∈ valid_windows config w (table_rows df) ->
  create_time_windows to_offset config df
  = Ok ((fun bin => (bin.1, aggregate (length (numeric_cols df)) bin.2))
          <$> resample w (concat (valid_windows config w (table_rows df)))).
Proof.
  intros Hoff Hw Hcols Hkept. unfold create_time_windows.
  rewrite Hoff. simpl.
  destruct (Z.eqb_spec w 0) as [E|_]; [lia|].
  destruct (Z.ltb_spec w 0) as [E|_]; [lia|].
  destruct (valid_windows config w (table_rows df)) as [|v vs];
    [inversion Hkept|].
  destruct (numeric_cols df); [congruence|]. reflexivity.
Qed.

(** C8.  For a configuration whose limits passed validation and a table
    with at least one feature column, [create_time_windows] raises exactly
    when no candidate window has [min_logs_per_window] rows; when it
    returns, the table it returns has at least one row. *)
Theorem create_time_windows_raises_iff (df : feature_table) (w : Z) :
  to_offset (window_size config) = Ok w -> 0 < w ->
  numeric_cols df <> [] ->
  (raises (create_time_windows to_offset config df)
   <-> forall e win, (e, win) ∈ resample w (table_rows df) ->
         Z.of_nat (length win) < min_logs_per_window config)
  /\ (forall out, create_time_windows to_offset config df = Ok out -> out <> []).
Proof.
  intros Hoff Hw Hcols.
  destruct (valid_windows config w (table_rows df)) as [|v vs] eqn:Ev.
  - assert (Hraise : create_time_windows to_offset config df = Raise ValueError).
    { unfold create_time_windows. rewrite Hoff. simpl.
      destruct (Z.eqb_spec w 0) as [E|_]; [lia|].
      destruct (w <? 0); [reflexivity|]. now rewrite Ev. }
    rewrite Hraise. split; [|discriminate].
    split; [|intros _; exact I].
    intros _. now apply (valid_windows_nil config Hlimits).
  - assert (Hv : v ∈ valid_windows config w (table_rows df))
      by (rewrite Ev; apply list_elem_of_here).
    rewrite (create_time_windows_Ok df w v Hoff Hw Hcols Hv). split.
    + split; [intros []|].
      intros Hall. apply (valid_windows_nil config Hlimits) in Hall.
      rewrite Hall in Ev. discriminate.
    + intros out [= <-]. intros Hnil.
      apply fmap_nil_inv in Hnil.
      unfold resample in Hnil. apply fmap_nil_inv in Hnil.
      revert Hnil. apply bin_labels_nonempty;
        [exact Hw | apply sort_rows_sorted |].
      apply sort_rows_nonempty.
      now apply (df_windows_nonempty config Hlimits w (table_rows df) v).
Qed.

End CreateTimeWindows.

(** Two rows ten minutes apart in windows of five minutes: with a minimum
    of one row the call returns, with a minimum of two it raises. *)
Lemma create_time_windows_raises_iff_witness :
  raises (create_time_windows alias_seconds
            {| timestamp_format := "%Y-%m-%d %H:%M:%S";
               apache_timestamp_format := "%a %b %d %H:%M:%S %Y";
               window_size := "5min"; basic_features := ["log_length"];
               pattern_features := false; custom_patterns := [];
               normalization_method := "minmax";
               min_logs_per_window := 2; max_logs_per_window := None;
               window_stride := None |}
            (log_length_table [(36000, 40); (36600, 52)])).
Proof.
  match goal with
  | |- raises (create_time_windows _ ?c ?d) =>
      refine (proj2 (proj1 (create_time_windows_raises_iff alias_seconds c _
                              d 300 eq_refl _ _)) _)
  end.
  - split; [simpl; lia | discriminate].
  - lia.
  - discriminate.
  - intros e win Hin.
    assert (Hres : resample 300
                     (table_rows (log_length_table [(36000, 40); (36600, 52)]))
                   = [(36000, [{| ts := 36000; values := [inject_Z 40] |}]);
                      (36300, []);
                      (36600, [{| ts := 36600; values := [inject_Z 52] |}])])
      by (vm_compute; reflexivity).
    rewrite Hres in Hin.
    repeat (apply elem_of_cons in Hin as [[= -> ->] | Hin]; [simpl; lia|]).
    inversion Hin.
Defined.

(** *** The aggregates of a kept window *)

Lemma Qsum_nonneg (l : list Q) :
  Forall (fun q => (0 <= q)%Q) l -> (0 <= Qsum l)%Q.
Proof.
  induction 1 as [|q l Hq _ IH]; [apply Qle_refl|].
  change (0 <= q + Qsum l)%Q. lra.
Qed.

Lemma Qsquare_nonneg (a : Q) : (0 <= a * a)%Q.
Proof. nra. Qed.

Lemma sum_sq_dev_nonneg (l : list Q) : (0 <= sum_sq_dev l)%Q.
Proof.
  unfold sum_sq_dev. apply Qsum_nonneg. apply Forall_fmap, Forall_forall.
  intros x _. apply Qsquare_nonneg.
Qed.

Lemma Qlen_pos (k : nat) : (0 < k)%nat -> (0 < inject_Z (Z.of_nat k))%Q.
Proof. intros Hk. unfold Qlt, inject_Z. simpl. lia. Qed.

(** The variance is a number once the group has more than [ddof] values,
    and is never negative. *)
Lemma series_var_Some (ddof : nat) (l : list Q) :
  (ddof < length l)%nat ->
  exists v, series_var ddof l = Some v
    /\ (v * inject_Z (Z.of_nat (length l - ddof)) == sum_sq_dev l)%Q
    /\ (0 <= v)%Q.
Proof.
  intros Hlen. unfold series_var.
  destruct (length l <=? ddof)%nat eqn:E; [apply Nat.leb_le in E; lia|].
  pose proof (Qlen_pos (length l - ddof) ltac:(lia)) as Hpos.
  eexists. split; [reflexivity|]. split.
  - field. lra.
  - apply Qle_shift_div_l; [exact Hpos|]. rewrite Qmult_0_l.
    apply sum_sq_dev_nonneg.
Qed.

Lemma series_std_nan (l : list Q) : (length l <= 1)%nat -> series_std l = None.
Proof.
  intros Hlen. unfold series_std, series_var.
  now apply Nat.leb_le in Hlen as ->.
Qed.

Lemma aggregate_lookup ncols rows j :
  (j < ncols)%nat ->
  aggregate ncols rows !! j = Some (aggregate_series (column_values j rows)).
Proof.
  intros Hj. unfold aggregate.
  now rewrite list_lookup_fmap, lookup_seq_lt.
Qed.

Section Aggregates.
Variable to_offset : string -> result Z.
Variable config : PreprocessingConfig.
Hypothesis Hlimits : limits_ok config.

(** Every kept window has its row in the result, and the row aggregates
    the rows retained of the window. *)
Lemma kept_window_row df w e win kept :
  to_offset (window_size config) = Ok w -> 0 < w ->
  seconds_per_day mod w = 0 ->
  numeric_cols df <> [] ->
  (e, win) ∈ resample w (table_rows df) ->
  keep_window config win = Some kept ->
  exists out,
    create_time_windows to_offset config df = Ok out
    /\ (e, aggregate (length (numeric_cols df)) kept) ∈ out.
Proof.
  intros Hoff Hw Hdiv Hcols Hin Hk.
  assert (Hkept : kept ∈ valid_windows config w (table_rows df))
    by (apply elem_of_valid_windows; now exists e, win).
  eexists. split.
  - exact (create_time_windows_Ok to_offset config df w kept Hoff Hw Hcols Hkept).
  - apply list_elem_of_fmap. exists (e, kept). split; [reflexivity|].
    eapply (kept_window_regrouped config Hlimits); eassumption.
Qed.

(** C3 (amended).  When the window divides the day, the row of a kept
    window holds, for each feature, the sample standard deviation of the
    retained values: the root of the sum of squared deviations from the mean
    over one less than their number.  It is NaN when one row is retained.
    Under the root, the sample variance times (n - 1) equals the population
    variance times n. *)
Theorem std_is_sample_std (df : feature_table) (w e : Z)
    (win kept : list feature_row) (j : nat) :
  to_offset (window_size config) = Ok w -> 0 < w ->
  seconds_per_day mod w = 0 ->
  (e, win) ∈ resample w (table_rows df) ->
  keep_window config win = Some kept ->
  (j < length (numeric_cols df))%nat ->
  let vs := column_values j kept in
  let n := length vs in
  exists out cells cell,
    create_time_windows to_offset config df = Ok out
    /\ (e, cells) ∈ out
    /\ cells !! j = Some cell
    /\ agg_std cell = series_std vs
    /\ (length kept = 1%nat -> agg_std cell = None)
    /\ ((2 <= n)%nat ->
        exists (s : R) (v v0 : Q),
          agg_std cell = Some s
          /\ series_var 1 vs = Some v
          /\ (v * inject_Z (Z.of_nat (n - 1)) == sum_sq_dev vs)%Q
          /\ s = sqrt (Q2R v) /\ (0 <= s)%R /\ (s * s = Q2R v)%R
          /\ population_std vs = Some (sqrt (Q2R v0))
          /\ (v * inject_Z (Z.of_nat (n - 1)) == v0 * inject_Z (Z.of_nat n))%Q).
Proof.
  intros Hoff Hw Hdiv Hin Hk Hj vs n.
  assert (Hcols : numeric_cols df <> []) by (destruct (numeric_cols df); [simpl in Hj; lia | discriminate]).
  destruct (kept_window_row df w e win kept Hoff Hw Hdiv Hcols Hin Hk)
    as (out & Hrun & Hrow).
  exists out, (aggregate (length (numeric_cols df)) kept),
    (aggregate_series vs).
  split; [exact Hrun|]. split; [exact Hrow|].
  split; [now apply aggregate_lookup|]. split; [reflexivity|]. split.
  - intros Hone. simpl. apply series_std_nan.
    pose proof (omap_length_le (fun r => values r !! j) kept) as Hle.
    fold (column_values j kept) in Hle. fold vs in Hle. lia.
  - intros Hn.
    destruct (series_var_Some 1 vs ltac:(fold n; lia)) as (v & Hv & Hv1 & Hpos).
    destruct (series_var_Some 0 vs ltac:(fold n; lia)) as (v0 & Hv0 & Hv00 & _).
    fold n in Hv1, Hv00. rewrite Nat.sub_0_r in Hv00.
    exists (sqrt (Q2R v)), v, v0. simpl.
    unfold series_std, population_std. rewrite Hv, Hv0. simpl.
    repeat split; try reflexivity.
    + exact Hv1.
    + apply sqrt_pos.
    + apply sqrt_sqrt. rewrite <- RMicromega.Q2R_0. now apply Qle_Rle.
    + now rewrite Hv1, Hv00.
Qed.

End Aggregates.

(** The five rows of the end-to-end test, one minute apart, in windows of
    two minutes: the window at 10:04 retains one row. *)
Lemma std_is_sample_std_witness :
  exists out cells cell,
    create_time_windows alias_seconds (with_window_size "2min" default_config)
      (log_length_table
         [(36000, 40); (36060, 52); (36120, 44); (36180, 47); (36240, 39)])
    = Ok out
    /\ (36240, cells) ∈ out
    /\ cells !! 0%nat = Some cell
    /\ agg_std cell = None.
Proof.
  destruct (std_is_sample_std alias_seconds
              (with_window_size "2min" default_config)
              ltac:(split; [simpl; lia | discriminate])
              (log_length_table
                 [(36000, 40); (36060, 52); (36120, 44); (36180, 47);
                  (36240, 39)])
              120 36240 [{| ts := 36240; values := [inject_Z 39] |}]
              [{| ts := 36240; values := [inject_Z 39] |}] 0)
    as (out & cells & cell & Hrun & Hrow & Hcell & _ & Hnan & _).
  - reflexivity.
  - lia.
  - reflexivity.
  - assert (Hres : resample 120
                     (table_rows
                        (log_length_table
                           [(36000, 40); (36060, 52); (36120, 44); (36180, 47);
                            (36240, 39)]))
                   = [(36000, [{| ts := 36000; values := [inject_Z 40] |};
                               {| ts := 36060; values := [inject_Z 52] |}]);
                      (36120, [{| ts := 36120; values := [inject_Z 44] |};
                               {| ts := 36180; values := [inject_Z 47] |}]);
                      (36240, [{| ts := 36240; values := [inject_Z 39] |}])])
      by (vm_compute; reflexivity).
    rewrite Hres. do 2 apply list_elem_of_further. apply list_elem_of_here.
  - reflexivity.
  - simpl. lia.
  - exists out, cells, cell. repeat split; try assumption. now apply Hnan.
Defined.

(** C3 as stated fails: the standard deviation of a window with a single
    retained row is NaN, while the population standard deviation of one
    value is a number. *)
Lemma single_row_window_std_is_nan :
  exists out cell retained,
    create_time_windows alias_seconds default_config
      (log_length_table [(36000, 40)]) = Ok out
    /\ out = [(36000, [cell])]
    /\ valid_windows default_config 300 (table_rows (log_length_table [(36000, 40)]))
       = [retained]
    /\ length retained = 1%nat
    /\ agg_std cell = None
    /\ agg_std cell <> population_std (column_values 0 retained)
    /\ agg_std cell <> Some 0%R.
Proof.
  eexists _, _, _. split; [vm_compute; reflexivity|].
  split; [reflexivity|]. split; [vm_compute; reflexivity|].
  split; [reflexivity|]. split; [reflexivity|]. split; discriminate.
Qed.

(** *** Windows dropped between kept windows *)

(** C7 at work on two rows ten minutes apart, windows of five minutes and a
    minimum of one row: the candidate window at 10:05 has no row and is not
    kept, yet the result has a row for it, NaN in every aggregate, between
    the rows of the two kept windows. *)
Lemma dropped_window_between_kept_windows_has_a_row :
  exists out,
    create_time_windows alias_seconds default_config
      (log_length_table [(36000, 40); (36600, 52)]) = Ok out
    /\ (36300, []) ∈ resample 300
         (table_rows (log_length_table [(36000, 40); (36600, 52)]))
    /\ keep_window default_config [] = None
    /\ out.*1 = [36000; 36300; 36600]
    /\ out !! 1%nat
       = Some (36300, [{| agg_mean := None; agg_std := None;
                          agg_min := None; agg_max := None |}]).
Proof.
  eexists. split; [vm_compute; reflexivity|].
  split; [|split; [reflexivity|split; reflexivity]].
  assert (Hres : resample 300
                   (table_rows (log_length_table [(36000, 40); (36600, 52)]))
                 = [(36000, [{| ts := 36000; values := [inject_Z 40] |}]);
                    (36300, []);
                    (36600, [{| ts := 36600; values := [inject_Z 52] |}])])
    by (vm_compute; reflexivity).
  rewrite Hres. apply list_elem_of_further, list_elem_of_here.
Qed.

(** When the window does not divide the day the regrouping can lay other
    bins than the candidate windows.  Windows of seven hours, a minimum of
    two rows: the row at 00:00 of the first day is alone in its window and
    is dropped; the rows at 05:00 and 08:00 of the second day share the
    candidate window that starts at 28 h and are kept, but the regrouping is
    anchored at midnight of the second day and puts them in two bins. *)
Example regrouping_shifts_bins_when_window_does_not_divide_day :
  let config := {| timestamp_format := "%Y-%m-%d %H:%M:%S";
                   apache_timestamp_format := "%a %b %d %H:%M:%S %Y";
                   window_size := "7h"; basic_features := ["log_length"];
                   pattern_features := false; custom_patterns := [];
                   normalization_method := "minmax";
                   min_logs_per_window := 2; max_logs_per_window := None;
                   window_stride := None |} in
  let df := log_length_table [(0, 40); (104400, 52); (115200, 44)] in
  valid_windows config 25200 (table_rows df)
  = [[{| ts := 104400; values := [inject_Z 52] |};
      {| ts := 115200; values := [inject_Z 44] |}]]
  /\ (resample 25200 (table_rows df)).*1 = [0; 25200; 50400; 75600; 100800]
  /\ exists out,
       create_time_windows alias_seconds config df = Ok out
       /\ out.*1 = [86400; 111600].
Proof.
  split; [vm_compute; reflexivity|]. split; [vm_compute; reflexivity|].
  eexists. split; vm_compute; reflexivity.
Qed.

(** * Further properties *)

(** ** Configuration *)

Lemma span_spec p s a b :
  span p s = (a, b) ->
  s = a +:+ b /\ str_forall p a = true
  /\ (forall c b', b = String c b' -> p c = false).
Proof.
  revert a b. induction s as [|c s IH]; intros a b; simpl.
  - intros [= <- <-]. repeat split. discriminate.
  - destruct (p c) eqn:Ec.
    + destruct (span p s) as [a' b'] eqn:Es. intros [= <- <-].
      destruct (IH a' b' eq_refl) as (-> & Ha & Hb).
      repeat split; [simpl; now rewrite Ec, Ha | exact Hb].
    + intros [= <- <-]. repeat split. intros c' b' [= <- <-]. exact Ec.
Qed.

Lemma digits_value_nonneg acc s :
  0 <= acc -> str_forall is_digit s = true -> 0 <= digits_value acc s.
Proof.
  revert acc. induction s as [|c s IH]; intros acc Hacc Hd; simpl in *; [lia|].
  apply andb_true_iff in Hd as [Hc Hd]. apply IH; [|exact Hd].
  assert (0 <= digit_value c); [|lia].
  revert Hc. clear. ascii_cases c.
Qed.

Lemma match_number_unit_Some s ds u :
  match_number_unit s = Some (ds, u) <->
  exists rest,
    s = ds +:+ u +:+ rest
    /\ ds <> "" /\ str_forall is_digit ds = true
    /\ u <> "" /\ str_forall is_alpha u = true
    /\ (forall c r, rest = String c r -> is_alpha c = false).
Proof.
  unfold match_number_unit. split.
  - destruct (span is_digit s) as [ds' r] eqn:Ed.
    destruct (span is_alpha r) as [u' rest] eqn:Eu.
    destruct (span_spec _ _ _ _ Ed) as (-> & Hd & _).
    destruct (span_spec _ _ _ _ Eu) as (-> & Ha & Hrest).
    destruct ds' as [|c ds']; [discriminate|].
    destruct u' as [|c' u']; [discriminate|].
    intros [= <- <-]. exists rest. repeat split; try assumption; discriminate.
  - intros (rest & -> & Hds & Hd & Hu & Ha & Hrest).
    rewrite (span_all is_digit ds (u +:+ rest) Hd).
    + rewrite (span_all is_alpha u rest Ha Hrest).
      destruct ds; [congruence|]. destruct u; [congruence|]. reflexivity.
    + destruct u as [|c' u']; [congruence|]. rewrite append_cons.
      intros c b' [= <- <-]. simpl in Ha.
      apply andb_true_iff in Ha as [Hc _]. now apply alpha_not_digit.
Qed.

(** X1.  [_parse_time_str] returns only on a string that starts with a run
    of digits followed by letters that spell a unit in any case, the letter
    run ending at the end of the string or before a character that is no
    letter; what it returns is the number times the unit, which is not
    negative.  What follows the letters plays no part in the result, and on
    every other string it raises ValueError. *)
Theorem parse_time_str_reads_number_and_unit (s : string) :
  (forall t, _parse_time_str s = Ok t ->
     exists ds u rest kw,
       s = ds +:+ u +:+ rest
       /\ ds <> "" /\ str_forall is_digit ds = true
       /\ u <> "" /\ str_forall is_alpha u = true
       /\ (forall c r, rest = String c r -> is_alpha c = false)
       /\ dict_get unit_map (str_lower u) = Some kw
       /\ t = digits_value 0 ds * kw_seconds kw
       /\ 0 <= t)
  /\ (forall ds u rest,
        s = ds +:+ u +:+ rest ->
        ds <> "" -> str_forall is_digit ds = true ->
        u <> "" -> str_forall is_alpha u = true ->
        (forall c r, rest = String c r -> is_alpha c = false) ->
        _parse_time_str s = _parse_time_str (ds +:+ u))
  /\ ((forall ds u rest,
         s = ds +:+ u +:+ rest ->
         ds <> "" -> str_forall is_digit ds = true ->
         u <> "" -> str_forall is_alpha u = true ->
         (forall c r, rest = String c r -> is_alpha c = false) ->
         dict_get unit_map (str_lower u) = None) ->
        _parse_time_str s = Raise ValueError).
Proof.
  unfold _parse_time_str. split; [|split].
  - intros t.
    destruct (match_number_unit s) as [[ds u]|] eqn:Em; [|discriminate].
    apply match_number_unit_Some in Em
      as (rest & -> & Hds & Hd & Hu & Ha & Hrest).
    destruct (dict_get unit_map (str_lower u)) as [kw|] eqn:Ek; [|discriminate].
    unfold Timedelta.
    destruct (_ <=? _); [|discriminate]. intros [= <-].
    exists ds, u, rest, kw. repeat split; try assumption.
    pose proof (digits_value_nonneg 0 ds ltac:(lia) Hd) as Hv.
    assert (0 < kw_seconds kw) by (destruct kw; simpl; lia). nia.
  - intros ds u rest -> Hds Hd Hu Ha Hrest.
    assert (Hm : match_number_unit (ds +:+ u +:+ rest) = Some (ds, u)).
    { apply match_number_unit_Some. exists rest. repeat split; assumption. }
    assert (Hm' : match_number_unit (ds +:+ u) = Some (ds, u)).
    { apply match_number_unit_Some. exists "".
      rewrite append_empty_r. repeat split; try assumption. discriminate. }
    now rewrite Hm, Hm'.
  - intros Hnone.
    destruct (match_number_unit s) as [[ds u]|] eqn:Em; [|reflexivity].
    apply match_number_unit_Some in Em
      as (rest & -> & Hds & Hd & Hu & Ha & Hrest).
    now rewrite (Hnone ds u rest eq_refl Hds Hd Hu Ha Hrest).
Qed.

Lemma to_lower_digit c : is_digit (to_lower c) = is_digit c.
Proof. ascii_cases c. Qed.

Lemma to_lower_alpha c : is_alpha (to_lower c) = is_alpha c.
Proof. ascii_cases c. Qed.

Lemma to_lower_idem c : to_lower (to_lower c) = to_lower c.
Proof. ascii_cases c. Qed.

Lemma digit_to_lower c : is_digit c = true -> to_lower c = c.
Proof. ascii_cases c. Qed.

Lemma str_lower_idem s : str_lower (str_lower s) = str_lower s.
Proof. induction s as [|c s IH]; simpl; [reflexivity|]. now rewrite to_lower_idem, IH. Qed.

Lemma str_lower_digits s : str_forall is_digit s = true -> str_lower s = s.
Proof.
  induction s as [|c s IH]; simpl; [reflexivity|]. intros Hd.
  apply andb_true_iff in Hd as [Hc Hd]. now rewrite (digit_to_lower c Hc), IH.
Qed.

Lemma span_str_lower p s :
  (forall c, p (to_lower c) = p c) ->
  span p (str_lower s) = (str_lower (span p s).1, str_lower (span p s).2).
Proof.
  intros Hp. induction s as [|c s IH]; simpl; [reflexivity|].
  rewrite Hp. destruct (p c); [|reflexivity].
  rewrite IH. now destruct (span p s).
Qed.

(** X2.  Duration strings are read without regard to letter case: a string
    and its lower-case form parse alike. *)
Theorem parse_time_str_ignores_case (s : string) :
  _parse_time_str (str_lower s) = _parse_time_str s.
Proof.
  unfold _parse_time_str, match_number_unit.
  rewrite (span_str_lower is_digit s to_lower_digit).
  destruct (span is_digit s) as [ds r] eqn:Ed. cbn [fst snd].
  rewrite (span_str_lower is_alpha r to_lower_alpha).
  destruct (span is_alpha r) as [u rest] eqn:Eu. cbn [fst snd].
  destruct (span_spec _ _ _ _ Ed) as (_ & Hd & _).
  rewrite (str_lower_digits ds Hd).
  destruct ds as [|c ds]; [reflexivity|].
  destruct u as [|c' u]; [reflexivity|].
  change (str_lower (String c' u)) with (String (to_lower c') (str_lower u)).
  change (String (to_lower c') (str_lower u)) with (str_lower (String c' u)).
  destruct (str_lower (String c' u)) eqn:El; [discriminate|].
  rewrite <- El, str_lower_idem. reflexivity.
Qed.

Lemma parse_time_str_nonneg s t :
  _parse_time_str s = Ok t -> 0 <= t.
Proof.
  unfold _parse_time_str.
  destruct (match_number_unit s) as [[ds u]|] eqn:Em; [|discriminate].
  apply match_number_unit_Some in Em as (rest & _ & _ & Hd & _).
  destruct (dict_get unit_map (str_lower u)) as [kw|]; [|discriminate].
  unfold Timedelta. destruct (_ <=? _); [|discriminate].
  intros [= <-].
  pose proof (digits_value_nonneg 0 ds ltac:(lia) Hd) as Hv.
  assert (0 < kw_seconds kw) by (destruct kw; simpl; lia).
  nia.
Qed.

Lemma validate_window_size_Ok cfg :
  _validate_window_size cfg = Ok tt
  <-> returns (_parse_time_str (window_size cfg)).
Proof.
  unfold _validate_window_size, try_except.
  destruct (_parse_time_str (window_size cfg)) as [t|e]; simpl; [tauto|].
  destruct (is_ValueError e); split; try discriminate; tauto.
Qed.

Lemma validate_each_pattern_Ok re_compiles ps :
  validate_each_pattern re_compiles ps = Ok tt
  <-> Forall (fun p => re_compiles p.2 = true) ps.
Proof.
  induction ps as [|[name pattern] ps IH]; simpl.
  - split; [constructor | reflexivity].
  - destruct (re_compiles pattern) eqn:E.
    + rewrite IH. split; [now constructor | now intros [_ ?]%Forall_cons].
    + split; [discriminate|]. intros [Hp _]%Forall_cons. simpl in Hp. congruence.
Qed.

Lemma validate_window_params_Ok cfg :
  _validate_window_params cfg = Ok tt
  <-> 1 <= min_logs_per_window cfg
      /\ (forall mx, max_logs_per_window cfg = Some mx ->
             min_logs_per_window cfg <= mx)
      /\ (forall stride, window_stride cfg = Some stride ->
             returns (_parse_time_str stride)).
Proof.
  unfold _validate_window_params.
  destruct (min_logs_per_window cfg <? 1) eqn:Emin; simpl.
  { apply Z.ltb_lt in Emin. split; [discriminate | lia]. }
  apply Z.ltb_ge in Emin.
  destruct (max_logs_per_window cfg) as [mx|] eqn:Emax; simpl.
  - destruct (mx <? min_logs_per_window cfg) eqn:El; simpl.
    { apply Z.ltb_lt in El. split; [discriminate|].
      intros (_ & Hmx & _). specialize (Hmx mx eq_refl). lia. }
    apply Z.ltb_ge in El.
    destruct (window_stride cfg) as [stride|]; simpl.
    + unfold try_except.
      destruct (_parse_time_str stride) as [t|e] eqn:Ep; simpl.
      * split; [|reflexivity]. intros _. repeat split; [exact Emin | |].
        -- now intros ? [= <-].
        -- intros ? [= <-]. now rewrite Ep.
      * split; [destruct (is_ValueError e); discriminate|].
        intros (_ & _ & Hs). specialize (Hs stride eq_refl).
        rewrite Ep in Hs. destruct Hs.
    + split; [|reflexivity]. intros _. repeat split; [exact Emin | |].
      * now intros ? [= <-].
      * discriminate.
  - destruct (window_stride cfg) as [stride|]; simpl.
    + unfold try_except.
      destruct (_parse_time_str stride) as [t|e] eqn:Ep; simpl.
      * split; [|reflexivity]. intros _. repeat split; [exact Emin | |].
        -- discriminate.
        -- intros ? [= <-]. now rewrite Ep.
      * split; [destruct (is_ValueError e); discriminate|].
        intros (_ & _ & Hs). specialize (Hs stride eq_refl).
        rewrite Ep in Hs. destruct Hs.
    + split; [|reflexivity]. intros _. repeat split; [exact Emin | |];
        discriminate.
Qed.

Lemma post_init_Ok re_compiles cfg :
  __post_init__ re_compiles cfg = Ok tt
  <-> returns (_parse_time_str (window_size cfg))
      /\ normalization_method cfg ∈ ["minmax"; "zscore"]
      /\ Forall (fun p => re_compiles p.2 = true) (custom_patterns cfg)
      /\ Forall (fun f => f ∈ valid_features) (basic_features cfg)
      /\ 1 <= min_logs_per_window cfg
      /\ (forall mx, max_logs_per_window cfg = Some mx ->
             min_logs_per_window cfg <= mx)
      /\ (forall stride, window_stride cfg = Some stride ->
             returns (_parse_time_str stride)).
Proof.
  rewrite <- validate_window_size_Ok,
    <- (validate_each_pattern_Ok re_compiles (custom_patterns cfg)).
  assert (Hparams := validate_window_params_Ok cfg).
  unfold __post_init__, _validate_normalization_method, _validate_features,
    _validate_patterns.
  destruct (_validate_window_size cfg) as [[]|e1]; simpl;
    [|split; [discriminate | now intros [[=] _]]].
  destruct (bool_decide (normalization_method cfg ∈ ["minmax"; "zscore"]))
    eqn:Em; simpl.
  2:{ apply bool_decide_eq_false in Em. split; [discriminate | tauto]. }
  apply bool_decide_eq_true in Em.
  destruct (validate_each_pattern re_compiles (custom_patterns cfg))
    as [[]|e3]; simpl; [|split; [discriminate | now intros (_ & _ & [=] & _)]].
  destruct (bool_decide (Forall (fun f => f ∈ valid_features)
                           (basic_features cfg))) eqn:Ef; simpl.
  2:{ apply bool_decide_eq_false in Ef. split; [discriminate | tauto]. }
  apply bool_decide_eq_true in Ef.
  rewrite Hparams. tauto.
Qed.

(** X3.  Constructing a configuration returns exactly when
    [_parse_time_str] returns on the window size, the normalization method
    is minmax or zscore, every custom pattern compiles, every basic feature
    is one of the six known names, the minimum is at least 1, a given
    maximum is at least the minimum and [_parse_time_str] returns on a
    given stride.  What it returns is the record of the fields as given. *)
Theorem construction_returns_iff (re_compiles : string -> bool)
    (fields : PreprocessingConfig) :
  (returns (new_PreprocessingConfig re_compiles fields)
   <-> returns (_parse_time_str (window_size fields))
       /\ normalization_method fields ∈ ["minmax"; "zscore"]
       /\ Forall (fun p => re_compiles p.2 = true) (custom_patterns fields)
       /\ Forall (fun f => f ∈ valid_features) (basic_features fields)
       /\ 1 <= min_logs_per_window fields
       /\ (forall mx, max_logs_per_window fields = Some mx ->
              min_logs_per_window fields <= mx)
       /\ (forall stride, window_stride fields = Some stride ->
              returns (_parse_time_str stride)))
  /\ (forall config, new_PreprocessingConfig re_compiles fields = Ok config ->
        config = fields).
Proof.
  rewrite <- post_init_Ok. unfold new_PreprocessingConfig.
  destruct (__post_init__ re_compiles fields) as [[]|e]; simpl.
  - split; [tauto|]. now intros config [= <-].
  - split; [split; [tauto | discriminate] | discriminate].
Qed.

(** X4.  On a configuration that was constructed, both duration accessors
    return a duration that is not negative, the stride being the window
    when no stride is set. *)
Theorem constructed_config_has_durations (re_compiles : string -> bool)
    (fields config : PreprocessingConfig) :
  new_PreprocessingConfig re_compiles fields = Ok config ->
  exists window stride,
    get_window_timedelta config = Ok window
    /\ get_stride_timedelta config = Ok stride
    /\ 0 <= window /\ 0 <= stride
    /\ (window_stride config = None -> stride = window).
Proof.
  unfold new_PreprocessingConfig.
  destruct (__post_init__ re_compiles fields) as [[]|e] eqn:Ep; simpl;
    [|discriminate].
  intros [= <-]. apply post_init_Ok in Ep as (Hw & _ & _ & _ & _ & _ & Hs).
  unfold get_stride_timedelta, get_window_timedelta.
  destruct (_parse_time_str (window_size fields)) as [w|] eqn:Ew; [|destruct Hw].
  pose proof (parse_time_str_nonneg _ _ Ew) as Hwr.
  destruct (window_stride fields) as [stride|] eqn:Es.
  - specialize (Hs stride eq_refl).
    destruct (_parse_time_str stride) as [st|] eqn:Est; [|destruct Hs].
    pose proof (parse_time_str_nonneg _ _ Est).
    exists w, st. repeat split; try lia. discriminate.
  - exists w, w. repeat split; lia.
Qed.

(** The default fields, whose five patterns compile: a window and a stride
    of five minutes. *)
Lemma constructed_config_has_durations_witness :
  exists window stride,
    get_window_timedelta default_config = Ok window
    /\ get_stride_timedelta default_config = Ok stride
    /\ 0 <= window /\ 0 <= stride
    /\ (window_stride default_config = None -> stride = window).
Proof.
  exact (constructed_config_has_durations (fun _ => true) default_config
           default_config eq_refl).
Defined.

(** ** Configuration dicts *)

(** X22.  [from_dict] undoes [to_dict]: building a configuration from the
    dict of given fields is calling the constructor with these fields, so
    the dict of a configuration that was constructed gives the
    configuration back.  The dict has the ten fields as keys, each once.
    An empty dict gives the defaults, and a dict with a key that is no field
    is a TypeError. *)
Theorem from_dict_undoes_to_dict (re_compiles : string -> bool)
    (fields : PreprocessingConfig) :
  from_dict re_compiles (to_dict fields)
  = Some (new_PreprocessingConfig re_compiles fields)
  /\ (forall config,
        new_PreprocessingConfig re_compiles fields = Ok config ->
        from_dict re_compiles (to_dict config) = Some (Ok config))
  /\ (to_dict fields).*1 = field_names
  /\ from_dict re_compiles []
     = Some (new_PreprocessingConfig re_compiles default_config)
  /\ (forall config_dict name v,
        (name, v) ∈ config_dict -> name ∉ field_names ->
        from_dict re_compiles config_dict = Some (Raise TypeError)).
Proof.
  assert (Hround : forall f, from_dict re_compiles (to_dict f)
                             = Some (new_PreprocessingConfig re_compiles f)).
  { intros [tf atf ws bf pf cp nm mn [mx|] [st|]]; reflexivity. }
  split; [apply Hround|]. split; [|split; [reflexivity|split; [reflexivity|]]].
  - intros config Hnew.
    assert (config = fields) as ->.
    { unfold new_PreprocessingConfig in Hnew.
      destruct (__post_init__ re_compiles fields); simpl in Hnew;
        [injection Hnew as <-; reflexivity | discriminate]. }
    now rewrite Hround, Hnew.
  - intros config_dict name v Hin Hname. unfold from_dict.
    rewrite bool_decide_eq_false_2; [reflexivity|].
    intros Hall. apply Hname. rewrite Forall_forall in Hall. apply Hall.
    apply list_elem_of_fmap. now exists (name, v).
Qed.

(** ** Parsing: the store, the exceptions and the records *)

Section ParseLogsEffects.
Variable re_search : string -> string -> option re_match.
Variable strptime : string -> string -> result datetime.
Variable to_datetime : column -> string -> result column.
Variable config : PreprocessingConfig.

Local Abbreviation parse_logs :=
  (parse_logs re_search strptime to_datetime config).

Lemma has_column_get name (df : DataFrame) :
  has_column name df = true -> exists col, get_column name df = Some col.
Proof.
  unfold has_column, get_column. intros Hin%bool_decide_eq_true.
  induction df as [|[n c] df IH]; [inversion Hin|]. simpl.
  destruct (String.eqb_spec n name) as [->|Hne]; [eauto|].
  apply IH. simpl in Hin. apply elem_of_cons in Hin as [->|Hin]; [congruence|].
  exact Hin.
Qed.

(** What the DataFrame branch does, case by case. *)
Lemma parse_frame_cases (logs : ref) (log_type : string) (h : store) :
  let out := parse_frame to_datetime config logs log_type h in
  (h !! logs = None /\ out = (h, Raise OtherException))
  \/ (exists df, h !! logs = Some df
        /\ (has_column "timestamp" df = false \/ has_column "message" df = false)
        /\ out = (h, Raise ValueError))
  \/ (exists df col e, h !! logs = Some df
        /\ has_column "timestamp" df = true /\ has_column "message" df = true
        /\ get_column "timestamp" df = Some col
        /\ is_datetime64_any_dtype col = false
        /\ to_datetime col (frame_format config log_type) = Raise e
        /\ out = (h, Raise e))
  \/ (exists df col col', h !! logs = Some df
        /\ has_column "timestamp" df = true /\ has_column "message" df = true
        /\ get_column "timestamp" df = Some col
        /\ is_datetime64_any_dtype col = false
        /\ to_datetime col (frame_format config log_type) = Ok col'
        /\ let df' := set_column "timestamp" col' df in
           let h' := <[logs := df']> h in
           out = (<[fresh (dom h') := df']> h', Ok (fresh (dom h'))))
  \/ (exists df col, h !! logs = Some df
        /\ has_column "timestamp" df = true /\ has_column "message" df = true
        /\ get_column "timestamp" df = Some col
        /\ is_datetime64_any_dtype col = true
        /\ out = (<[fresh (dom h) := df]> h, Ok (fresh (dom h)))).
Proof.
  intros out. subst out. unfold parse_frame, frame_format, alloc.
  destruct (h !! logs) as [df|] eqn:Hdf; [|left; split; reflexivity].
  right.
  destruct (has_column "timestamp" df) eqn:Ht; simpl.
  2:{ left. exists df. split; [reflexivity|]. split; [now left | reflexivity]. }
  destruct (has_column "message" df) eqn:Hm; simpl.
  2:{ left. exists df. split; [reflexivity|]. split; [now right | reflexivity]. }
  right.
  destruct (has_column_get _ _ Ht) as [col Hcol]. rewrite Hcol.
  destruct (is_datetime64_any_dtype col) eqn:Hdt; simpl.
  { right. right. exists df, col. repeat split; assumption || reflexivity. }
  destruct (to_datetime col _) as [col'|e] eqn:Hconv.
  - right. left. exists df, col, col'. repeat split; assumption || reflexivity.
  - left. exists df, col, e. repeat split; assumption || reflexivity.
Qed.

(** X5.  Whatever it is given, [parse_logs] removes no object, changes no
    object other than the DataFrame it was passed, and changes nothing at all
    when it raises.  What it returns is a new object; for a DataFrame
    argument the new object holds the argument's table as the call left it,
    with the labels and every column but 'timestamp' as they were, and the
    argument itself is left as it was when its timestamps were datetimes
    already. *)
Theorem parse_logs_store_effects (logs : logs_arg) (log_type : string)
    (h : store) :
  let out := parse_logs logs log_type h in
  dom h ⊆ dom out.1
  /\ (forall o, logs <> LogFrame o -> out.1 !! o = h !! o \/ h !! o = None)
  /\ (raises out.2 -> out.1 = h)
  /\ (forall r, out.2 = Ok r -> h !! r = None /\ is_Some (out.1 !! r))
  /\ (forall l r (df : DataFrame), logs = LogFrame l -> out.2 = Ok r -> h !! l = Some df ->
        exists df' : DataFrame, out.1 !! l = Some df' /\ out.1 !! r = Some df'
          /\ df'.*1 = df.*1
          /\ (forall name, name <> "timestamp" ->
                get_column name df' = get_column name df)
          /\ (forall col, get_column "timestamp" df = Some col ->
                is_datetime64_any_dtype col = true -> df' = df)).
Proof.
  intros out. subst out. destruct logs as [lines|l|]; simpl.
  - unfold alloc. simpl.
    set (df := DataFrame_of_records _). set (r := fresh (dom h)).
    assert (Hr : h !! r = None) by (apply not_elem_of_dom, is_fresh).
    split; [rewrite dom_insert; set_solver|].
    split. { intros o _. destruct (decide (o = r)) as [->|Hne];
               [now right | left; now apply lookup_insert_ne]. }
    split; [tauto|]. split; [|intros ? ? ? [=]].
    intros r' [= <-]. split; [exact Hr|]. rewrite lookup_insert_eq. eauto.
  - destruct (parse_frame_cases l log_type h)
      as [[Hn ->] | [(df & Hdf & _ & ->) | [(df & col & e & Hdf & _ & _ & _ & _ & _ & ->)
         | [(df & col & col' & Hdf & Ht & _ & Hcol & Hdt & _ & ->)
           | (df & col & Hdf & _ & _ & Hcol & Hdt & ->)]]]]; simpl.
    + repeat split; try discriminate; try reflexivity. now left.
    + repeat split; try discriminate; try reflexivity. now left.
    + repeat split; try discriminate; try reflexivity. now left.
    + set (df' := set_column "timestamp" col' df).
      set (h' := <[l := df']> h). set (r := fresh (dom h')).
      assert (Hr' : h' !! r = None) by (apply not_elem_of_dom, is_fresh).
      assert (Hrl : r <> l).
      { intros Heq. rewrite Heq in Hr'. unfold h' in Hr'.
        rewrite lookup_insert_eq in Hr'. discriminate. }
      assert (Hr : h !! r = None).
      { unfold h' in Hr'. rewrite lookup_insert_ne in Hr'; [exact Hr'|].
        intros Heq. apply Hrl. symmetry. exact Heq. }
      split; [unfold h'; rewrite !dom_insert; set_solver|].
      split.
      { intros o Ho. destruct (decide (o = r)) as [->|Hne]; [now right|].
        left. rewrite lookup_insert_ne by (intros Heq; apply Hne; symmetry; exact Heq).
        unfold h'. apply lookup_insert_ne. intros ->. now apply Ho. }
      split; [tauto|]. split.
      { intros r' [= <-]. split; [exact Hr|]. rewrite lookup_insert_eq. eauto. }
      intros l' r' df0 [= <-] [= <-] Hdf0.
      pose proof (eq_trans (eq_sym Hdf0) Hdf) as [= ->]. exists df'.
      split.
      { rewrite lookup_insert_ne by exact Hrl. unfold h'. apply lookup_insert_eq. }
      split; [apply lookup_insert_eq|].
      split.
      { apply set_column_labels. unfold has_column in Ht.
        now apply bool_decide_eq_true in Ht. }
      split; [intros name Hne; now apply get_set_column_other|].
      intros col0 Hcol0 Hdt0. congruence.
    + set (r := fresh (dom h)).
      assert (Hr : h !! r = None) by (apply not_elem_of_dom, is_fresh).
      assert (Hrl : r <> l) by (intros Heq; rewrite Heq in Hr; congruence).
      split; [rewrite dom_insert; set_solver|].
      split.
      { intros o _. destruct (decide (o = r)) as [->|Hne]; [now right|].
        left. apply lookup_insert_ne. intros Heq. apply Hne. symmetry. exact Heq. }
      split; [tauto|]. split.
      { intros r' [= <-]. split; [exact Hr|]. rewrite lookup_insert_eq. eauto. }
      intros l' r' df0 [= <-] [= <-] Hdf0.
      pose proof (eq_trans (eq_sym Hdf0) Hdf) as [= ->]. exists df.
      split; [rewrite lookup_insert_ne by exact Hrl; exact Hdf|].
      split; [apply lookup_insert_eq|]. repeat split; reflexivity.
  - repeat split; try discriminate; try reflexivity; try tauto.
Qed.


End ParseLogsEffects.


(** *** What stripping leaves *)

Lemma rstrip_cons_nonspace c s :
  is_space c = false -> exists r, rstrip (String c s) = String c r.
Proof.
  intros Hc. simpl. rewrite Hc. destruct (rstrip s); eauto.
Qed.

Lemma rstrip_idem s : rstrip (rstrip s) = rstrip s.
Proof.
  induction s as [|c s IH]; [reflexivity|]. simpl.
  destruct (rstrip s) as [|c' r] eqn:Er.
  - destruct (is_space c) eqn:Ec; [reflexivity|]. simpl. now rewrite Ec.
  - change (rstrip (String c (String c' r))) with
      (match rstrip (String c' r) with
       | EmptyString => if is_space c then EmptyString else String c EmptyString
       | r' => String c r'
       end).
    now rewrite IH.
Qed.

Lemma lstrip_head s :
  lstrip s = "" \/ exists c r, lstrip s = String c r /\ is_space c = false.
Proof.
  induction s as [|c s IH]; [now left|]. simpl.
  destruct (is_space c) eqn:Ec; [exact IH|]. right. eauto.
Qed.

Lemma strip_idem s : strip (strip s) = strip s.
Proof.
  unfold strip. destruct (lstrip_head s) as [->|(c & r & -> & Hc)];
    [reflexivity|].
  destruct (rstrip_cons_nonspace c r Hc) as [r' Hr]. rewrite Hr.
  simpl lstrip. rewrite Hc. rewrite <- Hr. apply rstrip_idem.
Qed.

Lemma append_if_truthy_Some t msg r :
  append_if_truthy t msg = Some r ->
  msg <> "" /\ timestamp r = t /\ message r = msg.
Proof. destruct msg; [discriminate|]. now intros [= <-]. Qed.

Lemma new_datetime_Ok y mo d h mi s t :
  new_datetime y mo d h mi s = Ok t ->
  t = {| year := y; month := mo; day := d;
         hour := h; minute := mi; second := s |}
  /\ 1 <= y <= 9999 /\ 1 <= mo <= 12 /\ 1 <= d <= days_in_month y mo
  /\ 0 <= h <= 23 /\ 0 <= mi <= 59 /\ 0 <= s <= 59.
Proof.
  unfold new_datetime. destruct (negb _); [discriminate|].
  destruct (_ && _) eqn:E; [|discriminate]. intros [= <-].
  repeat (apply andb_true_iff in E as [E ?]). split; [reflexivity|]. lia.
Qed.

Section RecordInvariants.
Variable re_search : string -> string -> option re_match.
Variable strptime : string -> string -> result datetime.
Variable config : PreprocessingConfig.

Lemma elem_of_parse_lines log_type logs r :
  r ∈ parse_lines re_search strptime config log_type logs
  <-> exists log, log ∈ logs
        /\ line_record re_search strptime config log_type log = Some r.
Proof.
  rewrite parse_lines_omap, list_elem_of_omap. reflexivity.
Qed.

Lemma try_except_Some {A} (body : result (option A)) handled r :
  try_except body handled (fun _ => Ok None) = Ok (Some r) ->
  body = Ok (Some r).
Proof.
  destruct body as [o|e]; simpl; [now intros [= ->]|].
  destruct (handled e); discriminate.
Qed.

Lemma bind_Ok {A B} (m : result A) (k : A -> result B) b :
  m ≫= k = Ok b -> exists a, m = Ok a /\ k a = Ok b.
Proof. destruct m as [a|e]; simpl; [eauto | discriminate]. Qed.

(** What a record owes to the format of its line. *)
Lemma line_record_invariants (log_type log : string) (r : parsed_log) :
  line_record re_search strptime config log_type log = Some r ->
  message r <> ""
  /\ (log_type <> "hdfs" -> log_type <> "healthapp" ->
        strip (message r) = message r)
  /\ (log_type = "hdfs" ->
        let t := timestamp r in
        1 <= year t <= 9999 /\ 1 <= month t <= 12
        /\ 1 <= day t <= days_in_month (year t) (month t)
        /\ 0 <= hour t <= 23 /\ 0 <= minute t <= 59 /\ 0 <= second t <= 59)
  /\ (log_type = "healthapp" ->
        exists p1 p2 p3,
          message r = p1 +:+ String "|" (p2 +:+ String "|" p3)).
Proof.
  intros Hrec. unfold line_record in Hrec.
  destruct (parse_line re_search strptime config log_type log) as [o|e] eqn:Hp;
    [subst o | discriminate].
  unfold parse_line in Hp.
  destruct (String.eqb_spec log_type "apache") as [->|Hna].
  { unfold parse_apache in Hp.
    destruct (re_search _ log) as [m|]; [|discriminate].
    apply try_except_Some in Hp. cbv zeta in Hp.
    apply bind_Ok in Hp as (t & _ & Hp). simpl in Hp. injection Hp as Hp.
    apply append_if_truthy_Some in Hp as (Hne & _ & Hm).
    rewrite Hm. split; [exact Hne|]. split; [intros _ _; apply strip_idem|].
    split; discriminate. }
  destruct (String.eqb_spec log_type "hdfs") as [->|Hnh].
  { unfold parse_hdfs in Hp.
    destruct (split_max " " 3 log) as [|date_str [|time_str [|thread [|rest more]]]];
      try discriminate.
    apply try_except_Some in Hp.
    apply bind_Ok in Hp as (y & _ & Hp). apply bind_Ok in Hp as (mo & _ & Hp).
    apply bind_Ok in Hp as (d & _ & Hp). apply bind_Ok in Hp as (h & _ & Hp).
    apply bind_Ok in Hp as (mi & _ & Hp). apply bind_Ok in Hp as (s & _ & Hp).
    apply bind_Ok in Hp as (t & Ht & Hp). simpl in Hp. injection Hp as Hp.
    apply append_if_truthy_Some in Hp as (Hne & Hts & Hm).
    apply new_datetime_Ok in Ht as (-> & Hrange).
    rewrite Hm. split; [exact Hne|]. split; [congruence|].
    split; [|discriminate].
    intros _. rewrite Hts. simpl. exact Hrange. }
  destruct (String.eqb_spec log_type "healthapp") as [->|Hnp].
  { unfold parse_healthapp in Hp.
    destruct (split_all "|" log) as [|ts_str [|p1 [|p2 [|p3 more]]]];
      try discriminate.
    apply try_except_Some in Hp.
    apply bind_Ok in Hp as (a & _ & Hp). apply bind_Ok in Hp as (b & _ & Hp).
    apply bind_Ok in Hp as (c & _ & Hp). apply bind_Ok in Hp as (t & _ & Hp).
    simpl in Hp. injection Hp as Hp.
    apply append_if_truthy_Some in Hp as (Hne & _ & Hm).
    rewrite Hm. split; [exact Hne|]. split; [congruence|].
    split; [discriminate|]. intros _. exists p1, p2, p3. reflexivity. }
  unfold parse_default in Hp.
  destruct (re_search _ log) as [m|]; [|discriminate].
  apply bind_Ok in Hp as (t & _ & Hp). simpl in Hp. injection Hp as Hp.
  apply append_if_truthy_Some in Hp as (Hne & _ & Hm).
  rewrite Hm. split; [exact Hne|]. split; [intros _ _; apply strip_idem|].
  split; congruence.
Qed.

(** X7.  Every record that parsing a list of lines yields comes from one of
    the lines and has a message that is not empty.  For the default and the
    Apache format the message carries no whitespace at either end; for the
    HDFS format the timestamp is a date and a time of day that exist. *)
Theorem parsed_records_invariants (log_type : string) (logs : list string)
    (r : parsed_log) :
  r ∈ parse_lines re_search strptime config log_type logs ->
  (exists log, log ∈ logs
     /\ line_record re_search strptime config log_type log = Some r)
  /\ message r <> ""
  /\ (log_type <> "hdfs" -> log_type <> "healthapp" ->
        strip (message r) = message r)
  /\ (log_type = "hdfs" ->
        let t := timestamp r in
        1 <= year t <= 9999 /\ 1 <= month t <= 12
        /\ 1 <= day t <= days_in_month (year t) (month t)
        /\ 0 <= hour t <= 23 /\ 0 <= minute t <= 59 /\ 0 <= second t <= 59).
Proof.
  intros Hin. apply elem_of_parse_lines in Hin as (log & Hlog & Hrec).
  destruct (line_record_invariants log_type log r Hrec)
    as (Hne & Hstrip & Hdate & _).
  split; [eauto|]. split; [exact Hne|]. split; [exact Hstrip | exact Hdate].
Qed.

End RecordInvariants.

(** The record of the HDFS line of the scenario. *)
Lemma parsed_records_invariants_witness :
  let r := {| timestamp := {| year := 2008; month := 11; day := 9;
                              hour := 20; minute := 35; second := 18 |};
              message := "INFO dfs.DataNode$PacketResponder: PacketResponder 1 for block blk_38865049064139660 terminating" |} in
  message r <> "" /\ 1 <= day (timestamp r) <= days_in_month 2008 11.
Proof.
  intros r.
  destruct (parsed_records_invariants (fun _ _ => None)
              (fun _ _ => Raise ValueError) default_config "hdfs" [hdfs_line] r)
    as (_ & Hm & _ & Hd).
  - change (r ∈ [r]). apply list_elem_of_here.
  - split; [exact Hm|]. exact (proj1 (proj2 (proj2 (Hd eq_refl)))).
Defined.

(** *** HDFS lines *)

Lemma cut_append sep a b :
  str_forall (fun c => negb (Ascii.eqb c sep)) a = true ->
  cut sep (a +:+ String sep b) = Some (a, b).
Proof.
  induction a as [|c a IH]; intros Ha.
  - rewrite append_empty_l. simpl. now rewrite Ascii.eqb_refl.
  - simpl in Ha. apply andb_true_iff in Ha as [Hc Ha].
    rewrite append_cons. simpl. apply negb_true_iff in Hc. rewrite Hc.
    now rewrite (IH Ha).
Qed.

Lemma str_forall_impl (p q : ascii -> bool) s :
  (forall c, p c = true -> q c = true) ->
  str_forall p s = true -> str_forall q s = true.
Proof.
  intros Hpq. induction s as [|c s IH]; [reflexivity|]. simpl.
  intros [Hc Hs]%andb_true_iff. now rewrite (Hpq c Hc), (IH Hs).
Qed.

Lemma digit_not_blank c : is_digit c = true -> negb (Ascii.eqb c " ") = true.
Proof. ascii_cases c. Qed.

Lemma digit_not_space c : is_digit c = true -> is_space c = false.
Proof. ascii_cases c. Qed.

Lemma rstrip_digits s : str_forall is_digit s = true -> rstrip s = s.
Proof.
  induction s as [|c s IH]; [reflexivity|]. simpl.
  intros [Hc Hs]%andb_true_iff. rewrite (IH Hs), (digit_not_space c Hc).
  now destruct s.
Qed.

Lemma strip_digits s : str_forall is_digit s = true -> strip s = s.
Proof.
  intros Hs. unfold strip.
  assert (lstrip s = s) as ->; [|now apply rstrip_digits].
  destruct s as [|c s]; [reflexivity|]. simpl in *.
  apply andb_true_iff in Hs as [Hc _]. now rewrite (digit_not_space c Hc).
Qed.

Lemma int_digits_all acc s :
  str_forall is_digit s = true ->
  int_digits acc true s = Ok (digits_value acc s).
Proof.
  revert acc. induction s as [|c s IH]; intros acc; [reflexivity|]. simpl.
  intros [Hc Hs]%andb_true_iff. rewrite Hc. now apply IH.
Qed.

(** [int] on a run of digits is its decimal value. *)
Lemma int_of_digits s :
  s <> "" -> str_forall is_digit s = true -> int s = Ok (digits_value 0 s).
Proof.
  intros Hne Hs. unfold int. rewrite (strip_digits s Hs).
  destruct s as [|c s]; [congruence|]. simpl in Hs.
  apply andb_true_iff in Hs as [Hc Hs].
  assert (Hstep : int_digits 0 false (String c s)
                  = Ok (digits_value 0 (String c s))).
  { simpl. rewrite Hc. now apply int_digits_all. }
  destruct c as [[] [] [] [] [] [] [] []];
    try (exfalso; vm_compute in Hc; discriminate Hc); exact Hstep.
Qed.

Lemma six_characters s :
  String.length s = 6%nat ->
  exists a b c d e f,
    s = String a (String b (String c (String d (String e (String f ""))))).
Proof.
  do 6 (destruct s as [|? s]; [discriminate|]).
  destruct s; [|discriminate]. eauto 10.
Qed.

Section HdfsLines.
Variable re_search : string -> string -> option re_match.
Variable strptime : string -> string -> result datetime.
Variable config : PreprocessingConfig.

(** X8.  An HDFS line made of six digits, a space, six digits, a space, a
    thread id without a space, a space and a rest gives the record of the
    date and time the digits spell, in the years 2000 to 2099, with the rest
    as its message; it gives no record when the digits spell no date or time
    that exists, or when the rest is empty. *)
Theorem hdfs_line_record (date_str time_str thread rest : string) :
  String.length date_str = 6%nat -> str_forall is_digit date_str = true ->
  String.length time_str = 6%nat -> str_forall is_digit time_str = true ->
  str_forall (fun c => negb (Ascii.eqb c " ")) thread = true ->
  let log := date_str +:+ " " +:+ time_str +:+ " " +:+ thread +:+ " " +:+ rest in
  let yy := digits_value 0 (slice_to 2 date_str) in
  0 <= yy <= 99
  /\ line_record re_search strptime config "hdfs" log
     = match new_datetime (2000 + yy)
               (digits_value 0 (slice 2 4 date_str))
               (digits_value 0 (slice_from 4 date_str))
               (digits_value 0 (slice_to 2 time_str))
               (digits_value 0 (slice 2 4 time_str))
               (digits_value 0 (slice_from 4 time_str)) with
       | Ok t => append_if_truthy t rest
       | Raise _ => None
       end.
Proof.
  intros Hld Hd Hlt Ht Hth log yy.
  assert (Hsplit : split_max " " 3 log = [date_str; time_str; thread; rest]).
  { unfold log.
    change (date_str +:+ " " +:+ time_str +:+ " " +:+ thread +:+ " " +:+ rest)
      with (date_str +:+ String " " (time_str +:+ String " "
              (thread +:+ String " " rest))).
    simpl split_max.
    rewrite (cut_append " " date_str) by
      (eapply str_forall_impl; [apply digit_not_blank | exact Hd]).
    rewrite (cut_append " " time_str) by
      (eapply str_forall_impl; [apply digit_not_blank | exact Ht]).
    now rewrite (cut_append " " thread) by exact Hth. }
  unfold line_record, parse_line. simpl String.eqb. cbv iota.
  rewrite (parse_hdfs_fields log _ _ _ _ _ Hsplit).
  apply six_characters in Hld as (y1 & y2 & m1 & m2 & d1 & d2 & ->).
  apply six_characters in Hlt as (H1 & H2 & M1 & M2 & S1 & S2 & ->).
  simpl in Hd, Ht.
  repeat match goal with
         | H : _ && _ = true |- _ => apply andb_true_iff in H as [? H]
         end.
  assert (Hdv : forall c, is_digit c = true -> 0 <= digit_value c <= 9).
  { intros c Hc. destruct c as [[] [] [] [] [] [] [] []];
      try (exfalso; vm_compute in Hc; discriminate Hc);
      vm_compute; split; discriminate. }
  assert (Hint2 : forall a b, is_digit a = true -> is_digit b = true ->
            int (String a (String b "")) = Ok (10 * digit_value a + digit_value b)).
  { intros a b Ha Hb. rewrite int_of_digits; [|discriminate|simpl; now rewrite Ha, Hb].
    simpl. f_equal; lia. }
  assert (Hint4 : forall a b, is_digit a = true -> is_digit b = true ->
            int ("20" +:+ String a (String b ""))
            = Ok (2000 + (10 * digit_value a + digit_value b))).
  { intros a b Ha Hb.
    change ("20" +:+ String a (String b "")) with
      (String "2" (String "0" (String a (String b "")))).
    rewrite int_of_digits; [|discriminate|simpl; now rewrite Ha, Hb].
    simpl. change (digit_value "2") with 2. change (digit_value "0") with 0.
    f_equal; lia. }
  subst yy. unfold hdfs_timestamp, slice. simpl slice_to. simpl slice_from.
  simpl digits_value.
  rewrite Hint4, !Hint2 by assumption. simpl mbind.
  split; [pose proof (Hdv y1 ltac:(assumption));
          pose proof (Hdv y2 ltac:(assumption)); lia|].
  replace (10 * (10 * 0 + digit_value y1) + digit_value y2)
    with (10 * digit_value y1 + digit_value y2) by lia.
  replace (10 * (10 * 0 + digit_value m1) + digit_value m2)
    with (10 * digit_value m1 + digit_value m2) by lia.
  replace (10 * (10 * 0 + digit_value d1) + digit_value d2)
    with (10 * digit_value d1 + digit_value d2) by lia.
  replace (10 * (10 * 0 + digit_value H1) + digit_value H2)
    with (10 * digit_value H1 + digit_value H2) by lia.
  replace (10 * (10 * 0 + digit_value M1) + digit_value M2)
    with (10 * digit_value M1 + digit_value M2) by lia.
  replace (10 * (10 * 0 + digit_value S1) + digit_value S2)
    with (10 * digit_value S1 + digit_value S2) by lia.
  destruct (new_datetime _ _ _ _ _ _) as [t|e] eqn:Hnew; simpl; [reflexivity|].
  assert (He : e = ValueError).
  { unfold new_datetime in Hnew.
    destruct (negb _) eqn:Hfit.
    - exfalso. apply negb_true_iff in Hfit.
      repeat match goal with
             | H : is_digit ?c = true |- _ => apply Hdv in H
             end.
      unfold forallb, fits_c_int in Hfit.
      repeat (apply andb_false_iff in Hfit as [Hfit|Hfit]);
        try discriminate; apply Z.leb_gt in Hfit; lia.
    - destruct (_ && _); [discriminate | congruence]. }
  now rewrite He.
Qed.

End HdfsLines.
(** The HDFS line of the scenario: 9 November 2008, 20:35:18. *)
Lemma hdfs_line_record_witness :
  line_record (fun _ _ => None) (fun _ _ => Raise ValueError) default_config
    "hdfs" hdfs_line
  = Some {| timestamp := {| year := 2008; month := 11; day := 9;
                            hour := 20; minute := 35; second := 18 |};
            message := "INFO dfs.DataNode$PacketResponder: PacketResponder 1 for block blk_38865049064139660 terminating" |}.
Proof.
  exact (proj2 (hdfs_line_record (fun _ _ => None) (fun _ _ => Raise ValueError)
                  default_config "081109" "203518" "148"
                  "INFO dfs.DataNode$PacketResponder: PacketResponder 1 for block blk_38865049064139660 terminating"
                  eq_refl eq_refl eq_refl eq_refl eq_refl)).
Defined.

(** ** Apache and HealthApp lines *)

Lemma find_from_absent ch start pos s :
  str_forall (fun c => negb (Ascii.eqb c ch)) s = true ->
  find_from ch start pos s = -1.
Proof.
  revert pos. induction s as [|c s IH]; intros pos Hs; [reflexivity|].
  simpl in *. apply andb_true_iff in Hs as [Hc Hs].
  apply negb_true_iff in Hc. rewrite Hc, andb_false_r. now apply IH.
Qed.

(** Characters before [start] are passed over, whatever they are. *)
Lemma find_from_skip ch start pos a s :
  (pos + String.length a <= start)%nat ->
  find_from ch start pos (a +:+ s)
  = find_from ch start (pos + String.length a) s.
Proof.
  revert pos. induction a as [|c a IH]; intros pos Hle.
  - rewrite append_empty_l. simpl. now rewrite Nat.add_0_r.
  - rewrite append_cons. simpl in *.
    destruct (start <=? pos)%nat eqn:E; [apply Nat.leb_le in E; lia|].
    simpl. rewrite IH by lia. f_equal. lia.
Qed.

(** From [start] on, the first occurrence is found. *)
Lemma find_from_first ch start pos a s :
  (start <= pos)%nat ->
  str_forall (fun c => negb (Ascii.eqb c ch)) a = true ->
  find_from ch start pos (a +:+ String ch s)
  = Z.of_nat (pos + String.length a).
Proof.
  revert pos. induction a as [|c a IH]; intros pos Hle Ha.
  - rewrite append_empty_l. simpl.
    apply Nat.leb_le in Hle. rewrite Hle, Ascii.eqb_refl. simpl.
    now rewrite Nat.add_0_r.
  - rewrite append_cons. simpl in *. apply andb_true_iff in Ha as [Hc Ha].
    apply negb_true_iff in Hc. rewrite Hc, andb_false_r.
    rewrite IH by (lia || assumption). f_equal. lia.
Qed.

Lemma find_from_before ch start pos c s :
  (pos < start)%nat ->
  find_from ch start pos (String c s) = find_from ch start (S pos) s.
Proof.
  intros Hlt. simpl.
  destruct (start <=? pos)%nat eqn:E; [apply Nat.leb_le in E; lia|].
  reflexivity.
Qed.

Lemma slice_from_append a s : slice_from (String.length a) (a +:+ s) = s.
Proof.
  induction a as [|c a IH]; [now destruct s|]. rewrite append_cons. exact IH.
Qed.

Section ApacheLines.
Variable re_search : string -> string -> option re_match.
Variable strptime : string -> string -> result datetime.
Variable config : PreprocessingConfig.

(** X20.  The message of an Apache line whose timestamp is matched and
    parsed is what follows the second closing bracket of the line, stripped.
    A line with a single closing bracket has no second one to cut at: its
    message is the whole line, stripped, timestamp included. *)
Theorem apache_message_starts_after_second_bracket
    (log a b : string) (m : re_match) (t : datetime) :
  re_search "\[([\w\s:]+)\]" log = Some m ->
  strptime (group1 m) "%a %b %d %H:%M:%S %Y" = Ok t ->
  log = a +:+ String "]" b ->
  str_forall (fun c => negb (Ascii.eqb c "]")) a = true ->
  (str_forall (fun c => negb (Ascii.eqb c "]")) b = true ->
   line_record re_search strptime config "apache" log
   = append_if_truthy t (strip log))
  /\ (forall b1 b2,
        b = b1 +:+ String "]" b2 ->
        str_forall (fun c => negb (Ascii.eqb c "]")) b1 = true ->
        line_record re_search strptime config "apache" log
        = append_if_truthy t (strip b2)).
Proof.
  intros Hm Ht -> Ha.
  assert (Hfirst : find "]" 0 (a +:+ String "]" b) = Z.of_nat (String.length a)).
  { unfold find. simpl Z.to_nat. rewrite find_from_first by (lia || assumption).
    reflexivity. }
  assert (Hrec : forall start,
            find "]" (Z.of_nat (String.length a) + 1) (a +:+ String "]" b)
            = start ->
            line_record re_search strptime config "apache" (a +:+ String "]" b)
            = append_if_truthy t
                (strip (slice_from (Z.to_nat (start + 1))
                          (a +:+ String "]" b)))).
  { intros start Hstart. unfold line_record, parse_line. simpl String.eqb.
    cbv iota. unfold parse_apache. rewrite Hm, Ht. cbn [mbind result_bind].
    rewrite Hfirst, Hstart. reflexivity. }
  assert (Hskip : forall s,
            find "]" (Z.of_nat (String.length a) + 1) (a +:+ String "]" s)
            = find_from "]" (S (String.length a)) (S (String.length a)) s).
  { intros s. unfold find.
    replace (Z.to_nat (Z.of_nat (String.length a) + 1))
      with (S (String.length a)) by lia.
    change (a +:+ String "]" s) with (a +:+ String "]" s).
    rewrite find_from_skip by lia. rewrite find_from_before by lia.
    reflexivity. }
  split.
  - intros Hb. rewrite (Hrec (-1)).
    + reflexivity.
    + rewrite Hskip. now apply find_from_absent.
  - intros b1 b2 -> Hb1.
    rewrite (Hrec (Z.of_nat (S (String.length a) + String.length b1))).
    + do 2 f_equal.
      replace (Z.to_nat (Z.of_nat (S (String.length a) + String.length b1) + 1))
        with (String.length (a +:+ String "]" (b1 +:+ "]")))%nat.
      * change (a +:+ String "]" (b1 +:+ String "]" b2))
          with (a +:+ String "]" (b1 +:+ String "]" b2)).
        assert (Hassoc : a +:+ String "]" (b1 +:+ String "]" b2)
                         = (a +:+ String "]" (b1 +:+ "]")) +:+ b2).
        { clear. induction a as [|c a IH].
          - rewrite !append_empty_l. rewrite append_cons. f_equal.
            induction b1 as [|c b1 IH]; [reflexivity|].
            rewrite !append_cons. now rewrite IH.
          - rewrite !append_cons. now rewrite IH. }
        rewrite Hassoc. apply slice_from_append.
      * assert (Hlen : forall x y : string,
                  String.length (x +:+ y)
                  = (String.length x + String.length y)%nat).
        { intros x y. induction x as [|c x IH]; [reflexivity|].
          rewrite append_cons. simpl. now rewrite IH. }
        rewrite Hlen. simpl String.length. rewrite Hlen. simpl. lia.
    + rewrite Hskip. now apply find_from_first.
Qed.

End ApacheLines.

(** A line with one closing bracket keeps its timestamp in the message. *)
Lemma apache_message_starts_after_second_bracket_witness :
  let stamp := {| year := 2005; month := 12; day := 4;
                  hour := 4; minute := 47; second := 44 |} in
  line_record
    (fun _ _ => Some {| group1 := "Sun Dec 04 04:47:44 2005"; match_end := 26 |})
    (fun _ _ => Ok stamp) default_config "apache"
    "[Sun Dec 04 04:47:44 2005] workerEnv.init() ok"
  = Some {| timestamp := stamp;
            message := "[Sun Dec 04 04:47:44 2005] workerEnv.init() ok" |}.
Proof.
  intros stamp.
  exact (proj1 (apache_message_starts_after_second_bracket
                  (fun _ _ => Some {| group1 := "Sun Dec 04 04:47:44 2005";
                                      match_end := 26 |})
                  (fun _ _ => Ok stamp) default_config
                  "[Sun Dec 04 04:47:44 2005] workerEnv.init() ok"
                  "[Sun Dec 04 04:47:44 2005" " workerEnv.init() ok"
                  _ stamp eq_refl eq_refl eq_refl eq_refl) eq_refl).
Defined.

(** *** HealthApp lines *)

Lemma cut_length sep s a b :
  cut sep s = Some (a, b) ->
  String.length s = S (String.length a + String.length b).
Proof.
  revert a. induction s as [|c s IH]; intros a; [discriminate|]. simpl.
  destruct (Ascii.eqb c sep); [now intros [= <- <-]|].
  destruct (cut sep s) as [[a' b']|]; [|discriminate].
  intros [= <- <-]. simpl. now rewrite (IH a' eq_refl).
Qed.

(** More cuts than the text has characters change nothing. *)
Lemma split_max_enough sep n :
  forall s m, (String.length s <= m)%nat -> (m <= n)%nat ->
    split_max sep m s = split_max sep (String.length s) s.
Proof.
  induction n as [|n IH]; intros s m Hs Hm.
  - assert (m = 0%nat) as -> by lia.
    assert (String.length s = 0%nat) as -> by lia. reflexivity.
  - destruct m as [|k].
    + assert (String.length s = 0%nat) as -> by lia. reflexivity.
    + simpl. destruct (cut sep s) as [[a b]|] eqn:Ec.
      * pose proof (cut_length _ _ _ _ Ec) as Hlen. rewrite Hlen. simpl.
        rewrite Ec. f_equal.
        rewrite (IH b k) by lia.
        now rewrite (IH b (String.length a + String.length b)%nat) by lia.
      * destruct (String.length s); simpl; [reflexivity | now rewrite Ec].
Qed.

Lemma split_all_cons sep a rest :
  str_forall (fun c => negb (Ascii.eqb c sep)) a = true ->
  split_all sep (a +:+ String sep rest) = a :: split_all sep rest.
Proof.
  intros Ha. unfold split_all.
  pose proof (cut_append sep a rest Ha) as Hcut.
  rewrite (cut_length _ _ _ _ Hcut). simpl. rewrite Hcut. f_equal.
  apply (split_max_enough sep (String.length a + String.length rest));
    lia.
Qed.

Section HealthAppLines.
Variable re_search : string -> string -> option re_match.
Variable strptime : string -> string -> result datetime.
Variable config : PreprocessingConfig.

(** X21.  A HealthApp line of a timestamp and three fields separated by
    bars gives a record exactly when the timestamp has three parts between
    colons that [strptime] accepts; what follows the third part, the
    milliseconds, is not read.  The message is the three fields joined by
    bars.  More bars and text after the third field change nothing: they are
    not part of the message. *)
Theorem healthapp_message_is_three_fields
    (timestamp_str p1 p2 p3 more : string) :
  str_forall (fun c => negb (Ascii.eqb c "|")) timestamp_str = true ->
  str_forall (fun c => negb (Ascii.eqb c "|")) p1 = true ->
  str_forall (fun c => negb (Ascii.eqb c "|")) p2 = true ->
  str_forall (fun c => negb (Ascii.eqb c "|")) p3 = true ->
  let log := timestamp_str +:+ String "|" (p1 +:+ String "|" (p2 +:+ String "|" p3)) in
  line_record re_search strptime config "healthapp" log
  = match split_all ":" timestamp_str with
    | a :: b :: c :: _ =>
        match strptime (a +:+ ":" +:+ b +:+ ":" +:+ c) "%Y%m%d-%H:%M:%S" with
        | Ok t => Some {| timestamp := t;
                          message := p1 +:+ "|" +:+ p2 +:+ "|" +:+ p3 |}
        | Raise _ => None
        end
    | _ => None
    end
  /\ line_record re_search strptime config "healthapp"
       (timestamp_str +:+ String "|" (p1 +:+ String "|" (p2 +:+ String "|"
          (p3 +:+ String "|" more))))
     = line_record re_search strptime config "healthapp" log.
Proof.
  intros Hts H1 H2 H3 log.
  assert (Hparse : forall fields,
            line_record re_search strptime config "healthapp"
              (timestamp_str +:+ String "|" (p1 +:+ String "|"
                 (p2 +:+ String "|" fields)))
            = match split_all "|" fields with
              | p3' :: _ =>
                  match split_all ":" timestamp_str with
                  | a :: b :: c :: _ =>
                      match strptime (a +:+ ":" +:+ b +:+ ":" +:+ c)
                              "%Y%m%d-%H:%M:%S" with
                      | Ok t =>
                          Some {| timestamp := t;
                                  message := p1 +:+ "|" +:+ p2 +:+ "|" +:+ p3' |}
                      | Raise _ => None
                      end
                  | _ => None
                  end
              | [] => None
              end).
  { intros fields. unfold line_record, parse_line. simpl String.eqb.
    cbv iota. unfold parse_healthapp.
    rewrite (split_all_cons "|" timestamp_str _ Hts).
    rewrite (split_all_cons "|" p1 _ H1), (split_all_cons "|" p2 _ H2).
    destruct (split_all "|" fields) as [|p3' rest]; [reflexivity|].
    unfold index.
    destruct (split_all ":" timestamp_str) as [|a [|b [|c ms]]];
      try reflexivity.
    simpl lookup. cbn [mbind result_bind].
    destruct (strptime _ _) as [t|e]; cbn [mbind result_bind mret result_ret try_except].
    - assert (Hmsg : exists ch s, p1 +:+ "|" +:+ p2 +:+ "|" +:+ p3' = String ch s).
      { destruct p1 as [|ch p1']; [eexists _, _; reflexivity|].
        eexists _, _. rewrite append_cons. reflexivity. }
      destruct Hmsg as (ch & s & Hmsg). rewrite Hmsg. reflexivity.
    - now destruct (is_ValueError e || is_IndexError e). }
  assert (Hlast : split_all "|" p3 = [p3]).
  { unfold split_all. clear -H3.
    assert (Hcut : cut "|" p3 = None).
    { induction p3 as [|c s IH]; [reflexivity|]. simpl in *.
      apply andb_true_iff in H3 as [Hc Hs]. apply negb_true_iff in Hc.
      now rewrite Hc, (IH Hs). }
    destruct (String.length p3); simpl; [reflexivity | now rewrite Hcut]. }
  split.
  - unfold log. rewrite (Hparse p3), Hlast. reflexivity.
  - unfold log. rewrite (Hparse p3), (Hparse (p3 +:+ String "|" more)).
    rewrite Hlast, (split_all_cons "|" p3 more H3). reflexivity.
Qed.

End HealthAppLines.

(** A line of the HealthApp format, and the same line with one more field. *)
Lemma healthapp_message_is_three_fields_witness :
  let stamp := {| year := 2017; month := 12; day := 23;
                  hour := 22; minute := 15; second := 29 |} in
  line_record (fun _ _ => None) (fun _ _ => Ok stamp) default_config "healthapp"
    "20171223-22:15:29:606|Step_LSC|30002312|onStandStepChanged 3579|extra"
  = Some {| timestamp := stamp;
            message := "Step_LSC|30002312|onStandStepChanged 3579" |}.
Proof.
  intros stamp.
  destruct (healthapp_message_is_three_fields (fun _ _ => None)
              (fun _ _ => Ok stamp) default_config
              "20171223-22:15:29:606" "Step_LSC" "30002312"
              "onStandStepChanged 3579" "extra"
              eq_refl eq_refl eq_refl eq_refl) as [Hrec Hmore].
  exact (eq_trans Hmore Hrec).
Defined.

(** ** Feature extraction *)

Lemma runs_cons p c s :
  runs p (String c s)
  = if p c then
      if starts_with p s then
        match runs p s with
        | r :: rs => String c r :: rs
        | [] => [String c EmptyString]
        end
      else String c EmptyString :: runs p s
    else runs p s.
Proof.
  simpl. destruct (p c); [|reflexivity]. destruct s as [|c' s']; reflexivity.
Qed.

Lemma runs_starts_with p s : starts_with p s = true -> runs p s <> [].
Proof.
  destruct s as [|c s]; [discriminate|]. intros Hc. simpl in Hc.
  rewrite runs_cons, Hc. destruct (starts_with p s); [|discriminate].
  destruct (runs p s); discriminate.
Qed.

(** A character opens a run when it satisfies [p] and the next one does
    not continue a run it would belong to. *)
Lemma runs_length_cons p c s :
  len (runs p (String c s))
  = len (runs p s) + (if p c && negb (starts_with p s) then 1 else 0).
Proof.
  rewrite runs_cons. unfold len. destruct (p c); simpl; [|lia].
  destruct (starts_with p s) eqn:Hs; simpl.
  - pose proof (runs_starts_with p s Hs).
    destruct (runs p s); [congruence|]. simpl. lia.
  - lia.
Qed.

Lemma starts_with_append p a b :
  starts_with p (a +:+ b) = if String.eqb a "" then starts_with p b
                            else starts_with p a.
Proof. destruct a; reflexivity. Qed.

(** Runs do not cross a character outside [p]. *)
Lemma runs_length_append p a b :
  starts_with p b = false ->
  len (runs p (a +:+ b)) = len (runs p a) + len (runs p b).
Proof.
  intros Hb. induction a as [|c a IH].
  - rewrite append_empty_l. unfold len. simpl. lia.
  - rewrite append_cons, !runs_length_cons, IH, starts_with_append.
    destruct a as [|c' a']; simpl String.eqb; cbv iota.
    + rewrite Hb. simpl starts_with. lia.
    + lia.
Qed.

Lemma sum_ones_append p a b :
  sum_ones p (a +:+ b) = sum_ones p a + sum_ones p b.
Proof.
  induction a as [|c a IH]; [reflexivity|].
  rewrite append_cons. simpl. rewrite IH. destruct (p c); lia.
Qed.

Lemma chars_where_append p a b :
  chars_where p (a +:+ b) = chars_where p a ++ chars_where p b.
Proof.
  induction a as [|c a IH]; [reflexivity|].
  rewrite append_cons. simpl. rewrite IH. now destruct (p c).
Qed.

Lemma length_append (a b : string) :
  String.length (a +:+ b) = (String.length a + String.length b)%nat.
Proof.
  induction a as [|c a IH]; [reflexivity|]. rewrite append_cons. simpl.
  now rewrite IH.
Qed.

Lemma chars_where_length p s : len (chars_where p s) = sum_ones p s.
Proof.
  unfold len. induction s as [|c s IH]; [reflexivity|]. simpl.
  destruct (p c); simpl; lia.
Qed.

Lemma sum_ones_nonneg p s : 0 <= sum_ones p s.
Proof. induction s as [|c s IH]; simpl; [lia|]. destruct (p c); lia. Qed.

(** Every run has a character of its own, and two runs have a character
    between them. *)
Lemma runs_length_bounds p s :
  0 <= len (runs p s)
  /\ len (runs p s) <= sum_ones p s
  /\ 2 * len (runs p s)
     <= Z.of_nat (String.length s) + (if starts_with p s then 1 else 0).
Proof.
  induction s as [|c s (IH0 & IH1 & IH2)]; [unfold len; simpl; lia|].
  rewrite runs_length_cons. simpl sum_ones. simpl starts_with.
  change (String.length (String c s)) with (S (String.length s)).
  rewrite Nat2Z.inj_succ.
  destruct (p c), (starts_with p s); cbn [andb negb]; lia.
Qed.

(** Each character counts for exactly one class. *)
Lemma character_classes c :
  (if is_upper c then 1 else 0) + (if is_lower c then 1 else 0)
  + (if is_digit c then 1 else 0) + (if is_space c then 1 else 0)
  + (if negb (is_alpha c || is_digit c || is_space c) then 1 else 0) = 1.
Proof. ascii_cases c. Qed.

Lemma character_partition s :
  sum_ones is_upper s + sum_ones is_lower s + sum_ones is_digit s
  + sum_ones is_space s
  + sum_ones (fun c => negb (is_alpha c || is_digit c || is_space c)) s
  = Z.of_nat (String.length s).
Proof.
  induction s as [|c s IH]; [reflexivity|]. cbn [sum_ones].
  change (String.length (String c s)) with (S (String.length s)).
  rewrite Nat2Z.inj_succ. pose proof (character_classes c) as Hc.
  revert Hc. generalize (negb (is_alpha c || is_digit c || is_space c)).
  intros special Hc.
  destruct (is_upper c), (is_lower c), (is_digit c), (is_space c), special;
    lia.
Qed.

Lemma sum_ones_negb p s :
  sum_ones (fun c => negb (p c)) s = Z.of_nat (String.length s) - sum_ones p s.
Proof.
  induction s as [|c s IH]; [reflexivity|]. simpl sum_ones.
  change (String.length (String c s)) with (S (String.length s)).
  rewrite Nat2Z.inj_succ, IH. destruct (p c); cbn [negb]; lia.
Qed.

(** X9.  The configuration only selects among the basic features: the
    features of a message are those of the six that [basic_features] names,
    in the order log_length, word_count, numeric_count, special_char_count,
    uppercase_count, lowercase_count whatever the order of the configured
    list, each once however often it is named, and each with the value it
    has when all six are asked for. *)
Theorem basic_features_are_selected (config : PreprocessingConfig)
    (message : string) :
  extract_basic_features config message
  = List.filter (fun kv => bool_decide (kv.1 ∈ basic_features config))
      (extract_basic_features all_basic_features message)
  /\ (extract_basic_features all_basic_features message).*1 = valid_features.
Proof.
  split; [|reflexivity].
  assert (Hall : extract_basic_features all_basic_features message
                 = [("log_length", Z.of_nat (String.length message));
                    ("word_count", len (split_whitespace message));
                    ("numeric_count", len (findall_digits message));
                    ("special_char_count", len (findall_special message));
                    ("uppercase_count", sum_ones is_upper message);
                    ("lowercase_count", sum_ones is_lower message)])
    by reflexivity.
  rewrite Hall. unfold extract_basic_features. cbn [List.filter fst].
  repeat case_bool_decide; reflexivity.
Qed.

(** X10.  The six basic features of a message bound one another: none is
    negative; the uppercase, lowercase and special characters and the
    numbers together are no more than the characters of the message; words
    and numbers each need a character of their own and one between two of
    them, so twice their count is at most the length plus one. *)
Theorem basic_feature_bounds (message : string) :
  exists n w k s u l,
    extract_basic_features all_basic_features message
    = [("log_length", n); ("word_count", w); ("numeric_count", k);
       ("special_char_count", s); ("uppercase_count", u);
       ("lowercase_count", l)]
    /\ 0 <= w /\ 0 <= k /\ 0 <= s /\ 0 <= u /\ 0 <= l
    /\ u + l + s + k <= n
    /\ w + u + l + s + k <= 2 * n
    /\ 2 * w <= n + 1 /\ 2 * k <= n + 1
    /\ (n = 0 -> message = "").
Proof.
  do 6 eexists. split; [reflexivity|].
  pose proof (runs_length_bounds (fun c => negb (is_space c)) message)
    as (Hw0 & Hw1 & Hw2).
  pose proof (runs_length_bounds is_digit message) as (Hk0 & Hk1 & Hk2).
  pose proof (character_partition message) as Hpart.
  pose proof (sum_ones_negb is_space message) as Hneg.
  pose proof (sum_ones_nonneg is_upper message).
  pose proof (sum_ones_nonneg is_lower message).
  pose proof (sum_ones_nonneg is_digit message).
  pose proof (sum_ones_nonneg is_space message).
  pose proof (sum_ones_nonneg
                (fun c => negb (is_alpha c || is_digit c || is_space c)) message).
  unfold split_whitespace, findall_digits, findall_special.
  rewrite chars_where_length.
  repeat split; try lia.
  - destruct (starts_with _ message); lia.
  - destruct (starts_with is_digit message); lia.
  - destruct message; [reflexivity | simpl; lia].
Qed.

Lemma dict_get_set {V} (d : list (string * V)) key v k :
  dict_get (dict_set d key v) k
  = if String.eqb key k then Some v else dict_get d k.
Proof.
  induction d as [|[k' v'] d IH]; simpl.
  - reflexivity.
  - destruct (String.eqb_spec k' key) as [->|Hne]; simpl.
    + now destruct (String.eqb key k).
    + rewrite IH. destruct (String.eqb_spec k' k) as [->|Hne'];
        [|reflexivity].
      destruct (String.eqb_spec key k) as [->|_]; [congruence | reflexivity].
Qed.

Lemma dict_get_cond_set {V} (b : bool) (d : list (string * V)) key v k :
  dict_get (if b then dict_set d key v else d) k
  = if String.eqb key k && b then Some v else dict_get d k.
Proof.
  destruct b; [rewrite dict_get_set|]; now destruct (String.eqb key k).
Qed.

(** The value a basic feature has in the dict, when it is there. *)
Lemma basic_feature_get (config : PreprocessingConfig) (message k : string) :
  dict_get (extract_basic_features config message) k
  = if bool_decide (k ∈ basic_features config) then
      if String.eqb k "log_length"
      then Some (Z.of_nat (String.length message))
      else if String.eqb k "word_count"
      then Some (len (split_whitespace message))
      else if String.eqb k "numeric_count"
      then Some (len (findall_digits message))
      else if String.eqb k "special_char_count"
      then Some (len (findall_special message))
      else if String.eqb k "uppercase_count"
      then Some (sum_ones is_upper message)
      else if String.eqb k "lowercase_count"
      then Some (sum_ones is_lower message)
      else None
    else None.
Proof.
  unfold extract_basic_features. cbv zeta. rewrite !dict_get_cond_set.
  destruct (String.eqb_spec k "log_length") as [->|H1];
    [destruct (bool_decide ("log_length" ∈ basic_features config));
     reflexivity|].
  destruct (String.eqb_spec k "word_count") as [->|H2];
    [destruct (bool_decide ("word_count" ∈ basic_features config));
     reflexivity|].
  destruct (String.eqb_spec k "numeric_count") as [->|H3];
    [destruct (bool_decide ("numeric_count" ∈ basic_features config));
     reflexivity|].
  destruct (String.eqb_spec k "special_char_count") as [->|H4];
    [destruct (bool_decide ("special_char_count" ∈ basic_features config));
     reflexivity|].
  destruct (String.eqb_spec k "uppercase_count") as [->|H5];
    [destruct (bool_decide ("uppercase_count" ∈ basic_features config));
     reflexivity|].
  destruct (String.eqb_spec k "lowercase_count") as [->|H6];
    [destruct (bool_decide ("lowercase_count" ∈ basic_features config));
     reflexivity|].
  assert (E : forall lit, k <> lit -> String.eqb lit k = false)
    by (intros lit Hne; apply String.eqb_neq; congruence).
  rewrite !E by assumption. cbn [andb dict_get].
  now destruct (bool_decide (k ∈ basic_features config)).
Qed.

(** X11.  Across a whitespace character the basic features add up: the
    features of [a], one whitespace character and [b] are the sums of the
    features of [a] and of [b], the length counting the separator as well.
    No word and no number runs across the separator. *)
Theorem basic_features_add_across_whitespace (config : PreprocessingConfig)
    (a b : string) (sep : ascii) (k : string) (va vb : Z) :
  is_space sep = true ->
  dict_get (extract_basic_features config a) k = Some va ->
  dict_get (extract_basic_features config b) k = Some vb ->
  dict_get (extract_basic_features config (a +:+ String sep b)) k
  = Some (va + vb + (if String.eqb k "log_length" then 1 else 0)).
Proof.
  intros Hsep. rewrite !basic_feature_get.
  assert (Hd : is_digit sep = false) by (revert Hsep; ascii_cases sep).
  assert (Hu : is_upper sep = false) by (revert Hsep; ascii_cases sep).
  assert (Hl : is_lower sep = false) by (revert Hsep; ascii_cases sep).
  destruct (bool_decide (k ∈ basic_features config)); [|discriminate].
  destruct (String.eqb k "log_length").
  { intros [= <-] [= <-]. rewrite length_append. simpl String.length.
    f_equal. lia. }
  destruct (String.eqb k "word_count").
  { intros [= <-] [= <-]. unfold split_whitespace.
    rewrite runs_length_append by (simpl; now rewrite Hsep).
    rewrite runs_length_cons, Hsep. simpl. f_equal. lia. }
  destruct (String.eqb k "numeric_count").
  { intros [= <-] [= <-]. unfold findall_digits.
    rewrite runs_length_append by (simpl; exact Hd).
    rewrite runs_length_cons, Hd. simpl. f_equal. lia. }
  destruct (String.eqb k "special_char_count").
  { intros [= <-] [= <-]. unfold findall_special.
    rewrite !chars_where_length, sum_ones_append. simpl sum_ones.
    rewrite Hsep, orb_true_r. simpl. f_equal. lia. }
  destruct (String.eqb k "uppercase_count").
  { intros [= <-] [= <-]. rewrite sum_ones_append. simpl sum_ones.
    rewrite Hu. f_equal. lia. }
  destruct (String.eqb k "lowercase_count"); [|discriminate].
  intros [= <-] [= <-]. rewrite sum_ones_append. simpl sum_ones.
  rewrite Hl. f_equal. lia.
Qed.

(** Two words and a number, then one word. *)
Lemma basic_features_add_across_whitespace_witness :
  dict_get (extract_basic_features default_config "retry 3 failed") "word_count"
  = Some 3.
Proof.
  exact (basic_features_add_across_whitespace default_config "retry 3" "failed"
           " " "word_count" 2 1 eq_refl eq_refl eq_refl).
Defined.

(** *** The dict of a row *)

Lemma dict_set_new {V} (d : list (string * V)) k v :
  k ∉ d.*1 -> dict_set d k v = d ++ [(k, v)].
Proof.
  induction d as [|[k' v'] d IH]; intros Hk; [reflexivity|]. simpl in *.
  apply not_elem_of_cons in Hk as [Hne Hk].
  destruct (String.eqb_spec k' k) as [->|_]; [congruence|].
  now rewrite (IH Hk).
Qed.

Lemma dict_update_app {V} (d other : list (string * V)) :
  NoDup (d.*1 ++ other.*1) -> dict_update d other = d ++ other.
Proof.
  unfold dict_update. revert d.
  induction other as [|[k v] other IH]; intros d Hnd; simpl.
  - now rewrite app_nil_r.
  - simpl in Hnd. apply NoDup_app in Hnd as (Hd & Hdis & Ho).
    apply NoDup_cons in Ho as [Hk Ho].
    rewrite dict_set_new by (intros Hin; apply (Hdis k Hin); left).
    rewrite IH.
    + now rewrite <- app_assoc.
    + rewrite fmap_app. simpl. apply NoDup_app. split; [|split; [|exact Ho]].
      * apply NoDup_app. split; [exact Hd|]. split; [|apply NoDup_singleton].
        intros x Hx Hx'. apply list_elem_of_singleton in Hx' as ->.
        apply (Hdis k Hx). left.
      * intros x Hx Hxo. apply elem_of_app in Hx as [Hx|Hx].
        -- apply (Hdis x Hx). now right.
        -- apply list_elem_of_singleton in Hx as ->. now apply Hk.
Qed.

Lemma basic_feature_keys (config : PreprocessingConfig) (message : string) :
  sublist (extract_basic_features config message).*1 valid_features.
Proof.
  unfold extract_basic_features, valid_features.
  repeat case_bool_decide; simpl;
    repeat (apply sublist_nil || apply sublist_skip || apply sublist_cons).
Qed.

Lemma pattern_key_spelled n :
  "pattern_" +:+ n
  = String "p" (String "a" (String "t" (String "t" (String "e" (String "r"
      (String "n" (String "_" n))))))).
Proof. reflexivity. Qed.

Lemma pattern_key_not_basic n : "pattern_" +:+ n ∉ valid_features.
Proof.
  rewrite pattern_key_spelled. unfold valid_features. intros Hin.
  apply list_elem_of_In in Hin. simpl in Hin.
  intuition discriminate.
Qed.

Lemma pattern_key_inj a b : "pattern_" +:+ a = "pattern_" +:+ b -> a = b.
Proof. rewrite !pattern_key_spelled. now intros [= ->]. Qed.

Section RowFeatures.
Variable findall_count : string -> string -> result Z.

Lemma count_patterns_returns ps message acc :
  returns (count_patterns findall_count ps message acc)
  <-> Forall (fun p => returns (findall_count p.2 message)) ps.
Proof.
  revert acc. induction ps as [|[n p] ps IH]; intros acc; simpl.
  - split; [constructor | intros _; exact I].
  - rewrite Forall_cons. simpl.
    destruct (findall_count p message) as [v|e]; simpl; [|tauto].
    rewrite IH. tauto.
Qed.

Lemma count_patterns_Ok ps message acc out :
  count_patterns findall_count ps message acc = Ok out ->
  NoDup ps.*1 ->
  (forall n, n ∈ ps.*1 -> "pattern_" +:+ n ∉ acc.*1) ->
  exists l, out = acc ++ l
    /\ l.*1 = (fun n => "pattern_" +:+ n) <$> ps.*1
    /\ Forall2 (fun p kv => findall_count p.2 message = Ok kv.2) ps l.
Proof.
  revert acc. induction ps as [|[n p] ps IH]; intros acc; simpl.
  - intros [= <-] _ _. exists []. rewrite app_nil_r. repeat split. constructor.
  - destruct (findall_count p message) as [v|e] eqn:Ef; simpl; [|discriminate].
    intros Hrun [Hn Hnd]%NoDup_cons Hacc.
    rewrite dict_set_new in Hrun by (apply Hacc; left).
    destruct (IH _ Hrun Hnd) as (l & -> & Hkeys & Hall).
    + intros n' Hn'. rewrite fmap_app. simpl. intros Hin.
      apply elem_of_app in Hin as [Hin|Hin].
      * apply (Hacc n'); [now right | exact Hin].
      * apply list_elem_of_singleton, pattern_key_inj in Hin. subst n'.
        exact (Hn Hn').
    + exists (("pattern_" +:+ n, v) :: l). rewrite <- app_assoc.
      split; [reflexivity|]. split.
      { change (("pattern_" +:+ n) :: l.*1
                = ("pattern_" +:+ n)
                    :: ((fun n => "pattern_" +:+ n) <$> ps.*1)).
        now rewrite Hkeys. }
      constructor; [exact Ef | exact Hall].
Qed.

(** X12.  With pattern features off, [extract_pattern_features] gives the
    empty dict and looks at no pattern.  With them on it returns exactly
    when every pattern can be searched for, and then has one entry per
    custom pattern, keyed 'pattern_' and the pattern's name, in the order of
    the configuration, holding the number of matches.  In the dict of a row
    these entries follow the basic features: no pattern feature replaces a
    basic one, whatever the patterns are called. *)
Theorem row_features_are_basic_then_pattern (config : PreprocessingConfig)
    (message : string) :
  NoDup (custom_patterns config).*1 ->
  (returns (extract_pattern_features findall_count config message)
   <-> pattern_features config = false
       \/ Forall (fun p => returns (findall_count p.2 message))
            (custom_patterns config))
  /\ forall pattern,
       extract_pattern_features findall_count config message = Ok pattern ->
       pattern.*1
       = (if pattern_features config
          then (fun n => "pattern_" +:+ n) <$> (custom_patterns config).*1
          else [])
       /\ (pattern_features config = true ->
           Forall2 (fun p kv => findall_count p.2 message = Ok kv.2)
             (custom_patterns config) pattern)
       /\ row_features findall_count config message
          = Ok (extract_basic_features config message ++ pattern).
Proof.
  intros Hnd. split.
  { unfold extract_pattern_features.
    destruct (pattern_features config); simpl.
    - rewrite count_patterns_returns. split; [now right|].
      now intros [?|?].
    - split; [now left | intros _; exact I]. }
  intros pattern Hp.
  assert (Hshape :
    pattern.*1
    = (if pattern_features config
       then (fun n => "pattern_" +:+ n) <$> (custom_patterns config).*1
       else [])
    /\ (pattern_features config = true ->
        Forall2 (fun p kv => findall_count p.2 message = Ok kv.2)
          (custom_patterns config) pattern)).
  { unfold extract_pattern_features in Hp.
    destruct (pattern_features config); simpl in Hp.
    - destruct (count_patterns_Ok _ _ _ _ Hp Hnd) as (l & -> & Hk & Hall).
      + intros n _ Hin. inversion Hin.
      + simpl. split; [exact Hk | intros _; exact Hall].
    - injection Hp as <-. split; [reflexivity | discriminate]. }
  destruct Hshape as [Hkeys Hvals]. split; [exact Hkeys|].
  split; [exact Hvals|].
  unfold row_features. rewrite Hp. simpl. f_equal.
  pose proof (basic_feature_keys config message) as Hsub.
  assert (Hvalid : NoDup valid_features).
  { unfold valid_features. repeat constructor; intros Hin;
      apply list_elem_of_In in Hin; simpl in Hin; intuition discriminate. }
  assert (Hbasic : dict_update [] (extract_basic_features config message)
                   = extract_basic_features config message).
  { rewrite dict_update_app; [reflexivity|]. simpl.
    exact (sublist_NoDup _ _ Hvalid Hsub). }
  rewrite Hbasic. apply dict_update_app.
  apply NoDup_app. split; [|split].
  - exact (sublist_NoDup _ _ Hvalid Hsub).
  - intros k Hk Hk'. rewrite Hkeys in Hk'.
    destruct (pattern_features config); [|inversion Hk'].
    apply list_elem_of_fmap in Hk' as (n & -> & _).
    apply (pattern_key_not_basic n).
    eapply elem_of_sublist; [exact Hk | exact Hsub].
  - rewrite Hkeys. destruct (pattern_features config); [|constructor].
    apply NoDup_fmap_2; [|exact Hnd]. intros x y. apply pattern_key_inj.
Qed.

End RowFeatures.

(** The default patterns, none of which is found in the message. *)
Lemma row_features_are_basic_then_pattern_witness :
  row_features (fun _ _ => Ok 0) default_config "ready"
  = Ok [("log_length", 5); ("word_count", 1); ("numeric_count", 0);
        ("special_char_count", 0); ("uppercase_count", 0);
        ("lowercase_count", 5);
        ("pattern_error", 0); ("pattern_warning", 0);
        ("pattern_ip_address", 0); ("pattern_metrics", 0);
        ("pattern_user", 0)].
Proof.
  refine (proj2 (proj2 (proj2 (row_features_are_basic_then_pattern
                                 (fun _ _ => Ok 0) default_config "ready" _)
                          _ eq_refl))).
  simpl. repeat constructor; intros Hin; apply list_elem_of_In in Hin;
    simpl in Hin; intuition discriminate.
Defined.

(** *** The features of parsed messages *)

Lemma runs_exist p s : 1 <= sum_ones p s -> 1 <= len (runs p s).
Proof.
  induction s as [|c s IH]; [simpl; lia|].
  rewrite runs_length_cons. simpl sum_ones.
  pose proof (runs_length_bounds p s) as (H0 & _ & _).
  destruct (p c); cbn [andb].
  - intros _. destruct (starts_with p s) eqn:Hs; cbn [negb]; [|lia].
    pose proof (runs_starts_with p s Hs) as Hne. unfold len in *.
    destruct (runs p s); [congruence | simpl; lia].
  - intros Hs. specialize (IH Hs). lia.
Qed.

Lemma stripped_starts_nonspace m :
  strip m = m -> m <> "" -> exists c r, m = String c r /\ is_space c = false.
Proof.
  unfold strip. intros Hm Hne.
  destruct (lstrip_head m) as [Hl|(c & r & Hl & Hc)]; rewrite Hl in Hm.
  - simpl in Hm. congruence.
  - destruct (rstrip_cons_nonspace c r Hc) as [r' Hr].
    rewrite Hr in Hm. eauto.
Qed.

Section ParsedFeatures.
Variable re_search : string -> string -> option re_match.
Variable strptime : string -> string -> result datetime.
Variable config : PreprocessingConfig.

(** X24.  The messages that parsing hands to feature extraction are never
    empty, so the length feature of a parsed message is at least 1.  Except
    for the HDFS format, whose message may be blank, a parsed message has at
    least one word; a HealthApp message has at least the two bars that join
    its fields among its special characters. *)
Theorem parsed_messages_have_features (log_type : string)
    (logs : list string) (r : parsed_log) :
  r ∈ parse_lines re_search strptime config log_type logs ->
  exists n w k s u l,
    extract_basic_features all_basic_features (message r)
    = [("log_length", n); ("word_count", w); ("numeric_count", k);
       ("special_char_count", s); ("uppercase_count", u);
       ("lowercase_count", l)]
    /\ 1 <= n
    /\ (log_type <> "hdfs" -> 1 <= w)
    /\ (log_type = "healthapp" -> 2 <= s).
Proof.
  intros Hin. apply elem_of_parse_lines in Hin as (log & _ & Hrec).
  destruct (line_record_invariants re_search strptime config log_type log r
              Hrec) as (Hne & Hstrip & _ & Hbars).
  do 6 eexists. split; [reflexivity|].
  split; [destruct (message r); [congruence | simpl; lia]|].
  split.
  - intros Hnh. unfold split_whitespace. apply runs_exist.
    destruct (String.eqb_spec log_type "healthapp") as [Hh|Hnp].
    + destruct (Hbars Hh) as (p1 & p2 & p3 & ->).
      rewrite sum_ones_append. simpl sum_ones.
      pose proof (sum_ones_nonneg (fun c => negb (is_space c)) p1).
      pose proof (sum_ones_nonneg (fun c => negb (is_space c))
                    (p2 +:+ String "|" p3)).
      lia.
    + destruct (stripped_starts_nonspace (message r) (Hstrip Hnh Hnp) Hne)
        as (c & rest & -> & Hc).
      simpl sum_ones. rewrite Hc. simpl.
      pose proof (sum_ones_nonneg (fun c => negb (is_space c)) rest). lia.
  - intros Hh. destruct (Hbars Hh) as (p1 & p2 & p3 & ->).
    unfold findall_special. rewrite chars_where_length.
    rewrite sum_ones_append. simpl sum_ones. rewrite sum_ones_append.
    simpl sum_ones.
    set (special := fun c => negb (is_alpha c || is_digit c || is_space c)).
    pose proof (sum_ones_nonneg special p1).
    pose proof (sum_ones_nonneg special p2).
    pose proof (sum_ones_nonneg special p3).
    lia.
Qed.

End ParsedFeatures.

(** The record of the HDFS line of the scenario. *)
Lemma parsed_messages_have_features_witness :
  exists n w k s u l,
    extract_basic_features all_basic_features
      "INFO dfs.DataNode$PacketResponder: PacketResponder 1 for block blk_38865049064139660 terminating"
    = [("log_length", n); ("word_count", w); ("numeric_count", k);
       ("special_char_count", s); ("uppercase_count", u);
       ("lowercase_count", l)]
    /\ 1 <= n.
Proof.
  destruct (parsed_messages_have_features (fun _ _ => None)
              (fun _ _ => Raise ValueError) default_config "hdfs" [hdfs_line]
              {| timestamp := {| year := 2008; month := 11; day := 9;
                                 hour := 20; minute := 35; second := 18 |};
                 message := "INFO dfs.DataNode$PacketResponder: PacketResponder 1 for block blk_38865049064139660 terminating" |})
    as (n & w & k & s & u & l & Hfeat & Hn & _).
  - apply list_elem_of_here.
  - exists n, w, k, s, u, l. split; [exact Hfeat | exact Hn].
Defined.

(** ** Normalization: shape, exceptions and cached statistics *)

Lemma union_absorb_singleton `{Countable K} (X : gset K) c :
  c ∈ X -> X = X ∪ {[c]}.
Proof.
  intros Hc. apply set_eq. intros x. rewrite elem_of_union, elem_of_singleton.
  split; [tauto | intros [?| ->]; assumption].
Qed.

Lemma labels_step_subseteq `{Countable K} (X X1 X2 L : gset K) c :
  X1 = X ∪ {[c]} -> X2 ⊆ X1 ∪ L -> X2 ⊆ X ∪ ({[c]} ∪ L).
Proof.
  intros -> Hsub x Hx. apply Hsub in Hx. rewrite !elem_of_union in *. tauto.
Qed.

Lemma labels_step_eq `{Countable K} (X X1 X2 L : gset K) c :
  X1 = X ∪ {[c]} -> X2 = X1 ∪ L -> X2 = X ∪ ({[c]} ∪ L).
Proof. intros -> ->. now rewrite (assoc_L (∪)). Qed.

Section NormalizerShape.
Context {K : Type} `{Countable K}.
Context {A : Type}.
Variable zero : A.
Variables sub div : A -> A -> A.
Variable gt : A -> A -> bool.
Variables col_min col_max col_mean col_std : list A -> A.

Section AnyLoop.
Variable fit : list A -> gmap string A.
Variable apply : gmap string A -> list A -> result (list A).

Lemma fit_if_absent_dom c xs (s : gmap K (gmap string A)) :
  dom (fit_if_absent fit c xs s) = dom s ∪ {[c]}.
Proof.
  unfold fit_if_absent. destruct (s !! c) eqn:E.
  - apply elem_of_dom_2 in E. now apply union_absorb_singleton.
  - rewrite dom_insert_L. apply union_comm_L.
Qed.

(** What a run of the loop leaves, whether it ends or raises. *)
Lemma for_each_column_inv (df : list (K * list A))
    (s s' : gmap K (gmap string A)) r :
  for_each_column (column_step fit apply) df s = (s', r) ->
  dom s' ⊆ dom s ∪ list_to_set df.*1
  /\ (forall out, r = Ok out ->
        dom s' = dom s ∪ list_to_set df.*1
        /\ Forall2 (fun col res =>
             res.1 = col.1 /\
             exists d, s' !! col.1 = Some d /\ apply d col.2 = Ok res.2) df out)
  /\ (forall e, r = Raise e ->
        exists c d xs, (c, xs) ∈ df /\ s' !! c = Some d
                       /\ apply d xs = Raise e).
Proof.
  revert s s' r. induction df as [|[c xs] df IH]; intros s s' r; simpl.
  - intros [= <- <-]. split; [apply union_subseteq_l|]. split; [|discriminate].
    intros out [= <-]. split; [|constructor].
    symmetry. apply union_empty_r_L.
  - pose proof (fit_if_absent_lookup fit c xs s) as Hc.
    pose proof (fit_if_absent_dom c xs s) as Hdom.
    set (s1 := fit_if_absent fit c xs s) in *.
    rewrite Hc. simpl.
    set (d := match s !! c with Some d => d | None => fit xs end) in *.
    destruct (apply d xs) as [ys|e] eqn:Ea.
    + destruct (for_each_column _ df s1) as [s2 r2] eqn:E.
      destruct (IH _ _ _ E) as (Hsub & Hok & Hraise).
      assert (Hc2 : s2 !! c = Some d).
      { eapply lookup_weaken; [exact Hc|].
        eapply for_each_column_subseteq. exact E. }
      destruct r2 as [out|e]; intros [= <- <-].
      * destruct (Hok out eq_refl) as [Hd Hall].
        split; [exact (labels_step_subseteq _ _ _ _ _ Hdom Hsub)|].
        split; [|discriminate].
        intros out' [= <-]. split; [exact (labels_step_eq _ _ _ _ _ Hdom Hd)|].
        constructor; [|exact Hall]. simpl. split; [reflexivity|]. eauto.
      * split; [exact (labels_step_subseteq _ _ _ _ _ Hdom Hsub)|].
        split; [discriminate|].
        intros e' [= <-]. destruct (Hraise e eq_refl) as (c' & d' & xs' & Hin & Hd' & He).
        exists c', d', xs'. split; [now apply list_elem_of_further|]. eauto.
    + intros [= <- <-].
      split; [apply (labels_step_subseteq _ _ _ ∅ _ Hdom), union_subseteq_l|].
      split; [discriminate|]. intros e' [= <-].
      exists c, d, xs. split; [apply list_elem_of_here|]. eauto.
Qed.

(** A cached entry that cannot be read stops the loop. *)
Lemma for_each_column_unreadable (df : list (K * list A))
    (s : gmap K (gmap string A)) c d :
  s !! c = Some d -> c ∈ df.*1 ->
  (forall xs, raises (apply d xs)) ->
  raises (for_each_column (column_step fit apply) df s).2.
Proof.
  revert s. induction df as [|[c0 xs0] df IH]; intros s Hd Hin Hbad; simpl.
  - inversion Hin.
  - pose proof (fit_if_absent_lookup fit c0 xs0 s) as Hc.
    pose proof (fit_if_absent_subseteq fit c0 xs0 s) as Hsub.
    set (s1 := fit_if_absent fit c0 xs0 s) in *.
    rewrite Hc. simpl.
    destruct (decide (c0 = c)) as [->|Hne].
    + rewrite Hd. specialize (Hbad xs0).
      destruct (apply d xs0); [destruct Hbad | exact I].
    + destruct (apply _ xs0) as [ys|e]; [|exact I].
      simpl in Hin. apply elem_of_cons in Hin as [Heq|Hin]; [congruence|].
      specialize (IH s1 (lookup_weaken _ _ _ _ Hd Hsub) Hin Hbad).
      destruct (for_each_column _ df s1) as [s2 [out|e]]; [destruct IH | exact I].
Qed.

End AnyLoop.

Lemma minmax_apply_cases (d : gmap string A) xs :
  match minmax_apply zero sub div gt d xs with
  | Ok ys => length ys = length xs
  | Raise e => e = KeyError
  end.
Proof.
  unfold minmax_apply, getitem.
  destruct (d !! "min"); simpl; [|reflexivity].
  destruct (d !! "max"); simpl; [|reflexivity].
  destruct (gt _ _); now rewrite length_fmap.
Qed.

Lemma zscore_apply_cases (d : gmap string A) xs :
  match zscore_apply zero sub div gt d xs with
  | Ok ys => length ys = length xs
  | Raise e => e = KeyError
  end.
Proof.
  unfold zscore_apply, getitem.
  destruct (d !! "mean"); simpl; [|reflexivity].
  destruct (d !! "std"); simpl; [|reflexivity].
  destruct (gt _ _); now rewrite length_fmap.
Qed.

Lemma method_apply_cases config (d : gmap string A) xs :
  match method_apply zero sub div gt config d xs with
  | Ok ys => length ys = length xs
  | Raise e => e = KeyError
  end.
Proof.
  unfold method_apply. destruct (String.eqb _ _);
    [apply minmax_apply_cases | apply zscore_apply_cases].
Qed.

(** X13.  On a table with distinct column labels, [normalize_features]
    returns a table with the labels of the table it was given, in the same
    order, each column as long as it was, and the cache then holds the
    labels it held before and those of the table.  It raises a ValueError,
    leaving the cache as it was, exactly when the method is neither minmax
    nor zscore; any other exception is the KeyError of a cache entry that
    lacks a statistic of the method, and the cache has then grown by no
    label outside the table. *)
Theorem normalize_features_shape (config : PreprocessingConfig)
    (df : list (K * list A)) (stats : gmap K (gmap string A)) :
  NoDup df.*1 ->
  let res :=
    normalize_features zero sub div gt col_min col_max col_mean col_std
      config df stats in
  dom res.1 ⊆ dom stats ∪ list_to_set df.*1
  /\ (forall out, res.2 = Ok out ->
        out.*1 = df.*1
        /\ Forall2 (fun col res => length res.2 = length col.2) df out
        /\ dom res.1 = dom stats ∪ list_to_set df.*1)
  /\ (res.2 = Raise ValueError
      <-> normalization_method config <> "minmax"
          /\ normalization_method config <> "zscore")
  /\ (forall e, res.2 = Raise e ->
        (e = ValueError /\ res.1 = stats)
        \/ (e = KeyError
            /\ exists c d, c ∈ df.*1 /\ res.1 !! c = Some d
                 /\ (d !! "min" = None \/ d !! "max" = None
                     \/ d !! "mean" = None \/ d !! "std" = None))).
Proof.
  intros _ res.
  destruct (decide (normalization_method config = "minmax"
                    \/ normalization_method config = "zscore")) as [Hm|Hm].
  - subst res.
    rewrite (normalize_loop zero sub div gt col_min col_max col_mean col_std
               config df stats Hm).
    destruct (for_each_column _ df stats) as [s' r] eqn:E.
    destruct (for_each_column_inv _ _ _ _ _ _ E) as (Hsub & Hok & Hraise).
    simpl. split; [exact Hsub|].
    assert (Hkey : forall e, r = Raise e ->
              e = KeyError
              /\ exists c d, c ∈ df.*1 /\ s' !! c = Some d
                   /\ (d !! "min" = None \/ d !! "max" = None
                       \/ d !! "mean" = None \/ d !! "std" = None)).
    { intros e He. destruct (Hraise e He) as (c & d & xs & Hin & Hd & Ha).
      pose proof (method_apply_cases config d xs) as Hcases.
      rewrite Ha in Hcases. split; [exact Hcases|].
      exists c, d. split; [apply list_elem_of_fmap; now exists (c, xs)|].
      split; [exact Hd|].
      unfold method_apply, minmax_apply, zscore_apply, getitem in Ha.
      destruct (String.eqb _ _).
      - destruct (d !! "min"); [|tauto]. destruct (d !! "max"); [|tauto].
        discriminate.
      - destruct (d !! "mean"); [|tauto]. destruct (d !! "std"); [|tauto].
        discriminate. }
    split; [|split].
    + intros out ->. destruct (Hok out eq_refl) as [Hd Hall].
      split; [|split; [|exact Hd]].
      * clear -Hall. induction Hall as [|col res0 df out [Hl _] _ IH];
          [reflexivity|]. rewrite !fmap_cons. now rewrite Hl, IH.
      * clear -Hall. induction Hall as [|col res0 df out (_ & d & _ & Ha) _ IH];
          constructor; [|exact IH].
        pose proof (method_apply_cases config d col.2) as Hc.
        now rewrite Ha in Hc.
    + split; [|tauto]. intros He. destruct (Hkey _ He) as [[=] _].
    + intros e He. right. now apply Hkey.
  - assert (Hn1 : normalization_method config <> "minmax") by tauto.
    assert (Hn2 : normalization_method config <> "zscore") by tauto.
    assert (Hres : res = (stats, Raise ValueError)).
    { subst res. unfold normalize_features.
      apply String.eqb_neq in Hn1, Hn2. now rewrite Hn1, Hn2. }
    rewrite Hres. simpl. split; [apply union_subseteq_l|]. split; [discriminate|].
    split; [tauto|]. intros e [= <-]. now left.
Qed.

(** X14.  A preprocessor that has normalized a table by one method cannot
    normalize by the other a table that shares a column with it, both
    tables having distinct column labels: the cache entry of the shared
    column holds the statistics of the first method only, and reading those
    of the second raises a KeyError. *)
Theorem switching_method_raises_KeyError (first second : PreprocessingConfig)
    (t1 t2 : list (K * list A)) (c : K) :
  (normalization_method first = "minmax"
   /\ normalization_method second = "zscore")
  \/ (normalization_method first = "zscore"
      /\ normalization_method second = "minmax") ->
  NoDup t1.*1 -> NoDup t2.*1 -> c ∈ t1.*1 -> c ∈ t2.*1 ->
  exists s1 out1,
    normalize_features zero sub div gt col_min col_max col_mean col_std
      first t1 ∅ = (s1, Ok out1)
    /\ (normalize_features zero sub div gt col_min col_max col_mean col_std
          second t2 s1).2 = Raise KeyError.
Proof.
  intros Hm _ _ Hc1 Hc2.
  assert (Hm1 : normalization_method first = "minmax"
                \/ normalization_method first = "zscore") by tauto.
  assert (Hm2 : normalization_method second = "minmax"
                \/ normalization_method second = "zscore") by tauto.
  pose proof (method_fit_readable zero sub div gt col_min col_max col_mean
                col_std first) as Hfit.
  destruct (for_each_column_returns
              (method_fit col_min col_max col_mean col_std first)
              (method_apply zero sub div gt first) Hfit t1 ∅)
    as (s1 & out1 & Hrun1 & _ & _).
  { intros c' d' xs Hd'. rewrite lookup_empty in Hd'. discriminate. }
  exists s1, out1.
  rewrite (normalize_loop zero sub div gt col_min col_max col_mean col_std
             first t1 ∅ Hm1).
  split; [exact Hrun1|].
  (* every entry of the cache is a fit of the first method *)
  assert (Hentries : forall (df : list (K * list A)) s s' r,
            for_each_column
              (column_step (method_fit col_min col_max col_mean col_std first)
                 (method_apply zero sub div gt first)) df s = (s', r) ->
            forall c d, s' !! c = Some d ->
              s !! c = Some d
              \/ exists xs, d = method_fit col_min col_max col_mean col_std
                                  first xs).
  { clear. induction df as [|[c0 xs0] df IH]; intros s s' r; simpl.
    - intros [= <- _] c d Hd. now left.
    - assert (Hstep : forall c d,
                fit_if_absent (method_fit col_min col_max col_mean col_std first)
                  c0 xs0 s !! c = Some d ->
                s !! c = Some d
                \/ exists xs, d = method_fit col_min col_max col_mean col_std
                                    first xs).
      { intros c d. unfold fit_if_absent. destruct (s !! c0) eqn:E0; [now left|].
        destruct (decide (c0 = c)) as [->|Hne].
        - rewrite lookup_insert_eq. intros [= <-]. right. eauto.
        - rewrite lookup_insert_ne by exact Hne. now left. }
      destruct (_ ≫= _) as [ys|e].
      + destruct (for_each_column _ df _) as [s2 r2] eqn:E.
        intros Heq c d Hd.
        assert (s2 = s') as -> by (destruct r2; now injection Heq).
        destruct (IH _ _ _ E c d Hd) as [Hd1|?]; [|now right].
        now apply Hstep.
      + intros [= <- _] c d Hd. now apply Hstep. }
  apply list_elem_of_fmap in Hc1 as ([c1 xs1] & -> & Hin1). simpl in Hc2.
  assert (Hs1c : is_Some (s1 !! c1)).
  { apply elem_of_dom.
    destruct (for_each_column_inv _ _ _ _ _ _ Hrun1) as (_ & Hok & _).
    destruct (Hok out1 eq_refl) as [-> _].
    apply elem_of_union_r, elem_of_list_to_set, list_elem_of_fmap.
    now exists (c1, xs1). }
  destruct Hs1c as [d Hd].
  destruct (Hentries _ _ _ _ Hrun1 c1 d Hd) as [Hd0|[xs ->]];
    [rewrite lookup_empty in Hd0; discriminate|].
  rewrite (normalize_loop zero sub div gt col_min col_max col_mean col_std
             second t2 s1 Hm2).
  pose proof (for_each_column_unreadable
                (method_fit col_min col_max col_mean col_std second)
                (method_apply zero sub div gt second) t2 s1 c1 _ Hd Hc2) as Hbad.
  destruct (for_each_column _ t2 s1) as [s2 r2] eqn:E2. simpl in *.
  assert (Hr : raises r2).
  { apply Hbad. intros ys.
    unfold method_apply, method_fit, minmax_apply, zscore_apply, minmax_fit,
      zscore_fit, getitem.
    destruct Hm as [[-> ->]|[-> ->]]; simpl; exact I. }
  destruct r2 as [out|e]; [destruct Hr|].
  destruct (for_each_column_inv _ _ _ _ _ _ E2) as (_ & _ & Hraise).
  destruct (Hraise e eq_refl) as (c' & d' & xs' & _ & _ & Ha).
  pose proof (method_apply_cases second d' xs') as Hcases.
  rewrite Ha in Hcases. now rewrite Hcases.
Qed.

End NormalizerShape.

(** A table of two columns under the method 'minmax': the result has the
    labels and the lengths of the table, and the cache its two labels. *)
Lemma normalize_features_shape_witness :
  let df := [("a", [1; 3]%float); ("b", [2]%float)] in
  let res :=
    normalize_features fzero fsub fdiv fgt fmin fmax
      (fun _ => nan) (fun _ => nan) default_config df ∅ in
  exists out,
    res.2 = Ok out /\ out.*1 = ["a"; "b"]
    /\ Forall2 (fun col res => length res.2 = length col.2) df out
    /\ dom res.1 = {["a"; "b"]}.
Proof.
  intros df res.
  assert (Hnd : NoDup df.*1).
  { apply NoDup_cons. split; [|apply NoDup_singleton].
    intros Hin. apply list_elem_of_singleton in Hin. discriminate. }
  destruct (normalize_features_shape fzero fsub fdiv fgt fmin fmax
              (fun _ => nan) (fun _ => nan) default_config df ∅ Hnd)
    as (_ & Hok & _).
  fold res in Hok.
  assert (Hres : exists out, res.2 = Ok out) by (eexists; reflexivity).
  destruct Hres as [out Hout]. exists out.
  destruct (Hok out Hout) as (Hl & Hlen & Hdom).
  split; [exact Hout|]. split; [exact Hl|]. split; [exact Hlen|].
  rewrite Hdom. simpl. rewrite dom_empty_L.
  apply set_eq. intros x. rewrite !elem_of_union, !elem_of_singleton.
  rewrite elem_of_empty. tauto.
Defined.

(** Min-max first, z-score next, on tables that share the column 'a'. *)
Lemma switching_method_raises_KeyError_witness :
  let zscore := {| timestamp_format := "%Y-%m-%d %H:%M:%S";
                   apache_timestamp_format := "%a %b %d %H:%M:%S %Y";
                   window_size := "5min";
                   basic_features := ["log_length"];
                   pattern_features := false; custom_patterns := [];
                   normalization_method := "zscore";
                   min_logs_per_window := 1; max_logs_per_window := None;
                   window_stride := None |} in
  let normalize :=
    normalize_features fzero fsub fdiv fgt fmin fmax
      (fun _ => nan) (fun _ => nan) in
  exists s1 out1,
    normalize default_config [("a", [1; 2]%float); ("b", [3]%float)] ∅
    = (s1, Ok out1)
    /\ (normalize zscore [("a", [5; 6]%float)] s1).2 = Raise KeyError.
Proof.
  intros zscore normalize.
  apply (switching_method_raises_KeyError fzero fsub fdiv fgt fmin fmax
           (fun _ => nan) (fun _ => nan) default_config zscore
           [("a", [1; 2]%float); ("b", [3]%float)] [("a", [5; 6]%float)] "a").
  - left. split; reflexivity.
  - apply NoDup_cons. split; [|apply NoDup_singleton].
    intros Hin. apply list_elem_of_singleton in Hin. discriminate.
  - apply NoDup_singleton.
  - apply list_elem_of_here.
  - apply list_elem_of_here.
Defined.

(** *** Normalizing the same table again *)

Lemma subseteq_dom_eq `{Countable K} {V} (m1 m2 : gmap K V) :
  m1 ⊆ m2 -> dom m2 ⊆ dom m1 -> m2 = m1.
Proof.
  intros Hsub Hdom. apply map_eq. intros k.
  destruct (m1 !! k) as [v|] eqn:E1.
  - exact (lookup_weaken _ _ _ _ E1 Hsub).
  - destruct (m2 !! k) as [v|] eqn:E2; [|reflexivity].
    apply elem_of_dom_2, Hdom, elem_of_dom in E2 as [v' E2].
    rewrite E1 in E2. discriminate.
Qed.

Lemma Forall2_functional {X Y} (R : X -> Y -> Prop) (l : list X)
    (a b : list Y) :
  (forall x y y', R x y -> R x y' -> y = y') ->
  Forall2 R l a -> Forall2 R l b -> a = b.
Proof.
  intros Hfun Ha. revert b.
  induction Ha as [|x y l a Hxy _ IH]; intros b Hb.
  - now inversion Hb.
  - inversion Hb as [|x' y' l' b' Hxy' Hb']; subst.
    f_equal; [exact (Hfun _ _ _ Hxy Hxy') | now apply IH].
Qed.

Section NormalizeAgain.
Context {K : Type} `{Countable K}.
Context {A : Type}.
Variable zero : A.
Variables sub div : A -> A -> A.
Variable gt : A -> A -> bool.
Variables col_min col_max col_mean col_std : list A -> A.

(** X23.  Normalizing a table a second time on the same preprocessor gives
    the table the first call gave and leaves the cache as the first call
    left it: the second call takes every statistic from the cache. *)
Theorem normalizing_again_changes_nothing (config : PreprocessingConfig)
    (df out : list (K * list A)) (stats stats1 : gmap K (gmap string A)) :
  normalize_features zero sub div gt col_min col_max col_mean col_std
    config df stats = (stats1, Ok out) ->
  normalize_features zero sub div gt col_min col_max col_mean col_std
    config df stats1 = (stats1, Ok out).
Proof.
  intros Hrun.
  destruct (decide (normalization_method config = "minmax"
                    \/ normalization_method config = "zscore")) as [Hm|Hm].
  2:{ exfalso. unfold normalize_features in Hrun.
      destruct (String.eqb_spec (normalization_method config) "minmax");
        [tauto|].
      destruct (String.eqb_spec (normalization_method config) "zscore");
        [tauto | discriminate]. }
  rewrite (normalize_loop zero sub div gt col_min col_max col_mean col_std
             config df stats Hm) in Hrun.
  rewrite (normalize_loop zero sub div gt col_min col_max col_mean col_std
             config df stats1 Hm).
  destruct (for_each_column_inv _ _ _ _ _ _ Hrun) as (_ & Hok1 & _).
  destruct (Hok1 out eq_refl) as [Hdom1 Hall1].
  destruct (for_each_column _ df stats1) as [s2 r2] eqn:Hrun2.
  pose proof (for_each_column_subseteq _ _ _ _ _ _ Hrun2) as Hsub.
  destruct (for_each_column_inv _ _ _ _ _ _ Hrun2) as (Hdom2 & Hok2 & Hraise2).
  assert (Hs2 : s2 = stats1).
  { apply subseteq_dom_eq; [exact Hsub|].
    intros k Hk. apply Hdom2 in Hk. rewrite Hdom1.
    rewrite Hdom1 in Hk. rewrite !elem_of_union in *. tauto. }
  subst s2. f_equal. destruct r2 as [out2|e].
  - f_equal. destruct (Hok2 out2 eq_refl) as [_ Hall2].
    refine (Forall2_functional _ _ _ _ _ Hall2 Hall1).
    intros [c xs] [c1 ys1] [c2 ys2]. cbn [fst snd].
    intros (-> & d1 & Hd1 & Ha1) (-> & d2 & Hd2 & Ha2).
    pose proof (eq_trans (eq_sym Hd1) Hd2) as [= ->].
    pose proof (eq_trans (eq_sym Ha1) Ha2) as [= ->]. reflexivity.
  - exfalso. destruct (Hraise2 e eq_refl) as (c & d & xs & Hin & Hd & Ha).
    apply list_elem_of_lookup in Hin as [i Hi].
    destruct (Forall2_lookup_l _ _ _ _ _ Hall1 Hi)
      as ([c' ys] & _ & _ & d' & Hd' & Ha').
    cbn [fst snd] in *.
    pose proof (eq_trans (eq_sym Hd) Hd') as [= ->].
    pose proof (eq_trans (eq_sym Ha) Ha') as [=].
Qed.

End NormalizeAgain.

(** A column of two values, normalized twice. *)
Lemma normalizing_again_changes_nothing_witness :
  let normalize :=
    normalize_features fzero fsub fdiv fgt fmin fmax
      (fun _ => nan) (fun _ => nan) default_config in
  let df := [("a", [1; 3]%float)] in
  exists stats1 out,
    normalize df ∅ = (stats1, Ok out)
    /\ normalize df stats1 = (stats1, Ok out).
Proof.
  intros normalize df.
  destruct (for_each_column_returns (K:=string)
              (method_fit fmin fmax (fun _ => nan) (fun _ => nan)
                 default_config)
              (method_apply fzero fsub fdiv fgt default_config)
              (method_fit_readable fzero fsub fdiv fgt fmin fmax
                 (fun _ => nan) (fun _ => nan) default_config) df ∅)
    as (stats1 & out & Hrun & _).
  { intros c d xs Hd. rewrite lookup_empty in Hd. discriminate Hd. }
  exists stats1, out.
  assert (Hfirst : normalize df ∅ = (stats1, Ok out)).
  { unfold normalize.
    rewrite (normalize_loop fzero fsub fdiv fgt fmin fmax (fun _ => nan)
               (fun _ => nan) default_config df ∅ (or_introl eq_refl)).
    exact Hrun. }
  split; [exact Hfirst|].
  exact (normalizing_again_changes_nothing fzero fsub fdiv fgt fmin fmax
           (fun _ => nan) (fun _ => nan) default_config df out ∅ stats1
           Hfirst).
Defined.

(** ** One column at a time *)

Section ColumnsApart.
Context {K : Type} `{Countable K}.
Context {A : Type}.
Variable zero : A.
Variables sub div : A -> A -> A.
Variable gt : A -> A -> bool.
Variables col_min col_max col_mean col_std : list A -> A.

(** X27.  In a table with distinct labels every column is normalized on
    its own: normalizing the table, or the column alone as a table of one
    column, from the same cache gives the same normalized column and
    leaves the same cache entry for its label.  The other columns of the
    table play no part in it. *)
Theorem columns_are_normalized_independently (config : PreprocessingConfig)
    (df out : list (K * list A)) (stats stats' : gmap K (gmap string A))
    (c : K) (xs : list A) :
  NoDup df.*1 -> (c, xs) ∈ df ->
  normalize_features zero sub div gt col_min col_max col_mean col_std
    config df stats = (stats', Ok out) ->
  exists stats1 ys,
    normalize_features zero sub div gt col_min col_max col_mean col_std
      config [(c, xs)] stats = (stats1, Ok [(c, ys)])
    /\ (c, ys) ∈ out
    /\ stats1 !! c = stats' !! c.
Proof.
  intros Hnd Hin Hrun.
  destruct (decide (normalization_method config = "minmax"
                    \/ normalization_method config = "zscore")) as [Hm|Hm].
  2:{ exfalso. unfold normalize_features in Hrun.
      destruct (String.eqb_spec (normalization_method config) "minmax");
        [tauto|].
      destruct (String.eqb_spec (normalization_method config) "zscore");
        [tauto | discriminate]. }
  rewrite (normalize_loop zero sub div gt col_min col_max col_mean col_std
             config df stats Hm) in Hrun.
  rewrite (normalize_loop zero sub div gt col_min col_max col_mean col_std
             config [(c, xs)] stats Hm).
  set (fit := method_fit col_min col_max col_mean col_std config) in *.
  set (apply := method_apply zero sub div gt config) in *.
  set (d := match stats !! c with Some d => d | None => fit xs end).
  assert (Hc : stats' !! c = Some d).
  { subst d. destruct (stats !! c) as [d0|] eqn:E0.
    - eapply lookup_weaken; [exact E0|].
      eapply for_each_column_subseteq. exact Hrun.
    - eapply for_each_column_fits; [exact Hrun | exact Hnd | exact Hin | exact E0]. }
  destruct (for_each_column_inv _ _ _ _ _ _ Hrun) as (_ & Hok & _).
  destruct (Hok out eq_refl) as [_ Hall].
  pose proof Hin as Hin'. apply list_elem_of_lookup in Hin' as [i Hi].
  destruct (Forall2_lookup_l _ _ _ _ _ Hall Hi)
    as ([c' ys] & Hout & Hlabel & d' & Hd' & Happly).
  cbn [fst snd] in *. subst c'.
  pose proof (eq_trans (eq_sym Hd') Hc) as [= ->].
  exists (fit_if_absent fit c xs stats), ys.
  pose proof (fit_if_absent_lookup fit c xs stats) as Hlook. fold d in Hlook.
  split; [|split].
  - simpl. rewrite Hlook. simpl. now rewrite Happly.
  - apply list_elem_of_lookup. now exists i.
  - now rewrite Hlook, Hc.
Qed.

End ColumnsApart.

(** The column 'a' of a table of two columns. *)
Lemma columns_are_normalized_independently_witness :
  let normalize :=
    normalize_features fzero fsub fdiv fgt fmin fmax
      (fun _ => nan) (fun _ => nan) default_config in
  let a := [1; 3]%float in
  exists stats' out stats1 ys,
    normalize [("a", a); ("b", [7]%float)] ∅ = (stats', Ok out)
    /\ normalize [("a", a)] ∅ = (stats1, Ok [("a", ys)])
    /\ ("a", ys) ∈ out.
Proof.
  intros normalize a.
  destruct (for_each_column_returns (K:=string)
              (method_fit fmin fmax (fun _ => nan) (fun _ => nan)
                 default_config)
              (method_apply fzero fsub fdiv fgt default_config)
              (method_fit_readable fzero fsub fdiv fgt fmin fmax
                 (fun _ => nan) (fun _ => nan) default_config)
              [("a", a); ("b", [7]%float)] ∅)
    as (stats' & out & Hrun & _).
  { intros c d xs Hd. rewrite lookup_empty in Hd. discriminate Hd. }
  assert (Hfirst : normalize [("a", a); ("b", [7]%float)] ∅
                   = (stats', Ok out)).
  { unfold normalize.
    rewrite (normalize_loop fzero fsub fdiv fgt fmin fmax (fun _ => nan)
               (fun _ => nan) default_config _ ∅ (or_introl eq_refl)).
    exact Hrun. }
  destruct (columns_are_normalized_independently fzero fsub fdiv fgt fmin fmax
              (fun _ => nan) (fun _ => nan) default_config
              [("a", a); ("b", [7]%float)] out ∅ stats' "a" a)
    as (stats1 & ys & Halone & Hin & _).
  - simpl. repeat constructor.
    + intros Hin. apply list_elem_of_singleton in Hin. discriminate Hin.
    + intros Hin. inversion Hin.
  - apply list_elem_of_here.
  - exact Hfirst.
  - exists stats', out, stats1, ys. split; [exact Hfirst|].
    split; [exact Halone | exact Hin].
Defined.

(** ** Min-max normalization of a column with missing cells *)

Lemma SFcompare_refl (x : spec_float) :
  x <> S754_nan -> SFcompare x x = Some Eq.
Proof.
  destruct x as [s|s| |s m e]; intros Hx; [reflexivity | | congruence|].
  - now destruct s.
  - simpl. rewrite Z.compare_refl, Pos.compare_cont_refl. now destruct s.
Qed.

(** A float is NaN exactly when it differs from itself. *)
Lemma is_nan_spec (x : float) : is_nan x = true <-> Prim2SF x = S754_nan.
Proof.
  unfold is_nan. rewrite FloatAxioms.eqb_spec. unfold SFeqb. split.
  - intros Hn. destruct (Prim2SF x) eqn:E; try reflexivity;
      rewrite SFcompare_refl in Hn by discriminate; discriminate.
  - now intros ->.
Qed.

Lemma float_ltb_irrefl (x : float) : (x <? x)%float = false.
Proof.
  rewrite ltb_spec. unfold SFltb.
  destruct (Prim2SF x) eqn:E; try reflexivity;
    now rewrite SFcompare_refl by discriminate.
Qed.

(** NaN propagates through the subtraction and the division. *)
Lemma fsub_nan (x y : float) : is_nan x = true -> is_nan (fsub x y) = true.
Proof.
  rewrite !is_nan_spec. intros Hx. unfold fsub. now rewrite sub_spec, Hx.
Qed.

Lemma fdiv_nan (x y : float) : is_nan x = true -> is_nan (fdiv x y) = true.
Proof.
  rewrite !is_nan_spec. intros Hx. unfold fdiv. now rewrite div_spec, Hx.
Qed.

(** The minimum and the maximum of a column whose present cells are one
    and the same float are that float, or NaN when no cell is present. *)
Lemma constant_column_not_gt (xs : list float) :
  (forall a b, a ∈ dropna xs -> b ∈ dropna xs -> a = b) ->
  fgt (fmax xs) (fmin xs) = false.
Proof.
  unfold fmin, fmax, fgt. destruct (dropna xs) as [|x l]; [reflexivity|].
  intros Heq.
  assert (Hall : Forall (eq x) l).
  { apply Forall_forall. intros y Hy.
    apply Heq; [apply list_elem_of_here | now apply list_elem_of_further]. }
  assert (Hfold : forall f : float -> float -> float,
            f x x = x -> foldl f x l = x).
  { intros f Hf. clear Heq. induction Hall as [|y l <- _ IH]; [reflexivity|].
    simpl. now rewrite Hf. }
  rewrite !Hfold; [apply float_ltb_irrefl | |];
    now destruct (x <? x)%float.
Qed.

(** X15.  In a table with distinct column labels, a column whose minimum
    and maximum are cached is rescaled with the cached numbers, not with
    its own: the cache entry stays as it is, and when the cached maximum is
    greater than the cached minimum every cell becomes its difference to
    the minimum divided by the difference of maximum and minimum, in float
    arithmetic, a NaN cell staying NaN; otherwise every cell becomes 0.
    Nothing is clipped to the unit interval. *)
Theorem cached_minmax_rescales_without_clipping
    (df : list (string * list float))
    (stats stats' : gmap string (gmap string float))
    (out : list (string * list float)) (d : gmap string float)
    (i : nat) (c : string) (xs : list float) (mn mx : float) :
  NoDup df.*1 ->
  minmax_normalize_floats df stats = (stats', Ok out) ->
  stats !! c = Some d ->
  d !! "min" = Some mn -> d !! "max" = Some mx ->
  df !! i = Some (c, xs) ->
  stats' !! c = Some d
  /\ out !! i
     = Some (c, if fgt mx mn
                then (fun x => fdiv (fsub x mn) (fsub mx mn)) <$> xs
                else (fun _ => 0%float) <$> xs)
  /\ (forall x, is_nan x = true ->
        is_nan (fdiv (fsub x mn) (fsub mx mn)) = true).
Proof.
  intros _ Hrun Hc Hmin Hmax Hi.
  unfold minmax_normalize_floats, _minmax_normalize in Hrun.
  rewrite minmax_column_step in Hrun.
  pose proof (for_each_column_subseteq _ _ _ _ _ _ Hrun) as Hsub.
  destruct (for_each_column_inv _ _ _ _ _ _ Hrun) as (_ & Hok & _).
  destruct (Hok out eq_refl) as [_ Hall].
  assert (Hc' : stats' !! c = Some d) by (eapply lookup_weaken; eassumption).
  split; [exact Hc'|].
  split; [|intros x Hx; now apply fdiv_nan, fsub_nan].
  destruct (Forall2_lookup_l _ _ _ _ _ Hall Hi)
    as ([c' ys] & Hout & Hlabel & d' & Hd' & Happly).
  cbn [fst snd] in *. subst c'. etrans; [exact Hout|]. do 2 f_equal.
  rewrite Hc' in Hd'. injection Hd' as <-.
  unfold minmax_apply, getitem in Happly.
  rewrite Hmin, Hmax in Happly. simpl in Happly.
  now injection Happly as <-.
Qed.

(** Statistics taken from values between 0 and 10, applied to 20 and to a
    missing cell: 20 becomes 2. *)
Lemma cached_minmax_rescales_without_clipping_witness :
  let stats : gmap string (gmap string float) :=
    {[ "a" := {[ "min" := 0%float; "max" := 10%float ]} ]} in
  exists out,
    minmax_normalize_floats [("a", [20; nan]%float)] stats = (stats, Ok out)
    /\ out !! 0%nat = Some ("a", [2; nan]%float)
    /\ (2 <=? 1)%float = false.
Proof.
  intros stats.
  assert (Hrun : minmax_normalize_floats [("a", [20; nan]%float)] stats
                 = (stats, Ok [("a", [2; nan]%float)]))
    by (vm_compute; reflexivity).
  destruct (cached_minmax_rescales_without_clipping
              [("a", [20; nan]%float)] stats stats _
              {[ "min" := 0%float; "max" := 10%float ]}
              0 "a" [20; nan]%float 0%float 10%float
              (NoDup_singleton _) Hrun)
    as (_ & Hout & _); [reflexivity | reflexivity | reflexivity | reflexivity |].
  eexists. split; [exact Hrun|]. split; [exact Hout | reflexivity].
Defined.

(** X16.  Missing cells under min-max normalization with an empty cache, on
    a table with distinct column labels: the cached minimum and maximum are
    those of the cells that are not NaN.  When the maximum is greater than
    the minimum, every cell becomes its difference to the minimum divided
    by the difference of maximum and minimum, in float arithmetic, and a
    NaN cell stays NaN.  In a column whose present cells are all the same
    float, or that has none, every cell becomes 0, the NaN cells too. *)
Theorem minmax_normalize_missing_cells (df : list (string * list float))
    (c : string) (xs : list float) :
  NoDup df.*1 -> (c, xs) ∈ df ->
  exists stats' out ys,
    minmax_normalize_floats df ∅ = (stats', Ok out)
    /\ (c, ys) ∈ out
    /\ length ys = length xs
    /\ stats' !! c = Some {["min" := fmin xs; "max" := fmax xs]}
    /\ (fgt (fmax xs) (fmin xs) = true ->
        forall j x, xs !! j = Some x ->
          exists y, ys !! j = Some y
            /\ y = fdiv (fsub x (fmin xs)) (fsub (fmax xs) (fmin xs))
            /\ (is_nan x = true -> is_nan y = true))
    /\ ((forall a b, a ∈ dropna xs -> b ∈ dropna xs -> a = b) ->
        ys = (fun _ => 0%float) <$> xs).
Proof.
  intros Hnd Hin.
  pose proof (minmax_fit_readable fzero fsub fdiv fgt fmin fmax) as Hfit.
  destruct (for_each_column_returns (K:=string)
              (minmax_fit fmin fmax) (minmax_apply fzero fsub fdiv fgt)
              Hfit df ∅) as (s' & out & Hrun & _ & Hall).
  { intros c' d' ys Hd'. rewrite lookup_empty in Hd'. discriminate. }
  assert (Hc : s' !! c = Some (minmax_fit fmin fmax xs)).
  { eapply for_each_column_fits;
      [exact Hrun | exact Hnd | exact Hin | apply lookup_empty]. }
  apply list_elem_of_lookup in Hin as [i Hi].
  destruct (Forall2_lookup_l _ _ _ _ _ Hall Hi)
    as ([c' ys] & Hout & Hlabel & d & Hd & Happly).
  cbn [fst snd] in *. subst c'.
  pose proof (eq_trans (eq_sym Hd) Hc) as [= ->].
  exists s', out, ys.
  split; [exact Hrun|].
  split; [apply list_elem_of_lookup; now exists i|].
  unfold minmax_apply, minmax_fit, getitem in Happly.
  rewrite lookup_insert_eq in Happly. simpl in Happly.
  rewrite lookup_insert_ne in Happly by discriminate.
  rewrite lookup_singleton_eq in Happly. simpl in Happly.
  injection Happly as Hys.
  split; [rewrite <- Hys; destruct (fgt _ _); apply length_fmap|].
  split; [exact Hc|].
  split.
  - intros Hgt j x Hj. rewrite Hgt in Hys. subst ys.
    rewrite list_lookup_fmap, Hj. simpl. eexists. split; [reflexivity|].
    split; [reflexivity|]. intros Hx. now apply fdiv_nan, fsub_nan.
  - intros Heq. rewrite (constant_column_not_gt xs Heq) in Hys.
    now rewrite <- Hys.
Qed.

(** A column with a missing cell between 4 and 8, and a column whose only
    present value is 5. *)
Lemma minmax_normalize_missing_cells_witness :
  exists stats' out,
    minmax_normalize_floats
      [("varying", [4; nan; 8]%float); ("constant", [5; nan]%float)] ∅
    = (stats', Ok out)
    /\ ("constant", [0; 0]%float) ∈ out.
Proof.
  destruct (minmax_normalize_missing_cells
              [("varying", [4; nan; 8]%float); ("constant", [5; nan]%float)]
              "constant" [5; nan]%float)
    as (stats' & out & ys & Hrun & Hin & _ & _ & _ & Hconst).
  - apply NoDup_cons. split; [|apply NoDup_singleton].
    intros Hin. apply list_elem_of_singleton in Hin. discriminate.
  - apply list_elem_of_further, list_elem_of_here.
  - exists stats', out. split; [exact Hrun|].
    rewrite Hconst in Hin; [exact Hin|].
    intros a b Ha Hb.
    apply list_elem_of_singleton in Ha as ->.
    apply list_elem_of_singleton in Hb as ->. reflexivity.
Defined.

(** ** Z-score normalization of a float column *)

Lemma nan_not_gt (s z : float) : is_nan s = true -> fgt s z = false.
Proof.
  rewrite is_nan_spec. intros Hs. unfold fgt. rewrite ltb_spec, Hs.
  unfold SFltb. now destruct (Prim2SF z).
Qed.

Section ZScoreCells.
(** [Series.mean()] and [Series.std()] of a float column. *)
Variables col_mean col_std : list float -> float.

(** X17.  Z-score normalization from an empty cache of a float column, in a
    table with distinct column labels: the cache gets the mean and the
    standard deviation pandas computes for the column.  When the standard
    deviation is greater than 0, every cell becomes its difference to the
    mean divided by the standard deviation, in float arithmetic, and a NaN
    cell stays NaN.  Otherwise every cell becomes 0; so it is when the
    standard deviation is NaN, as pandas gives it for a column of one
    row. *)
Theorem zscore_normalize_cells (df : list (string * list float))
    (c : string) (xs : list float) :
  NoDup df.*1 -> (c, xs) ∈ df ->
  exists stats' out ys,
    _zscore_normalize fzero fsub fdiv fgt col_mean col_std df ∅
    = (stats', Ok out)
    /\ (c, ys) ∈ out
    /\ length ys = length xs
    /\ stats' !! c = Some {["mean" := col_mean xs; "std" := col_std xs]}
    /\ (fgt (col_std xs) 0 = true ->
        forall j x, xs !! j = Some x ->
          exists y, ys !! j = Some y
            /\ y = fdiv (fsub x (col_mean xs)) (col_std xs)
            /\ (is_nan x = true -> is_nan y = true))
    /\ (fgt (col_std xs) 0 = false -> ys = (fun _ => 0%float) <$> xs)
    /\ (is_nan (col_std xs) = true -> ys = (fun _ => 0%float) <$> xs).
Proof.
  intros Hnd Hin.
  pose proof (zscore_fit_readable fzero fsub fdiv fgt col_mean col_std) as Hfit.
  destruct (for_each_column_returns (K:=string)
              (zscore_fit col_mean col_std) (zscore_apply fzero fsub fdiv fgt)
              Hfit df ∅) as (s' & out & Hrun & _ & Hall).
  { intros c' d' ys Hd'. rewrite lookup_empty in Hd'. discriminate. }
  assert (Hc : s' !! c = Some (zscore_fit col_mean col_std xs)).
  { eapply for_each_column_fits;
      [exact Hrun | exact Hnd | exact Hin | apply lookup_empty]. }
  apply list_elem_of_lookup in Hin as [i Hi].
  destruct (Forall2_lookup_l _ _ _ _ _ Hall Hi)
    as ([c' ys] & Hout & Hlabel & d & Hd & Happly).
  cbn [fst snd] in *. subst c'.
  pose proof (eq_trans (eq_sym Hd) Hc) as [= ->].
  exists s', out, ys.
  split; [exact Hrun|].
  split; [apply list_elem_of_lookup; now exists i|].
  unfold zscore_apply, zscore_fit, getitem in Happly.
  rewrite lookup_insert_eq in Happly. simpl in Happly.
  rewrite lookup_insert_ne in Happly by discriminate.
  rewrite lookup_singleton_eq in Happly. simpl in Happly.
  injection Happly as Hys.
  split; [rewrite <- Hys; destruct (fgt _ _); apply length_fmap|].
  split; [exact Hc|].
  assert (Hzero : fgt (col_std xs) 0 = false -> ys = (fun _ => 0%float) <$> xs).
  { intros Hgt. unfold fzero in Hys. rewrite Hgt in Hys. now rewrite <- Hys. }
  split; [|split; [exact Hzero|]].
  - intros Hgt j x Hj. unfold fzero in Hys. rewrite Hgt in Hys. subst ys.
    rewrite list_lookup_fmap, Hj. simpl. eexists. split; [reflexivity|].
    split; [reflexivity|]. intros Hx. now apply fdiv_nan, fsub_nan.
  - intros Hnan. apply Hzero. now apply nan_not_gt.
Qed.

End ZScoreCells.

(** A column of one row, whose standard deviation is NaN: the row becomes
    0. *)
Lemma zscore_normalize_cells_witness :
  exists stats' out,
    _zscore_normalize fzero fsub fdiv fgt
      (fun _ => 7%float) (fun _ => nan) [("a", [7]%float)] ∅
    = (stats', Ok out)
    /\ ("a", [0]%float) ∈ out.
Proof.
  destruct (zscore_normalize_cells (fun _ => 7%float) (fun _ => nan)
              [("a", [7]%float)] "a" [7]%float)
    as (stats' & out & ys & Hrun & Hin & _ & _ & _ & _ & Hnan).
  - apply NoDup_singleton.
  - apply list_elem_of_here.
  - exists stats', out. split; [exact Hrun|].
    rewrite Hnan in Hin; [exact Hin | reflexivity].
Defined.

(** ** The table [create_time_windows] returns *)

Lemma last_elem_of (r0 : feature_row) (l : list feature_row) :
  List.last (r0 :: l) r0 ∈ r0 :: l.
Proof.
  revert r0. induction l as [|x l IH]; intros r0; [apply list_elem_of_here|].
  change (List.last (r0 :: x :: l) r0) with (List.last (x :: l) r0).
  rewrite (last_nonempty_default l x r0 x). apply list_elem_of_further, IH.
Qed.

(** What [create_time_windows] returns, when it returns. *)
Lemma create_time_windows_inv to_offset config df out :
  create_time_windows to_offset config df = Ok out ->
  exists w,
    to_offset (window_size config) = Ok w /\ 0 < w
    /\ valid_windows config w (table_rows df) <> []
    /\ out = (fun bin => (bin.1, aggregate (length (numeric_cols df)) bin.2))
               <$> resample w (concat (valid_windows config w (table_rows df))).
Proof.
  intros Hrun. unfold create_time_windows in Hrun.
  destruct (to_offset (window_size config)) as [w|e]; simpl in Hrun;
    [|discriminate].
  destruct (Z.eqb_spec w 0) as [|Hw0]; [discriminate|].
  destruct (Z.ltb_spec w 0) as [|E]; [discriminate|].
  assert (0 < w) by lia. clear E Hw0.
  destruct (valid_windows config w (table_rows df)) as [|v vs] eqn:Ev;
    [discriminate|].
  destruct (numeric_cols df) as [|c cs] eqn:Ec; [discriminate|].
  injection Hrun as <-. exists w. rewrite Ev.
  repeat split; [assumption | discriminate].
Qed.

Section ResultIndex.
Variable config : PreprocessingConfig.
Hypothesis Hlimits : limits_ok config.

(** A row of the kept windows is a row of the table, in the candidate
    window it was kept with. *)
Lemma df_windows_row w rows r :
  r ∈ concat (valid_windows config w rows) ->
  r ∈ sort_rows rows
  /\ exists e win kept,
       (e, win) ∈ resample w rows /\ keep_window config win = Some kept
       /\ r ∈ kept /\ in_bin w e r.
Proof.
  intros Hr. apply elem_of_df_windows in Hr as (e & win & kept & Hin & Hk & Hrk).
  pose proof (keep_window_elem_of config Hlimits win kept r Hk Hrk) as Hrw.
  pose proof Hin as Hin'.
  apply elem_of_resample in Hin' as [He ->].
  apply list_elem_of_filter in Hrw as [Hb Hrs].
  split; [exact Hrs|]. exists e, (filter (in_bin w e) (sort_rows rows)), kept.
  split; [exact Hin|]. split; [exact Hk|]. split; [exact Hrk | exact Hb].
Qed.

(** A candidate window that is not kept leaves no row in its bin. *)
Lemma regroup_dropped w rows e win :
  0 < w ->
  (e, win) ∈ resample w rows -> keep_window config win = None ->
  filter (in_bin w e) (sort_rows (concat (valid_windows config w rows))) = [].
Proof.
  intros Hw Hin Hdrop. apply filter_none. intros r Hr Hb.
  rewrite sort_rows_elem_of in Hr.
  apply df_windows_row in Hr as (_ & e' & win' & kept' & Hin' & Hk' & _ & Hb').
  apply elem_of_resample in Hin as [He ->].
  apply elem_of_resample in Hin' as [He' ->].
  assert (e = e') as <-.
  { eapply (bin_labels_disjoint w (sort_rows rows) e e' (ts r));
      [exact Hw | apply sort_rows_sorted | exact He | exact He'
      | exact Hb | exact Hb']. }
  congruence.
Qed.

(** When the window divides the day, the labels of the regrouped table are
    the multiples of the window from the bin of its first row to the bin of
    its last row, and each is the label of a candidate window. *)
Lemma regrouped_labels w rows (r0 : feature_row) l :
  0 < w -> seconds_per_day mod w = 0 ->
  sort_rows (concat (valid_windows config w rows)) = r0 :: l ->
  let first := w * (ts r0 / w) in
  let last := w * (ts (List.last (r0 :: l) r0) / w) in
  (forall e,
     e ∈ bin_labels w (r0 :: l)
     <-> e ∈ bin_labels w (sort_rows rows) /\ first <= e <= last)
  /\ (exists win kept, (first, win) ∈ resample w rows
        /\ keep_window config win = Some kept)
  /\ (exists win kept, (last, win) ∈ resample w rows
        /\ keep_window config win = Some kept).
Proof.
  intros Hw Hdiv ES first last.
  pose proof (sort_rows_sorted (concat (valid_windows config w rows))) as Hs'.
  rewrite ES in Hs'.
  pose proof (sort_rows_sorted rows) as Hs.
  assert (Hrow : forall r, r ∈ r0 :: l ->
            r ∈ sort_rows rows
            /\ exists win kept, (w * (ts r / w), win) ∈ resample w rows
                 /\ keep_window config win = Some kept).
  { intros r Hr. rewrite <- ES, sort_rows_elem_of in Hr.
    apply df_windows_row in Hr as (Hrs & e & win & kept & Hin & Hk & _ & Hb).
    split; [exact Hrs|]. exists win, kept. split; [|exact Hk].
    pose proof Hin as Hin'. apply elem_of_resample in Hin' as [He _].
    destruct (sort_rows rows) as [|q0 ql] eqn:EQ; [inversion He|].
    apply (elem_of_bin_labels_aligned w q0 ql e Hw Hdiv Hs) in He
      as (m & _ & ->).
    unfold in_bin in Hb.
    assert (Hm : m = ts r / w)
      by (apply (Z.div_unique_pos (ts r) w m (ts r - w * m)); lia).
    now rewrite <- Hm. }
  destruct (Hrow r0 (list_elem_of_here _ _)) as [Hr0 Hfirst].
  destruct (Hrow _ (last_elem_of r0 l)) as [Hrl Hlast].
  split; [|split; [exact Hfirst | exact Hlast]].
  destruct (sort_rows rows) as [|q0 ql] eqn:EQ; [inversion Hr0|].
  pose proof (sorted_bounds q0 ql r0 Hs Hr0) as [Hlo0 Hhi0].
  pose proof (sorted_bounds q0 ql _ Hs Hrl) as [Hlol Hhil].
  pose proof (sorted_bounds r0 l _ Hs' (last_elem_of r0 l)) as [Hle _].
  intros e.
  rewrite (elem_of_bin_labels_aligned w r0 l e Hw Hdiv Hs').
  rewrite (elem_of_bin_labels_aligned w q0 ql e Hw Hdiv Hs).
  subst first last. split.
  - intros (m & [Hm1 Hm2] & ->). split.
    + exists m. split; [|reflexivity]. split.
      * etrans; [|exact Hm1]. apply Z.div_le_mono; lia.
      * etrans; [exact Hm2|]. apply Z.div_le_mono; lia.
    + split; apply Z.mul_le_mono_nonneg_l; lia.
  - intros [(m & _ & ->) [H1 H2]]. exists m. split; [|reflexivity].
    split; nia.
Qed.

End ResultIndex.

Section ResultTable.
Variable to_offset : string -> result Z.
Variable config : PreprocessingConfig.

(** X18.  When the limits passed validation and the window divides the
    day, the index of the table [create_time_windows] returns is made of
    the candidate windows from the first kept one to the last kept one, all
    of them, in steps of the window size.  The row of a kept window holds
    the aggregates of the rows retained of it; the row of a window in
    between that was not kept holds the aggregates of no rows. *)
Theorem result_index_spans_kept_windows (df : feature_table) (w : Z)
    (out : window_table) :
  limits_ok config ->
  to_offset (window_size config) = Ok w -> seconds_per_day mod w = 0 ->
  create_time_windows to_offset config df = Ok out ->
  let candidates := resample w (table_rows df) in
  let retained win :=
    match keep_window config win with Some kept => kept | None => [] end in
  (exists first last,
      (exists win kept, (first, win) ∈ candidates
         /\ keep_window config win = Some kept)
      /\ (exists win kept, (last, win) ∈ candidates
            /\ keep_window config win = Some kept)
      /\ forall e, e ∈ out.*1 <-> e ∈ candidates.*1 /\ first <= e <= last)
  /\ (forall i e1 e2,
        out.*1 !! i = Some e1 -> out.*1 !! S i = Some e2 -> e2 - e1 = w)
  /\ (forall e cells, (e, cells) ∈ out ->
        exists win, (e, win) ∈ candidates
          /\ cells = aggregate (length (numeric_cols df)) (retained win)).
Proof.
  intros Hlimits Hoff Hdiv Hrun candidates retained.
  destruct (create_time_windows_inv _ _ _ _ Hrun) as (w' & Hoff' & Hw & Hne & ->).
  pose proof (eq_trans (eq_sym Hoff') Hoff) as [= ->].
  assert (Hex : exists v, v ∈ valid_windows config w (table_rows df)).
  { destruct (valid_windows config w (table_rows df)) as [|v vs];
      [congruence|]. exists v. apply list_elem_of_here. }
  set (D := concat (valid_windows config w (table_rows df))).
  assert (Hlabels : ((fun bin : Z * list feature_row =>
                        (bin.1, aggregate (length (numeric_cols df)) bin.2))
                       <$> resample w D).*1
                    = bin_labels w (sort_rows D)).
  { rewrite <- resample_labels, <- list_fmap_compose. reflexivity. }
  rewrite Hlabels.
  pose proof (sort_rows_sorted D) as HsD.
  destruct (sort_rows D) as [|r0 l] eqn:ES.
  { exfalso. destruct Hex as [v Hv].
    apply (df_windows_nonempty config Hlimits) in Hv.
    apply sort_rows_nonempty in Hv. exact (Hv ES). }
  destruct (regrouped_labels config Hlimits w (table_rows df) r0 l Hw Hdiv ES)
    as (Hiff & Hfirst & Hlast).
  split; [|split].
  - eexists _, _. split; [exact Hfirst|]. split; [exact Hlast|].
    intros e. unfold candidates. rewrite resample_labels. apply Hiff.
  - intros i e1 e2. now apply bin_labels_step.
  - intros e cells Hin.
    apply list_elem_of_fmap in Hin as ([e' rows'] & [= -> ->] & Hbin).
    cbn [fst snd]. apply elem_of_resample in Hbin as [He ->].
    rewrite ES in He. apply Hiff in He as [He _].
    exists (filter (in_bin w e') (sort_rows (table_rows df))).
    assert (Hcand : (e', filter (in_bin w e') (sort_rows (table_rows df)))
                    ∈ candidates)
      by (apply elem_of_resample; split; [exact He | reflexivity]).
    split; [exact Hcand|]. f_equal. unfold retained.
    destruct (keep_window config _) as [kept|] eqn:Hk.
    + exact (regroup_kept config Hlimits w _ e' _ kept Hw Hcand Hk).
    + exact (regroup_dropped config Hlimits w _ e' _ Hw Hcand Hk).
Qed.

End ResultTable.

(** Two rows ten minutes apart, windows of five minutes: the window in
    between has no row to retain, and has its row in the result. *)
Lemma result_index_spans_kept_windows_witness :
  let df := log_length_table [(36000, 40); (36600, 52)] in
  exists win,
    (36300, win) ∈ resample 300 (table_rows df)
    /\ [{| agg_mean := None; agg_std := None;
           agg_min := None; agg_max := None |}]
       = aggregate (length (numeric_cols df))
           (match keep_window default_config win with
            | Some kept => kept
            | None => []
            end).
Proof.
  intros df.
  assert (Hrun : exists out,
            create_time_windows alias_seconds default_config df = Ok out
            /\ (36300, [{| agg_mean := None; agg_std := None;
                           agg_min := None; agg_max := None |}]) ∈ out).
  { eexists. split; [vm_compute; reflexivity|].
    apply list_elem_of_further, list_elem_of_here. }
  destruct Hrun as (out & Hrun & Hin).
  assert (Hlimits : limits_ok default_config)
    by (split; [simpl; lia | discriminate]).
  destruct (result_index_spans_kept_windows alias_seconds default_config df
              300 out Hlimits eq_refl eq_refl Hrun) as (_ & _ & Hcells).
  exact (Hcells _ _ Hin).
Defined.

(** *** The aggregates of a row *)

(** The four aggregates of a group of values: all missing when the group is
    empty; otherwise minimum and maximum are values of the group, the
    minimum at most the maximum, the mean is a number, and the standard
    deviation is missing for a single value and not negative for more. *)
Lemma aggregate_series_consistent (l : list Q) :
  let cell := aggregate_series l in
  (l = [] /\ agg_mean cell = None /\ agg_std cell = None
   /\ agg_min cell = None /\ agg_max cell = None)
  \/ (exists mn me mx,
        agg_min cell = Some mn /\ agg_mean cell = Some me
        /\ agg_max cell = Some mx
        /\ mn ∈ l /\ mx ∈ l /\ (mn <= mx)%Q
        /\ (agg_std cell = None /\ length l = 1%nat
            \/ exists s, agg_std cell = Some s /\ (0 <= s)%R
                         /\ (2 <= length l)%nat)).
Proof.
  intros cell. subst cell. unfold aggregate_series. simpl.
  destruct l as [|x0 l0] eqn:El; [left; repeat split; reflexivity|].
  right. rewrite <- El.
  destruct (series_min l) as [mn|] eqn:Emin; [|subst l; discriminate].
  destruct (series_max l) as [mx|] eqn:Emax; [|subst l; discriminate].
  destruct (series_min_spec _ _ Emin) as [Hmn_in Hmn].
  destruct (series_max_spec _ _ Emax) as [Hmx_in Hmx].
  assert (Hmean : series_mean l = Some (Qsum l / Qlen l)%Q)
    by (subst l; reflexivity).
  exists mn, (Qsum l / Qlen l)%Q, mx.
  repeat split; try assumption.
  - now apply Hmn.
  - unfold series_std, series_var.
    destruct (length l <=? 1)%nat eqn:Elen.
    + left. split; [reflexivity|]. apply Nat.leb_le in Elen.
      subst l. simpl in *. lia.
    + right. apply Nat.leb_gt in Elen. eexists. split; [reflexivity|].
      split; [apply sqrt_pos | lia].
Qed.

Section Aggregated.
Variable to_offset : string -> result Z.
Variable config : PreprocessingConfig.

(** X19.  Every row of the table [create_time_windows] returns has one cell
    of four aggregates per feature column.  In a cell either all four are
    missing, or minimum, mean and maximum are numbers, the minimum at most
    the maximum, and the standard deviation is missing or a number that is
    not negative. *)
Theorem aggregates_are_consistent (df : feature_table) (out : window_table)
    (e : Z) (cells : list agg_cell) :
  create_time_windows to_offset config df = Ok out ->
  (e, cells) ∈ out ->
  length cells = length (numeric_cols df)
  /\ forall cell, cell ∈ cells ->
       (agg_mean cell = None /\ agg_std cell = None
        /\ agg_min cell = None /\ agg_max cell = None)
       \/ (exists mn me mx,
             agg_min cell = Some mn /\ agg_mean cell = Some me
             /\ agg_max cell = Some mx
             /\ (mn <= mx)%Q
             /\ (agg_std cell = None
                 \/ exists s, agg_std cell = Some s /\ (0 <= s)%R)).
Proof.
  intros Hrun Hin.
  destruct (create_time_windows_inv _ _ _ _ Hrun) as (w & _ & _ & _ & ->).
  apply list_elem_of_fmap in Hin as ([e' rows] & [= -> ->] & _).
  cbn [fst snd]. unfold aggregate. split.
  - now rewrite length_fmap, length_seq.
  - intros cell Hcell. apply list_elem_of_fmap in Hcell as (j & -> & _).
    destruct (aggregate_series_consistent (column_values j rows))
      as [(_ & H1 & H2 & H3 & H4)
         | (mn & me & mx & H1 & H2 & H3 & _ & _ & Hle & Hstd)].
    + left. repeat split; assumption.
    + right. exists mn, me, mx. repeat split; try assumption.
      destruct Hstd as [[Hs _]|(s & Hs & Hs0 & _)]; [now left|].
      right. now exists s.
Qed.

End Aggregated.

(** Rows at 10:00 and 10:10 in windows of five minutes: the row of the
    window at 10:00 has one cell, whose minimum, mean and maximum are
    numbers. *)
Lemma aggregates_are_consistent_witness :
  exists out cells,
    create_time_windows alias_seconds default_config
      (log_length_table [(36000, 40); (36600, 52)]) = Ok out
    /\ (36000, cells) ∈ out
    /\ length cells = 1%nat
    /\ forall cell, cell ∈ cells ->
         (agg_mean cell = None /\ agg_std cell = None
          /\ agg_min cell = None /\ agg_max cell = None)
         \/ (exists mn me mx,
               agg_min cell = Some mn /\ agg_mean cell = Some me
               /\ agg_max cell = Some mx
               /\ (mn <= mx)%Q
               /\ (agg_std cell = None
                   \/ exists s, agg_std cell = Some s /\ (0 <= s)%R)).
Proof.
  assert (Hrun : exists out cells,
            create_time_windows alias_seconds default_config
              (log_length_table [(36000, 40); (36600, 52)]) = Ok out
            /\ (36000, cells) ∈ out).
  { eexists. eexists. split; [vm_compute; reflexivity|].
    apply list_elem_of_here. }
  destruct Hrun as (out & cells & Hrun & Hin).
  exists out, cells. split; [exact Hrun|]. split; [exact Hin|].
  exact (aggregates_are_consistent alias_seconds default_config
           _ out _ _ Hrun Hin).
Defined.

(** ** The clock grid and the order of the rows *)

Section ClockGrid.
Variable to_offset : string -> result Z.
Variable config : PreprocessingConfig.

(** X25.  The rows of the table [create_time_windows] returns are labelled
    on a grid of the window size that starts at a midnight: there is a
    midnight from which every label is a whole number of windows away.  When
    the window size divides the day every label is a multiple of the window
    size, so windows of five minutes start at :00, :05, :10 and so on,
    wherever the first log falls. *)
Theorem result_labels_are_on_the_clock_grid (df : feature_table) (w : Z)
    (out : window_table) :
  to_offset (window_size config) = Ok w ->
  create_time_windows to_offset config df = Ok out ->
  0 < w
  /\ (exists midnight,
        midnight mod seconds_per_day = 0
        /\ forall e, e ∈ out.*1 -> (e - midnight) mod w = 0)
  /\ (seconds_per_day mod w = 0 -> forall e, e ∈ out.*1 -> e mod w = 0).
Proof.
  intros Hoff Hrun.
  destruct (create_time_windows_inv _ _ _ _ Hrun) as (w' & Hoff' & Hw & _ & ->).
  pose proof (eq_trans (eq_sym Hoff') Hoff) as [= ->].
  split; [exact Hw|].
  set (D := concat (valid_windows config w (table_rows df))).
  assert (Hlabels : ((fun bin : Z * list feature_row =>
                        (bin.1, aggregate (length (numeric_cols df)) bin.2))
                       <$> resample w D).*1
                    = bin_labels w (sort_rows D)).
  { rewrite <- resample_labels, <- list_fmap_compose. reflexivity. }
  rewrite Hlabels.
  pose proof (sort_rows_sorted D) as Hs.
  destruct (sort_rows D) as [|r0 l] eqn:ES.
  { split; [exists 0; split; [reflexivity | intros e He; inversion He]|].
    intros _ e He. inversion He. }
  split.
  - exists (day_start (ts r0)). split.
    + unfold day_start, seconds_per_day.
      pose proof (Z.mod_pos_bound (ts r0) 86400 ltac:(lia)).
      replace (ts r0 - ts r0 mod 86400) with (86400 * (ts r0 / 86400))
        by (pose proof (Z.div_mod (ts r0) 86400 ltac:(lia)); lia).
      rewrite Z.mul_comm. apply Z.mod_mul. lia.
    + intros e He.
      apply (elem_of_bin_labels w r0 l e Hw Hs) in He as (q & _ & ->).
      replace (day_start (ts r0) + w * q - day_start (ts r0)) with (q * w)
        by lia.
      apply Z.mod_mul. lia.
  - intros Hdiv e He.
    apply (elem_of_bin_labels_aligned w r0 l e Hw Hdiv Hs) in He as (m & _ & ->).
    rewrite Z.mul_comm. apply Z.mod_mul. lia.
Qed.

End ClockGrid.

(** Rows at 10:00:40 and 10:06:10, windows of five minutes: the labels are
    10:00 and 10:05. *)
Lemma result_labels_are_on_the_clock_grid_witness :
  exists out,
    create_time_windows alias_seconds default_config
      (log_length_table [(36040, 40); (36370, 52)]) = Ok out
    /\ (forall e, e ∈ out.*1 -> e mod 300 = 0).
Proof.
  assert (Hrun : exists out,
            create_time_windows alias_seconds default_config
              (log_length_table [(36040, 40); (36370, 52)]) = Ok out)
    by (eexists; vm_compute; reflexivity).
  destruct Hrun as (out & Hrun). exists out. split; [exact Hrun|].
  exact (proj2 (proj2 (result_labels_are_on_the_clock_grid alias_seconds
                         default_config _ 300 out eq_refl Hrun)) eq_refl).
Defined.

(** *** Rows given in another order *)

Lemma NoDup_fmap_inj_on {X Y} (f : X -> Y) (l : list X) x y :
  NoDup (f <$> l) -> x ∈ l -> y ∈ l -> f x = f y -> x = y.
Proof.
  induction l as [|a l IH]; intros Hnd Hx Hy Hf; [inversion Hx|].
  rewrite fmap_cons in Hnd. apply NoDup_cons in Hnd as [Ha Hnd].
  apply elem_of_cons in Hx as [->|Hx]; apply elem_of_cons in Hy as [->|Hy].
  - reflexivity.
  - exfalso. apply Ha. rewrite Hf. apply list_elem_of_fmap. now exists y.
  - exfalso. apply Ha. rewrite <- Hf. apply list_elem_of_fmap. now exists x.
  - now apply IH.
Qed.

(** Two sorted arrangements of rows with distinct timestamps are equal. *)
Lemma sorted_perm_unique (l l' : list feature_row) :
  sorted l -> sorted l' -> l ≡ₚ l' -> NoDup (ts <$> l) -> l = l'.
Proof.
  revert l'. induction l as [|x l IH]; intros l' Hs Hs' Hp Hnd.
  - symmetry. now apply Permutation_nil.
  - destruct l' as [|y l'].
    { symmetry in Hp. now apply Permutation_nil in Hp. }
    assert (Hy : y ∈ x :: l) by (rewrite Hp; apply list_elem_of_here).
    assert (Hx : x ∈ y :: l') by (rewrite <- Hp; apply list_elem_of_here).
    pose proof (sorted_bounds x l y Hs Hy) as [Hxy _].
    pose proof (sorted_bounds y l' x Hs' Hx) as [Hyx _].
    assert (x = y) as <-.
    { apply (NoDup_fmap_inj_on ts (x :: l) x y Hnd);
        [apply list_elem_of_here | exact Hy | lia]. }
    f_equal. apply IH.
    + now apply StronglySorted_inv in Hs as [Hs _].
    + now apply StronglySorted_inv in Hs' as [Hs' _].
    + now apply Permutation_cons_inv in Hp.
    + rewrite fmap_cons in Hnd. now apply NoDup_cons in Hnd as [_ Hnd].
Qed.

Section RowOrder.
Variable to_offset : string -> result Z.
Variable config : PreprocessingConfig.

(** X26.  When no two rows have the same timestamp, the order in which the
    rows of the feature table are given plays no part: a table with the
    same rows in another order has the same candidate windows and gives the
    same result, table or exception. *)
Theorem row_order_is_irrelevant (cols : list string)
    (rows rows' : list feature_row) :
  rows ≡ₚ rows' -> NoDup (ts <$> rows) ->
  (forall w, resample w rows' = resample w rows)
  /\ create_time_windows to_offset config
       {| numeric_cols := cols; table_rows := rows' |}
     = create_time_windows to_offset config
         {| numeric_cols := cols; table_rows := rows |}.
Proof.
  intros Hp Hnd.
  assert (Hsort : sort_rows rows' = sort_rows rows).
  { symmetry. apply sorted_perm_unique.
    - apply sort_rows_sorted.
    - apply sort_rows_sorted.
    - now rewrite !sort_rows_perm.
    - now rewrite sort_rows_perm. }
  assert (Hres : forall w, resample w rows' = resample w rows).
  { intros w. unfold resample. now rewrite Hsort. }
  split; [exact Hres|].
  unfold create_time_windows, valid_windows. simpl.
  destruct (to_offset (window_size config)) as [w|e]; [|reflexivity].
  simpl. now rewrite Hres.
Qed.

End RowOrder.

(** Two rows, given latest first. *)
Lemma row_order_is_irrelevant_witness :
  create_time_windows alias_seconds default_config
    {| numeric_cols := ["log_length"];
       table_rows := [{| ts := 36600; values := [52 # 1] |};
                      {| ts := 36000; values := [40 # 1] |}] |}
  = create_time_windows alias_seconds default_config
      {| numeric_cols := ["log_length"];
         table_rows := [{| ts := 36000; values := [40 # 1] |};
                        {| ts := 36600; values := [52 # 1] |}] |}.
Proof.
  apply (row_order_is_irrelevant alias_seconds default_config).
  - apply perm_swap.
  - simpl. repeat constructor.
    + intros Hin. apply list_elem_of_singleton in Hin. discriminate Hin.
    + intros Hin. inversion Hin.
Defined.
